(** * pdftool: the context-menu handler [merge_pdf_handler.py]

    A shallow embedding of the handler that Windows Explorer starts once per
    selected file, and the properties of its file-based leader election.

    Modelling decisions, all visible in the definitions below:
    - a path is the string [str(Path(x))]; [Path] itself is not modelled;
      a string is its UTF-8 text, white space is that of the ASCII range,
      and the lower-casing behind the sort key is a field of [Platform];
    - the file system is a finite map from paths to file contents: a file
      is found under the exact string of its path, directories are left
      out, and a file holds decoded text (after Python's universal-newline
      translation) or bytes that are not valid UTF-8, which every text read
      rejects; reads of missing or undecodable files are the only calls
      that raise, until the part on failing calls, where every call may;
    - [time.time()] is an integer count of milliseconds, so the sleep of
      0.6 s is 600 and the threshold 0.5 s is 500; a float is such a count
      or one of [nan], [inf], [-inf]; [str] on clock values and [float] on
      texts are two fields of [Platform];
    - every [with lock_file:] block is atomic; whether the lock is obtained
      within its 10 s is an input of the run ([acquired]);
    - the file kept by [filelock] itself is not part of the file system. *)

From Stdlib Require Import ZArith Lia Ascii String DecimalString DecimalZ.
From stdpp Require Import base gmap strings list sorting.

Open Scope string_scope.
Open Scope Z_scope.

(** ** Strings as Python sees them *)

Module PyStr.

(** [str.isspace] on the ASCII range: TAB, LF, VT, FF, CR, the four
    separators 0x1c-0x1f and the space. *)
Definition isspace (c : ascii) : bool :=
  let n := nat_of_ascii c in
  ((9 <=? n)%nat && (n <=? 13)%nat) || ((28 <=? n)%nat && (n <=? 32)%nat).

Fixpoint lstrip (s : string) : string :=
  match s with
  | EmptyString => EmptyString
  | String c s' => if isspace c then lstrip s' else s
  end.

Fixpoint rstrip (s : string) : string :=
  match s with
  | EmptyString => EmptyString
  | String c s' =>
      match rstrip s' with
      | EmptyString => if isspace c then EmptyString else String c EmptyString
      | r => String c r
      end
  end.

(** [s.strip()] *)
Definition strip (s : string) : string := rstrip (lstrip s).

(** The fields of [s] between the characters that satisfy [sep]
    ([n] separators give [n+1] fields, some of them empty). *)
Fixpoint split_at (sep : ascii → bool) (s : string) : list string :=
  match s with
  | EmptyString => [EmptyString]
  | String c s' =>
      if sep c then EmptyString :: split_at sep s'
      else match split_at sep s' with
           | [] => [String c EmptyString]
           | f :: fs => String c f :: fs
           end
  end.

(** Line ends of a file opened in text mode: LF, and CR, which universal
    newlines turn into LF. *)
Definition is_newline (c : ascii) : bool :=
  let n := nat_of_ascii c in (n =? 10)%nat || (n =? 13)%nat.

(** The lines that [for line in f] yields, without their terminator. A CR LF
    pair gives an extra empty field here; the caller strips each line and
    drops the empty ones, as the source does. *)
Definition lines (s : string) : list string := split_at is_newline s.

(** Some character of [s] satisfies [p]. *)
Fixpoint any (p : ascii → bool) (s : string) : bool :=
  match s with
  | EmptyString => false
  | String c s' => p c || any p s'
  end.

(** The last character, when there is one. *)
Fixpoint last_char (s : string) : option ascii :=
  match s with
  | EmptyString => None
  | String c EmptyString => Some c
  | String _ s' => last_char s'
  end.

Definition lower_char (c : ascii) : ascii :=
  let n := nat_of_ascii c in
  if ((65 <=? n)%nat && (n <=? 90)%nat)%bool then ascii_of_nat (n + 32) else c.

(** A character of the ASCII range. *)
Definition is_ascii (c : ascii) : bool := (nat_of_ascii c <? 128)%nat.

(** [s.lower()] on the ASCII letters. The lower case of no other
    character holds one of the characters of [.pdf], so this decides what
    the merge engine asks of [lower()]: whether a text is, ends in or
    holds [.pdf]. *)
Fixpoint lower (s : string) : string :=
  match s with
  | EmptyString => EmptyString
  | String c s' => String (lower_char c) (lower s')
  end.

End PyStr.

(** ** [pathlib] on Windows path strings *)

Module PyPath.

Definition is_sep (c : ascii) : bool :=
  let n := nat_of_ascii c in (n =? 92)%nat || (n =? 47)%nat.

(** A leading drive ([C:]) is no path component. *)
Definition drop_drive (s : string) : string :=
  match s with
  | String _ (String c s') => if (nat_of_ascii c =? 58)%nat then s' else s
  | _ => s
  end.

(** The components of a path: the fields between separators, without the
    empty ones and without [.]. *)
Definition parts (s : string) : list string :=
  filter (λ f, f ≠ "" ∧ f ≠ ".") (PyStr.split_at is_sep (drop_drive s)).

(** [Path(x).name]: the last component, or the empty string. *)
Definition name (s : string) : string := List.last (parts s) "".

(** [d / n] *)
Definition joinpath (d n : string) : string := d +:+ "\" +:+ n.

End PyPath.

(** ** Floats: clock values, and what else [float] accepts *)

Inductive pyfloat :=
  (** a number, as a count of milliseconds *)
  | Finite (ms : Z)
  | NaN
  | PosInf
  | NegInf.

Module PyFloat.

(** [now - x] for a clock value [now] *)
Definition since (now : Z) (x : pyfloat) : pyfloat :=
  match x with
  | Finite t => Finite (now - t)
  | NaN => NaN
  | PosInf => NegInf
  | NegInf => PosInf
  end.

(** [d < 0.5]; every comparison with [nan] is false. *)
Definition lt_half_second (d : pyfloat) : bool :=
  match d with
  | Finite ms => ms <? 500
  | NegInf => true
  | NaN | PosInf => false
  end.

End PyFloat.

(** ** The host: directories, the two conversions of clock values, and
    letter case *)

Class Platform := {
  (** [tempfile.gettempdir()] *)
  temp_dir : string;
  (** [Path(__file__).parent] *)
  script_dir : string;
  (** [str(t)] for a clock value [t] *)
  str_of_time : Z → string;
  (** [float(s)]; [None] when it raises [ValueError] *)
  float_of_string : string → option pyfloat;
  (** [s.lower()], which follows the Unicode tables of the interpreter *)
  str_lower : string → string
}.

(** Python prints a float so that reading the text gives the float back. *)
Definition float_round_trip `{Platform} : Prop :=
  ∀ t, float_of_string (PyStr.strip (str_of_time t)) = Some (Finite t).

(** On a text of the ASCII range [lower()] changes the letters A-Z and
    nothing else. *)
Definition lower_on_ascii `{Platform} : Prop :=
  ∀ s, PyStr.any (λ c, negb (PyStr.is_ascii c)) s = false →
       str_lower s = PyStr.lower s.

(** ** File system, effects, and the control flow of [main] *)

(** A file holds text, or bytes that [encoding='utf-8'] cannot decode. *)
Inductive file_data :=
  | Text (s : string)
  | Undecodable.

Global Instance file_data_eq_dec : EqDecision file_data.
Proof. solve_decision. Defined.

(** What a process does to the world: each call that can change a file,
    and each process it starts. *)
Inductive event :=
  | EvAppend (path data : string)
  | EvWrite (path data : string)
  | EvUnlink (path : string)
  | EvPopen (cmd : list string).

Record world := World {
  w_fs : gmap string file_data;
  w_trace : list event
}.

Inductive exn :=
  | Timeout | FileNotFoundError | UnicodeDecodeError | ValueError
  (** any other failure of a call to the operating system *)
  | OSError.

(** How a block of statements ends: it falls through with a value, it
    executes [return], or it raises. *)
Inductive outcome (A : Type) :=
  | Normal (a : A)
  | Returned
  | Raised (e : exn).
Arguments Normal {A} a.
Arguments Returned {A}.
Arguments Raised {A} e.

Definition M (A : Type) : Type := world → outcome A * world.

Definition ret {A} (a : A) : M A := λ w, (Normal a, w).

(** Sequencing: what follows runs only when the first block falls through. *)
Definition bind {A B} (m : M A) (k : A → M B) : M B := λ w,
  match m w with
  | (Normal a, w') => k a w'
  | (Returned, w') => (Returned, w')
  | (Raised e, w') => (Raised e, w')
  end.

Notation "'let*' x := m 'in' k" := (bind m (λ x, k))
  (at level 10, x name, m at level 100, k at level 200).
Notation "m ;;; k" := (bind m (λ _, k))
  (at level 100, k at level 200, right associativity).

(** [pass], and the end of a block. *)
Definition pass : M unit := ret tt.

Definition return_ {A} : M A := λ w, (Returned, w).
Definition raise {A} (e : exn) : M A := λ w, (Raised e, w).

(** [try: body / except: handler] with a bare [except]. *)
Definition try_except {A} (body handler : M A) : M A := λ w,
  match body w with
  | (Raised _, w') => handler w'
  | r => r
  end.

(** [try: body / except filelock.Timeout: on_timeout / except Exception as e:
    on_error e]. *)
Definition try_except_timeout {A} (body on_timeout : M A) (on_error : exn → M A)
    : M A := λ w,
  match body w with
  | (Raised Timeout, w') => on_timeout w'
  | (Raised e, w') => on_error e w'
  | r => r
  end.

Definition emit (e : event) (f : gmap string file_data → gmap string file_data)
    : M unit := λ w,
  (Normal tt, {| w_fs := f (w_fs w); w_trace := (w_trace w ++ [e])%list |}).

(** A value computed from the file system as it is now. *)
Definition gets {A} (f : gmap string file_data → A) : M A := λ w,
  (Normal (f (w_fs w)), w).

(** [path.exists()] *)
Definition exists_ (path : string) : M bool :=
  gets (λ fs, bool_decide (is_Some (fs !! path))).

Definition append_data (data : string) (old : option file_data) : file_data :=
  match old with
  | None => Text data
  | Some (Text s) => Text (s +:+ data)
  | Some Undecodable => Undecodable
  end.

(** [with open(path, 'a', encoding='utf-8') as f: f.write(data)] *)
Definition open_append (path data : string) : M unit :=
  emit (EvAppend path data) (λ fs, <[path := append_data data (fs !! path)]> fs).

(** [with open(path, 'w') as f: f.write(data)] *)
Definition open_write (path data : string) : M unit :=
  emit (EvWrite path data) (λ fs, <[path := Text data]> fs).

(** [with open(path, 'r', encoding='utf-8') as f: f.read()] *)
Definition open_read (path : string) : M string := λ w,
  match w_fs w !! path with
  | None => (Raised FileNotFoundError, w)
  | Some Undecodable => (Raised UnicodeDecodeError, w)
  | Some (Text s) => (Normal s, w)
  end.

(** [path.unlink(missing_ok=True)] *)
Definition unlink (path : string) : M unit :=
  emit (EvUnlink path) (λ fs, delete path fs).

(** [subprocess.Popen(cmd, ...)]: the child is started and not waited for. *)
Definition Popen (cmd : list string) : M unit :=
  emit (EvPopen cmd) (λ fs, fs).

(** [with lock_file:] *)
Definition with_lock {A} (acquired : bool) (body : M A) : M A :=
  if acquired then body else raise Timeout.

(** The world a block leaves behind, however it ends. *)
Definition exec {A} (m : M A) (w : world) : world := (m w).2.

(** The events a block adds to the trace of [w]. *)
Definition events_of {A} (m : M A) (w : world) : list event :=
  drop (length (w_trace w)) (w_trace (exec m w)).

Definition popens (tr : list event) : list (list string) :=
  omap (λ e, match e with EvPopen cmd => Some cmd | _ => None end) tr.

(** ** The handler *)

Record session_files := {
  collection : string;
  timestamp : string;
  lock : string;
  launcher_flag : string
}.

Section Handler.
Context `{Platform}.

(** [get_session_files()] *)
Definition get_session_files : session_files := {|
  collection := PyPath.joinpath temp_dir "pdf_merge_collection.txt";
  timestamp := PyPath.joinpath temp_dir "pdf_merge_timestamp.txt";
  lock := PyPath.joinpath temp_dir "pdf_merge.lock";
  launcher_flag := PyPath.joinpath temp_dir "pdf_merge_launcher.flag"
|}.

Definition pyw_exe : string := "C:\WINDOWS\pyw.exe".
Definition merge_script : string := PyPath.joinpath script_dir "merge_pdfs.py".
Definition error_log : string :=
  PyPath.joinpath temp_dir "pdf_merge_handler_error.log".

(** Lines 34-44: the first critical section. *)
Definition registration (file_path : string) (now : Z) : M unit :=
  let files := get_session_files in
  open_append (collection files) (file_path +:+ String "010" "");;;
  open_write (timestamp files) (str_of_time now);;;
  unlink (launcher_flag files).

(** Lines 75-78: the stripped lines that are not empty and name a file
    that exists. *)
Definition all_files (fs : gmap string file_data) (content : string)
    : list string :=
  PyStr.strip <$>
    filter (λ line, PyStr.strip line ≠ "" ∧ is_Some (fs !! PyStr.strip line))
           (PyStr.lines content).

(** Lines 80-85: one turn of the loop over [all_files], on the pair
    [(seen, unique_files)]. *)
Definition unique_step (st : gset string * list string) (file : string)
    : gset string * list string :=
  if decide (file ∈ st.1) then st else ({[file]} ∪ st.1, (st.2 ++ [file])%list).

Definition unique_files (all : list string) : list string :=
  (foldl unique_step (∅, []) all).2.

(** Line 89: the sort key [Path(x).name.lower()]. *)
Definition sort_key (x : string) : string := str_lower (PyPath.name x).

(** [list.sort(key=...)] is a stable sort, and every stable sort gives the
    same list. Here the entries are inserted from the last to the first, each
    before the first entry whose key is not smaller, so that entries with one
    key keep their order; keys compare as Python strings do. *)
Fixpoint insert_by_key (x : string) (l : list string) : list string :=
  match l with
  | [] => [x]
  | y :: l' =>
      if String.leb (sort_key x) (sort_key y) then x :: l
      else y :: insert_by_key x l'
  end.

Fixpoint sort_by_key (l : list string) : list string :=
  match l with
  | [] => []
  | x :: l' => insert_by_key x (sort_by_key l')
  end.

(** Lines 74-89, the body of the inner [try]. *)
Definition resolve (fs : gmap string file_data) (content : string)
    : list string :=
  sort_by_key (unique_files (all_files fs content)).

Definition collect_files : M (list string) :=
  let* content := open_read (collection get_session_files) in
  gets (λ fs, resolve fs content).

(** Lines 57-58 *)
Definition read_last_time : M pyfloat :=
  let* s := open_read (timestamp get_session_files) in
  match float_of_string (PyStr.strip s) with
  | Some t => ret t
  | None => raise ValueError
  end.

(** Lines 94-95 *)
Definition cleanup : M unit :=
  let files := get_session_files in
  unlink (collection files);;;
  unlink (timestamp files);;;
  unlink (launcher_flag files).

(** Lines 98-117 *)
Definition launch (unique : list string) : M unit :=
  if (1 <=? length unique)%nat then
    let* has_pyw := exists_ pyw_exe in
    if has_pyw then
      let* has_script := exists_ merge_script in
      if has_script then Popen ([pyw_exe; merge_script] ++ unique)%list
      else pass
    else pass
  else pass.

(** Lines 52-117: the second critical section. *)
Definition election (now : Z) : M unit :=
  let files := get_session_files in
  let* claimed := exists_ (launcher_flag files) in
  if claimed then return_ else
  let* last_time := try_except read_last_time return_ in
  let time_diff := PyFloat.since now last_time in
  if PyFloat.lt_half_second time_diff then return_ else
  open_write (launcher_flag files) "1";;;
  let* unique := try_except collect_files return_ in
  cleanup;;;
  launch unique.

(** Lines 124-129; the text of the log line is not modelled. Here no call
    of the [try] body raises anything but the timeout of the lock, so
    these lines are reached only in the part on failing calls below. *)
Definition log_error (e : exn) : M unit :=
  try_except (open_append error_log "Error") pass.

(** Lines 32 and 119-129 around a part of the [try] body. *)
Definition guarded (body : M unit) : M unit :=
  try_except_timeout body pass log_error.

Definition sleep_ms : Z := 600.

(** One run of [main] with nothing else touching the files while it
    sleeps: [acq1], [acq2] tell whether each lock is obtained, [t1], [t2]
    are the two readings of the clock. *)
Definition main (argv : list string) (acq1 : bool) (t1 : Z)
    (acq2 : bool) (t2 : Z) : M unit :=
  match argv with
  | _ :: arg1 :: _ =>
      let file_path := arg1 in
      let* present := exists_ file_path in
      if negb present then return_ else
      guarded (with_lock acq1 (registration file_path t1);;;
               with_lock acq2 (election t2))
  | _ => return_
  end.

(** The same run cut at [time.sleep(0.6)], for runs of several
    processes: what happens before the sleep, and after it. *)
Definition main_before_sleep (argv : list string) (acq1 : bool) (t1 : Z)
    : M unit :=
  match argv with
  | _ :: arg1 :: _ =>
      let* present := exists_ arg1 in
      if negb present then return_ else
      guarded (with_lock acq1 (registration arg1 t1))
  | _ => return_
  end.

Definition main_after_sleep (acq2 : bool) (t2 : Z) : M unit :=
  guarded (with_lock acq2 (election t2)).

End Handler.


(** ** Several handler processes on one host

    The processes share the file system and meet only at the lock, so a run
    of the host is a sequence of critical sections, each at one reading of
    the clock. *)

Inductive action :=
  (** A process is started on [path], finds it, obtains the lock and
      registers at clock value [t]. *)
  | Register (pid : nat) (path : string) (t : Z)
  (** A process that has registered wakes up and asks for the lock again;
      [t] is its reading of the clock. *)
  | Elect (pid : nat) (acquired : bool) (t : Z)
  (** Anything else changes files other than the three session files. *)
  | Outside (f : gmap string file_data → gmap string file_data).

Record system := System {
  sys_world : world;
  sys_clock : Z;
  (** the processes between their two critical sections, with the clock
      value of their registration *)
  sys_sleeping : gmap nat Z
}.

Section Host.
Context `{Platform}.

Definition session_paths : list string :=
  let files := get_session_files in
  [collection files; timestamp files; launcher_flag files].

Definition keeps_session_files (f : gmap string file_data → gmap string file_data)
    (fs : gmap string file_data) : Prop :=
  Forall (λ k, f fs !! k = fs !! k) session_paths.

(** One action; [None] when the host cannot do it: the clock went back, the
    sleep of 0.6 s is not over, the process does not exist or exists
    already, or the path of a new process does not exist. *)
Definition step (a : action) (s : system) : option system :=
  let w := sys_world s in
  match a with
  | Register pid path t =>
      if decide (sys_sleeping s !! pid = None ∧ sys_clock s ≤ t ∧
                 is_Some (w_fs w !! path))
      then Some {| sys_world :=
                     exec (main_before_sleep ["merge_pdf_handler.py"; path] true t) w;
                   sys_clock := t;
                   sys_sleeping := <[pid := t]> (sys_sleeping s) |}
      else None
  | Elect pid acquired t =>
      match sys_sleeping s !! pid with
      | Some t0 =>
          if decide (sys_clock s ≤ t ∧ t0 + sleep_ms ≤ t)
          then Some {| sys_world := exec (main_after_sleep acquired t) w;
                       sys_clock := t;
                       sys_sleeping := delete pid (sys_sleeping s) |}
          else None
      | None => None
      end
  | Outside f =>
      if decide (keeps_session_files f (w_fs w))
      then Some {| sys_world := {| w_fs := f (w_fs w); w_trace := w_trace w |};
                   sys_clock := sys_clock s;
                   sys_sleeping := sys_sleeping s |}
      else None
  end.

Fixpoint run (sched : list action) (s : system) : option system :=
  match sched with
  | [] => Some s
  | a :: sched' =>
      match step a s with
      | Some s' => run sched' s'
      | None => None
      end
  end.

Definition registered (sched : list action) : list (string * Z) :=
  omap (λ a, match a with Register _ p t => Some (p, t) | _ => None end) sched.

Definition lock_granted (a : action) : Prop :=
  match a with Elect _ acquired _ => acquired = true | _ => True end.

(** The wave of the claim: every two registrations are less than the
    threshold of 0.5 s apart. *)
Definition one_wave (sched : list action) : Prop :=
  ∀ r r', r ∈ registered sched → r' ∈ registered sched → r'.2 - r.2 < 500.

(** No session file exists. *)
Definition fresh (fs : gmap string file_data) : Prop :=
  Forall (λ k, fs !! k = None) session_paths.

(** What the registrations of a wave leave in the collection file. *)
Definition collection_text (paths : list string) : string :=
  foldr (λ p acc, p +:+ String "010" "" +:+ acc) "" paths.

(** ** Words of the specification, for comparison with the code *)

(** The three mutations of a registration, in order. *)
Definition registration_events (r : string * Z) : list event :=
  let files := get_session_files in
  [EvAppend (collection files) (r.1 +:+ String "010" "");
   EvWrite (timestamp files) (str_of_time r.2);
   EvUnlink (launcher_flag files)].

Definition cleanup_events : list event :=
  let files := get_session_files in
  [EvUnlink (collection files); EvUnlink (timestamp files);
   EvUnlink (launcher_flag files)].

(** The recorded last-update time, when [float] accepts the text of the
    timestamp file. *)
Definition last_update_time (fs : gmap string file_data) : option pyfloat :=
  match fs !! timestamp get_session_files with
  | Some (Text s) => float_of_string (PyStr.strip s)
  | _ => None
  end.

(** Section 4.4 of the specification: no leader yet, a readable
    timestamp, and at least Q = 0.5 s since the last registration. *)
Definition may_claim (now : Z) (fs : gmap string file_data) : Prop :=
  fs !! launcher_flag get_session_files = None ∧
  ∃ t0, last_update_time fs = Some (Finite t0) ∧ 500 ≤ now - t0.

(** What lines 52-66 let through: no leader flag, a timestamp that [float]
    accepts, and a difference that is not less than 0.5 s. *)
Definition claims (now : Z) (fs : gmap string file_data) : Prop :=
  fs !! launcher_flag get_session_files = None ∧
  ∃ v, last_update_time fs = Some v ∧
       PyFloat.lt_half_second (PyFloat.since now v) = false.

(** The store after a registration of [path] at clock value [t]. *)
Definition registered_fs (path : string) (t : Z) (fs : gmap string file_data)
    : gmap string file_data :=
  let files := get_session_files in
  delete (launcher_flag files)
    (<[timestamp files := Text (str_of_time t)]>
       (<[collection files :=
            append_data (path +:+ String "010" "") (fs !! collection files)]> fs)).

(** The store once the leader has written its flag, and once it has
    cleaned up. *)
Definition claimed_fs (fs : gmap string file_data) : gmap string file_data :=
  <[launcher_flag get_session_files := Text "1"]> fs.

Definition cleaned_fs (fs : gmap string file_data) : gmap string file_data :=
  let files := get_session_files in
  delete (launcher_flag files) (delete (timestamp files) (delete (collection files) fs)).

(** The launch of section 4.6 as the code guards it: a non-empty list,
    and both the interpreter and the merge script in place. *)
Definition launch_events (fs : gmap string file_data) (unique : list string)
    : list event :=
  if decide (unique ≠ [] ∧ is_Some (fs !! pyw_exe) ∧ is_Some (fs !! merge_script))
  then [EvPopen ([pyw_exe; merge_script] ++ unique)%list]
  else [].

Definition writes_flag (e : event) : Prop :=
  match e with
  | EvWrite p _ | EvAppend p _ => p = launcher_flag get_session_files
  | _ => False
  end.

Global Instance writes_flag_dec e : Decision (writes_flag e).
Proof. destruct e; simpl; apply _. Defined.

(** The events of the registrations of a wave, and of its leader, who
    finds the store [fs1] at its leadership check. *)
Definition wave_events (regs : list (string * Z)) : list event :=
  concat (registration_events <$> regs).

Definition leader_events (fs1 : gmap string file_data)
    (regs : list (string * Z)) : list event :=
  [EvWrite (launcher_flag get_session_files) "1"] ++ cleanup_events ++
  launch_events (cleaned_fs fs1)
                (resolve (claimed_fs fs1) (collection_text regs.*1)).

(** A wave that is still collecting: no leader flag, the collection and
    the timestamp of the registrations so far, and, as long as every lock is
    granted ([strict]), the process that registered last still asleep. *)
Definition collecting (strict : bool) (tr0 : list event)
    (regs : list (string * Z)) (s : system) : Prop :=
  let files := get_session_files in
  let fs := w_fs (sys_world s) in
  fs !! launcher_flag files = None ∧
  w_trace (sys_world s) = (tr0 ++ wave_events regs)%list ∧
  match last regs with
  | None =>
      fs !! collection files = None ∧ fs !! timestamp files = None ∧
      sys_sleeping s = ∅
  | Some r =>
      fs !! collection files = Some (Text (collection_text regs.*1)) ∧
      fs !! timestamp files = Some (Text (str_of_time r.2)) ∧
      (strict = true → ∃ pid, sys_sleeping s !! pid = Some r.2)
  end.

(** A wave that has had its leader, who found the store [fs1]. *)
Definition decided (tr0 : list event) (regs : list (string * Z))
    (fs1 : gmap string file_data) (s : system) : Prop :=
  fresh (w_fs (sys_world s)) ∧
  w_trace (sys_world s) = (tr0 ++ wave_events regs ++ leader_events fs1 regs)%list ∧
  ∃ r, r ∈ regs ∧ r.2 + 500 ≤ sys_clock s.

(** The snapshot of the collection as a sequence of path strings: its
    lines, stripped, without the blank ones. *)
Definition snapshot (content : string) : list string :=
  filter (λ x, x ≠ "") (PyStr.strip <$> PyStr.lines content).

(** "Deduplicate, preserving first occurrence order": an entry stays when
    it did not occur before. *)
Fixpoint first_occurrences (l : list string) : list string :=
  match l with
  | [] => []
  | x :: l' => x :: filter (λ y, y ≠ x) (first_occurrences l')
  end.

(** A path as Explorer passes it: not empty, no white space at its ends,
    no line break inside. *)
Definition plain_path (p : string) : Prop :=
  p ≠ "" ∧ PyStr.strip p = p ∧ PyStr.any PyStr.is_newline p = false.

(** "Sorted by the filename component, case-insensitively". *)
Definition name_le (x y : string) : Prop :=
  String.le (str_lower (PyPath.name x)) (str_lower (PyPath.name y)).

(** A file name as a directory lists it: not empty, not the directory
    itself, no separator inside. *)
Definition file_name (n : string) : Prop :=
  n ≠ "" ∧ n ≠ "." ∧ PyStr.any PyPath.is_sep n = false.


End Host.

(** ** The handler when calls to the operating system fail

    Above, a call fails only for what the files hold: a read of a file
    that is missing or is no text. Here every call can fail besides: the
    test of a path, the search for the temporary directory, the making of
    the lock object, the lock, opening, writing or removing a file,
    starting a process. Whether a
    call fails is an input of the run, which may depend on the call and on
    all that has happened before it; so is the state in which a failing
    call leaves the file it works on (a file opened for writing may be
    left created, emptied or written in part). The functions are those of
    the handler, word for word, over these calls. *)

Inductive call :=
  (** [path.exists()] *)
  | CallExists (path : string)
  (** [tempfile.gettempdir()], lines 13 and 125 *)
  | CallTempDir
  (** [filelock.FileLock(...)], line 30 *)
  | CallFileLock
  (** [with lock_file:] *)
  | CallAcquire
  | CallAppend (path data : string)
  | CallWrite (path data : string)
  | CallRead (path : string)
  | CallUnlink (path : string)
  (** lines 75-89, once the collection has been read *)
  | CallResolve
  | CallPopen (cmd : list string).

(** How a call goes: it works, or it raises and leaves the file it works
    on as [rest] ([None]: no file). *)
Inductive fate :=
  | Works
  | Fails (rest : option file_data).

(** The fate of each call, given the trace so far. *)
Definition faults : Type := list event → call → fate.

Definition no_faults : faults := λ _ _, Works.

(** The file a call writes to or removes. *)
Definition target (c : call) : option string :=
  match c with
  | CallAppend path _ | CallWrite path _ | CallUnlink path => Some path
  | _ => None
  end.

(** The world after a call that failed. *)
Definition leave (c : call) (rest : option file_data) (w : world) : world :=
  match target c with
  | Some path =>
      {| w_fs := partial_alter (λ _, rest) path (w_fs w); w_trace := w_trace w |}
  | None => w
  end.

Module Faulty.
Section Calls.
Context `{Platform}.
Variable f : faults.

(** The call [c], which raises [OSError] when it fails. *)
Definition may_fail {A} (c : call) (m : M A) : M A := λ w,
  match f (w_trace w) c with
  | Works => m w
  | Fails rest => (Raised OSError, leave c rest w)
  end.

Definition exists_ (path : string) : M bool :=
  may_fail (CallExists path) (exists_ path).

Definition open_append (path data : string) : M unit :=
  may_fail (CallAppend path data) (open_append path data).

Definition open_write (path data : string) : M unit :=
  may_fail (CallWrite path data) (open_write path data).

Definition open_read (path : string) : M string :=
  may_fail (CallRead path) (open_read path).

Definition unlink (path : string) : M unit :=
  may_fail (CallUnlink path) (unlink path).

Definition Popen (cmd : list string) : M unit :=
  may_fail (CallPopen cmd) (Popen cmd).

(** [with lock_file:]; the file that [filelock] keeps is not in the
    store. *)
Definition with_lock {A} (acquired : bool) (body : M A) : M A :=
  may_fail CallAcquire (with_lock acquired body).

(** [tempfile.gettempdir()]; its value is [temp_dir]. *)
Definition gettempdir : M unit := may_fail CallTempDir pass.

(** [filelock.FileLock(str(files['lock']), timeout=10)] *)
Definition FileLock : M unit := may_fail CallFileLock pass.

(** Lines 34-44 *)
Definition registration (file_path : string) (now : Z) : M unit :=
  let files := get_session_files in
  open_append (collection files) (file_path +:+ String "010" "");;;
  open_write (timestamp files) (str_of_time now);;;
  unlink (launcher_flag files).

(** Lines 74-89 *)
Definition collect_files : M (list string) :=
  let* content := open_read (collection get_session_files) in
  may_fail CallResolve (gets (λ fs, resolve fs content)).

(** Lines 57-58 *)
Definition read_last_time : M pyfloat :=
  let* s := open_read (timestamp get_session_files) in
  match float_of_string (PyStr.strip s) with
  | Some t => ret t
  | None => raise ValueError
  end.

(** Lines 94-95 *)
Definition cleanup : M unit :=
  let files := get_session_files in
  unlink (collection files);;;
  unlink (timestamp files);;;
  unlink (launcher_flag files).

(** Lines 98-117 *)
Definition launch (unique : list string) : M unit :=
  if (1 <=? length unique)%nat then
    let* has_pyw := exists_ pyw_exe in
    if has_pyw then
      let* has_script := exists_ merge_script in
      if has_script then Popen ([pyw_exe; merge_script] ++ unique)%list
      else pass
    else pass
  else pass.

(** Lines 52-117 *)
Definition election (now : Z) : M unit :=
  let files := get_session_files in
  let* claimed := exists_ (launcher_flag files) in
  if claimed then return_ else
  let* last_time := try_except read_last_time return_ in
  let time_diff := PyFloat.since now last_time in
  if PyFloat.lt_half_second time_diff then return_ else
  open_write (launcher_flag files) "1";;;
  let* unique := try_except collect_files return_ in
  cleanup;;;
  launch unique.

(** Lines 124-129 *)
Definition log_error (e : exn) : M unit :=
  try_except (gettempdir;;; open_append error_log "Error") pass.

(** Lines 32 and 119-129 *)
Definition guarded (body : M unit) : M unit :=
  try_except_timeout body pass log_error.

(** [main()]; lines 25-30 stand before the [try]. *)
Definition main (argv : list string) (acq1 : bool) (t1 : Z)
    (acq2 : bool) (t2 : Z) : M unit :=
  match argv with
  | _ :: arg1 :: _ =>
      let file_path := arg1 in
      let* present := exists_ file_path in
      if negb present then return_ else
      gettempdir;;;
      FileLock;;;
      guarded (with_lock acq1 (registration file_path t1);;;
               with_lock acq2 (election t2))
  | _ => return_
  end.

End Calls.
End Faulty.

(** A block changes no file whose path is outside [S], and what it adds
    to the trace starts at most [n] processes. *)
Definition confined {A} (S : string → Prop) (n : nat) (m : M A) : Prop :=
  ∀ w,
    (∀ k, ¬ S k → w_fs (m w).2 !! k = w_fs w !! k) ∧
    ∃ evs, w_trace (m w).2 = (w_trace w ++ evs)%list ∧
           (length (popens evs) ≤ n)%nat.

(** ** A concrete host: clock values written as decimal integers *)

Module DecimalClock.

Definition str (t : Z) : string := NilZero.string_of_int (Z.to_int t).

(** The texts that [float] reads as no number or as an infinity. *)
Definition special (s : string) : option pyfloat :=
  let l := PyStr.lower s in
  if bool_decide (l ∈ ["nan"; "+nan"; "-nan"]) then Some NaN
  else if bool_decide (l ∈ ["inf"; "+inf"; "infinity"; "+infinity"]) then Some PosInf
  else if bool_decide (l ∈ ["-inf"; "-infinity"]) then Some NegInf
  else None.

Definition parse (s : string) : option pyfloat :=
  match NilZero.int_of_string s with
  | Some i => Some (Finite (Z.of_int i))
  | None => special s
  end.

End DecimalClock.

(** Lower case in UTF-8 text for the letters of ASCII and of Latin-1: the
    capital letters of Latin-1 are the two bytes 0xC3 and 0x80-0x9E
    without 0x97, and their small letters are 0x20 further. *)
Module Latin1.

Fixpoint lower (s : string) : string :=
  match s with
  | EmptyString => EmptyString
  | String c s' =>
      if (nat_of_ascii c =? 195)%nat then
        match s' with
        | String d s'' =>
            let n := nat_of_ascii d in
            String c
              (String (if (128 <=? n)%nat && (n <=? 158)%nat && negb (n =? 151)%nat
                       then ascii_of_nat (n + 32) else d)
                      (lower s''))
        | EmptyString => String c EmptyString
        end
      else String (PyStr.lower_char c) (lower s')
  end.

End Latin1.

Definition windows_host : Platform := {|
  temp_dir := "C:\Temp";
  script_dir := "C:\pdftool";
  str_of_time := DecimalClock.str;
  float_of_string := DecimalClock.parse;
  str_lower := Latin1.lower
|}.

(** ** Scenarios on the concrete host *)

Module Scenario.
#[local] Existing Instance windows_host.

Definition report : string := "C:\sel\report.pdf".
Definition cover : string := "C:\sel\cover.pdf".
Definition appendix : string := "C:\sel\appendix.pdf".

(** A host with the launcher files and the three selected documents, and no
    session file. *)
Definition sel_fs : gmap string file_data :=
  list_to_map [("C:\WINDOWS\pyw.exe", Text "MZ");
               ("C:\pdftool\merge_pdfs.py", Text "#!");
               (report, Text "%PDF-r"); (cover, Text "%PDF-c");
               (appendix, Text "%PDF-a")].

(** The same host without the Python launcher in [C:\WINDOWS]. *)
Definition no_pyw_fs : gmap string file_data := delete "C:\WINDOWS\pyw.exe" sel_fs.

Definition boot (fs : gmap string file_data) : system :=
  {| sys_world := {| w_fs := fs; w_trace := [] |};
     sys_clock := 0;
     sys_sleeping := ∅ |}.

Definition after (sched : list action) (s : system) : system :=
  default s (run sched s).

(** Section 8 of the specification: three processes register within 50 ms
    and wake up 600 ms after their registration. *)
Definition three_files : list action :=
  [Register 0 report 0; Register 1 cover 20; Register 2 appendix 50;
   Elect 0 true 600; Elect 1 true 620; Elect 2 true 650].

(** One process; its document is deleted while it sleeps. *)
Definition vanished : list action :=
  [Register 0 report 0; Outside (delete report); Elect 0 true 600].

(** One process that does not obtain the lock for its leadership check. *)
Definition timed_out : list action :=
  [Register 0 report 0; Elect 0 false 600].

(** Two processes; one of the two documents is deleted while they sleep. *)
Definition one_left : list action :=
  [Register 0 report 0; Register 1 cover 20; Outside (delete report);
   Elect 0 true 600; Elect 1 true 620].

Definition missing : string := "C:\sel\missing.pdf".

Definition start (fs : gmap string file_data) : world :=
  {| w_fs := fs; w_trace := [] |}.

(** The store when one process has registered [report] at clock value 0. *)
Definition registered_world : world :=
  exec (main_before_sleep ["merge_pdf_handler.py"; report] true 0) (start sel_fs).

(** The collection file after that registration. *)
Definition report_line : string := collection_text [report].

(** The same on the host without [pyw.exe]. *)
Definition registered_no_pyw : world :=
  exec (main_before_sleep ["merge_pdf_handler.py"; report] true 0) (start no_pyw_fs).

(** The same with the collection file replaced by bytes that are no text. *)
Definition garbled_world : world :=
  {| w_fs := <[collection get_session_files := Undecodable]> (w_fs registered_world);
     w_trace := w_trace registered_world |}.

End Scenario.

(** ** The merge engine [merge_pdfs.py]

    Modelling decisions for the engine:
    - as for the handler, a path is the string [str(Path(x))] and exists
      when the file system holds this string; the tokens of the command
      line are taken in the form in which [pathlib] gives them back;
    - what the script takes from its libraries is a field of [Engine]: the
      home directory behind [expanduser], the identity of a resolved path,
      the parts of a path that [pathlib] computes, Tkinter and its save
      dialog, and the PDF backend with the file system calls of the merge;
    - the engine reads the file system and what it does is a list of
      events: the lines it logs, the messages it shows, the directory it
      makes and the document it writes; log lines and messages are
      constructors in place of their texts;
    - [_log] swallows its errors and [_show_message] is taken not to raise;
      which of its channels [_show_message] uses is not modelled, nor is
      the optional [flush] of the writer. *)

Module MergePdfs.

Inductive tk_state :=
  (** [import tkinter] fails *)
  | TkMissing
  (** [tk.Tk()] gives a root window *)
  | TkReady
  (** [tk.Tk()] raises *)
  | TkBroken.

(** What [PdfReader(str(pdf))] and the loop over its pages give. *)
Inductive reading (page : Type) :=
  | Unreadable
  | MergeFails
  | Pages (ps : list page).
Arguments Unreadable {page}.
Arguments MergeFails {page}.
Arguments Pages {page} ps.

Class Engine := {
  page : Type;
  (** [expanduser] on a path that starts with a tilde; [None] when the home
      directory cannot be determined ([RuntimeError]) *)
  expand_home : string → option string;
  (** the key of [path.resolve(strict=False)] in the set [seen], the path
      itself when [resolve] raises *)
  path_key : string → string;
  parent : string → string;
  stem : string → string;
  suffix : string → string;
  (** [with_suffix]; [None] when it raises [ValueError] *)
  with_suffix : string → string → option string;
  tk : tk_state;
  (** [filedialog.asksaveasfilename] for an initial directory and file; the
      empty string when the user cancels *)
  asksaveasfilename : string → string → string;
  (** a PDF backend can be imported *)
  backend : bool;
  PdfReader : string → reading page;
  (** [destination.parent.mkdir(parents=True, exist_ok=True)] succeeds *)
  mkdir_ok : string → bool;
  (** opening the destination and writing to it succeeds *)
  write_ok : string → bool
}.

(** The causes of the [RuntimeError]s, in place of their texts. *)
Inductive failure :=
  | NoBackend
  | FailedToRead (pdf : string)
  | FailedToMerge (pdf : string)
  | FailedToWrite (destination : string)
  | NoHomeDirectory.

Inductive error :=
  | ValueError
  | RuntimeError (f : failure)
  | OSError
  | TclError.

Inductive kind := KError | KWarning | KInfo.

Inductive message :=
  (** "Please select at least 2 PDF files to merge" *)
  | SelectAtLeastTwo
  (** "Files not found:" and the missing paths, one per line *)
  | FilesNotFound (missing : list string)
  (** "Select 2 or more PDF files to merge" *)
  | SelectTwoOrMore
  (** "Unable to show file save dialog" *)
  | NoSaveDialog
  (** [str(exc)] *)
  | Failed (f : failure)
  (** "Successfully merged n PDF files" and the name of the destination *)
  | Merged (n : nat) (name : string).

Inductive log_line :=
  | LogArgv (argv : list string)
  | LogDeduplicated (pdfs : list string)
  | LogMerged (n : nat) (destination : string)
  | LogFinished.

Section Script.
Context `{Engine}.

Inductive event :=
  | EvLog (l : log_line)
  | EvShow (k : kind) (m : message)
  | EvMkdir (dir : string)
  | EvWritePdf (destination : string) (pages : list page).

(** The documents written and the messages shown in a list of events. *)
Definition writes (evs : list event) : list (string * list page) :=
  omap (λ e, match e with EvWritePdf d ps => Some (d, ps) | _ => None end) evs.

Definition shown (evs : list event) : list (kind * message) :=
  omap (λ e, match e with EvShow k m => Some (k, m) | _ => None end) evs.

(** [Path(p).expanduser()]: only a path without drive whose first
    character is a tilde is changed. *)
Definition expanduser (p : string) : option string :=
  match p with
  | String c rest =>
      if (nat_of_ascii c =? 126)%nat &&
         negb (match rest with
               | String c1 _ => (nat_of_ascii c1 =? 58)%nat
               | EmptyString => false
               end)
      then expand_home p else Some p
  | EmptyString => Some p
  end.

(** The test of the regular expression at one place: [.pdf] in any case,
    then white space. *)
Definition is_dot_pdf (c0 c1 c2 c3 : ascii) : bool :=
  bool_decide (PyStr.lower (String c0 (String c1 (String c2 (String c3 "")))) = ".pdf").

(** [re.split(r'(\.pdf)\s+', token, flags=re.IGNORECASE)]: the pieces
    between the matches and, after each piece but the last, the text that
    the group matched. [skipping] is true inside the white space of a
    match, [cur] is the piece read so far. *)
Fixpoint re_split_from (skipping : bool) (cur : string) (s : string) : list string :=
  match s with
  | EmptyString => [cur]
  | String c0 s0 =>
      if skipping && PyStr.isspace c0 then re_split_from true cur s0
      else
        match s0 with
        | String c1 (String c2 (String c3 ((String c4 _) as s4))) =>
            if is_dot_pdf c0 c1 c2 c3 && PyStr.isspace c4
            then cur :: String c0 (String c1 (String c2 (String c3 "")))
                     :: re_split_from true "" s4
            else re_split_from false (cur +:+ String c0 "") s0
        | _ => re_split_from false (cur +:+ String c0 "") s0
        end
  end.

Definition re_split (token : string) : list string := re_split_from false "" token.

(** [s.endswith('.pdf')] *)
Definition endswith_pdf (s : string) : bool :=
  let n := String.length s in
  (4 <=? n)%nat && bool_decide (String.substring (n - 4) 4 s = ".pdf").

(** Lines 61-71: the loop over [parts], from index [i] on. *)
Fixpoint potential_paths (parts : list string) : list string :=
  match parts with
  | [] => []
  | p :: rest =>
      match rest with
      | ext :: rest' =>
          if bool_decide (PyStr.lower ext = ".pdf")
          then (p +:+ ext) :: potential_paths rest'
          else if endswith_pdf (PyStr.lower p) then p :: potential_paths rest
          else potential_paths rest
      | [] => if endswith_pdf (PyStr.lower p) then [p] else []
      end
  end.

(** [s.count('.pdf')]; the occurrences of this text cannot overlap. *)
Fixpoint count_pdf (s : string) : nat :=
  match s with
  | EmptyString => 0
  | String _ s' =>
      ((if String.prefix ".pdf" s then 1 else 0) + count_pdf s')%nat
  end.

Definition exists_in (fs : gmap string file_data) (p : string) : bool :=
  bool_decide (is_Some (fs !! p)).

(** [for x in l: pdfs.append(Path(x).expanduser())] *)
Fixpoint expand_all (l : list string) : option (list string) :=
  match l with
  | [] => Some []
  | x :: l' =>
      match expanduser x with
      | Some y => (y ::.) <$> expand_all l'
      | None => None
      end
  end.

(** The paths of one token as Explorer joins them: with one space
    between them. *)
Fixpoint join_paths (paths : list string) : string :=
  match paths with
  | [] => ""
  | [p] => p
  | p :: rest => p +:+ String " " (join_paths rest)
  end.

(** A path that the heuristic of lines 56-77 can find again in a joined
    token: it ends in [.pdf] in some case, does not begin with white space,
    and holds no [.pdf] followed by white space, so that splitting it alone
    leaves it whole. *)
Definition splittable (p : string) : Prop :=
  (∃ q e, p = q +:+ e ∧ PyStr.lower e = ".pdf") ∧
  re_split p = [p] ∧
  PyStr.lstrip p = p.

(** [token in ("-o", "--output")] *)
Definition is_option (token : string) : Prop := token = "-o" ∨ token = "--output".

(** Lines 46-78: the loop over the rest of [argv]. *)
Fixpoint parse_from (fs : gmap string file_data) (argv : list string)
    (pdfs : list string) (output : option string)
    : error + (list string * option string) :=
  match argv with
  | [] => inr (pdfs, output)
  | token :: rest =>
      if bool_decide (is_option token) then
        match rest with
        | [] => inl ValueError
        | output_token :: rest' =>
            match expanduser output_token with
            | Some o => parse_from fs rest' pdfs (Some o)
            | None => inl (RuntimeError NoHomeDirectory)
            end
        end
      else
        match expanduser token with
        | None => inl (RuntimeError NoHomeDirectory)
        | Some path =>
            let whole := parse_from fs rest (pdfs ++ [path])%list output in
            if negb (exists_in fs path) &&
               PyStr.any (λ c, bool_decide (c = " "%char)) token &&
               (1 <? count_pdf (PyStr.lower token))%nat
            then
              let potential := potential_paths (re_split token) in
              if (1 <? length potential)%nat && forallb (exists_in fs) potential
              then match expand_all potential with
                   | Some ps => parse_from fs rest (pdfs ++ ps)%list output
                   | None => inl (RuntimeError NoHomeDirectory)
                   end
              else whole
            else whole
        end
  end.

(** Where a parsed input can come from: it is a token of the command
    line with its home directory expanded, or it is such an expansion of a
    piece that lines 59-71 found in a token and that names a file that
    exists. *)
Definition from_argv (fs : gmap string file_data) (argv : list string) (p : string) : Prop :=
  (∃ t, t ∈ argv ∧ expanduser t = Some p) ∨
  (∃ t q, t ∈ argv ∧ q ∈ potential_paths (re_split t) ∧
          is_Some (fs !! q) ∧ expanduser q = Some p).

(** [_parse_args(argv)] *)
Definition _parse_args (fs : gmap string file_data) (argv : list string)
    : error + (list string * option string) :=
  parse_from fs argv [] None.

(** Lines 87-94: one turn of the loop, on the pair [(seen, resolved)]. *)
Definition deduplicate_step (st : gset string * list string) (path : string)
    : gset string * list string :=
  let key := path_key path in
  if decide (key ∈ st.1) then st else ({[key]} ∪ st.1, (st.2 ++ [path])%list).

(** [_deduplicate(paths)] *)
Definition _deduplicate (paths : list string) : list string :=
  (foldl deduplicate_step (∅, []) paths).2.

(** Lines 191-201: the loop over the inputs; the writer holds the pages
    added so far. *)
Fixpoint add_pages (pdfs : list string) (written : list page)
    : error + list page :=
  match pdfs with
  | [] => inr written
  | pdf :: rest =>
      match PdfReader pdf with
      | Unreadable => inl (RuntimeError (FailedToRead pdf))
      | MergeFails => inl (RuntimeError (FailedToMerge pdf))
      | Pages ps => add_pages rest (written ++ ps)%list
      end
  end.

(** A document whose pages can be read and added. *)
Definition readable (pdf : string) : Prop := ∃ ps, PdfReader pdf = Pages ps.

(** [merge_pdfs(pdfs, destination)]: its events, and the exception it
    raises, if any. *)
Definition merge_pdfs (pdfs : list string) (destination : string)
    : list event * option error :=
  if negb backend then ([], Some (RuntimeError NoBackend)) else
  match add_pages pdfs [] with
  | inl e => ([], Some e)
  | inr pages =>
      if negb (mkdir_ok (parent destination)) then ([], Some OSError) else
      if negb (write_ok destination)
      then ([EvMkdir (parent destination)],
            Some (RuntimeError (FailedToWrite destination)))
      else ([EvMkdir (parent destination); EvWritePdf destination pages], None)
  end.

(** [_choose_output_path(filedialog_module, first_pdf)], called with a
    dialog module that is not [None]. *)
Definition _choose_output_path (first_pdf : string) : option string :=
  let default_name := stem first_pdf +:+ "_merged.pdf" in
  let initial_dir := parent first_pdf in
  let destination := asksaveasfilename initial_dir default_name in
  if bool_decide (destination = "") then None else Some destination.

(** "Preserving order while removing duplicates": a path stays when no
    earlier path has its key. *)
Fixpoint first_by_key (l : list string) : list string :=
  match l with
  | [] => []
  | x :: l' => x :: filter (λ y, path_key y ≠ path_key x) (first_by_key l')
  end.

(** How [main] ends: [return code], or an exception that nothing catches. *)
Inductive ending :=
  | Exit (code : Z)
  | Uncaught (e : error).

(** Lines 267-281: from the chosen destination to the end of the [try]
    body. *)
Definition merge_to (pdfs : list string) (destination : string)
    : list event * (error + Z) :=
  match expanduser destination with
  | None => ([], inl (RuntimeError NoHomeDirectory))
  | Some destination =>
      let target :=
        if bool_decide (PyStr.lower (suffix destination) ≠ ".pdf")
        then with_suffix destination ".pdf" else Some destination in
      match target with
      | None => ([], inl ValueError)
      | Some destination =>
          match merge_pdfs pdfs destination with
          | (evs, Some e) => (evs, inl e)
          | (evs, None) =>
              ((evs ++ [EvLog (LogMerged (length pdfs) destination);
                        EvShow KInfo (Merged (length pdfs) (PyPath.name destination))])%list,
               inr 0)
          end
      end
  end.

(** Lines 227-281: the body of the [try]. *)
Definition try_body (fs : gmap string file_data) (pdfs : list string)
    (explicit_output : option string) : list event * (error + Z) :=
  match pdfs with
  | [] => ([EvShow KError SelectAtLeastTwo], inr 1)
  | first_pdf :: _ =>
      let missing := filter (λ p, ¬ is_Some (fs !! p)) pdfs in
      if bool_decide (missing ≠ []) then
        ([EvShow KError (FilesNotFound missing)], inr 1)
      else if (length pdfs <? 2)%nat then
        ([EvShow KWarning SelectTwoOrMore], inr 1)
      else
        match explicit_output with
        | Some destination => merge_to pdfs destination
        | None =>
            match tk with
            | TkMissing => ([EvShow KError NoSaveDialog], inr 1)
            | _ =>
                match _choose_output_path first_pdf with
                | None => ([], inr 0)
                | Some destination => merge_to pdfs destination
                end
            end
        end
  end.

(** The ways the body of the [try] can end: a refusal with its message, a
    cancelled dialog, a merge, or an exception before anything is
    written. *)
Inductive body_result (fs : gmap string file_data) (pdfs : list string)
    : list event * (error + Z) → Prop :=
  | body_refused k m :
      k ≠ KInfo → body_result fs pdfs ([EvShow k m], inr 1)
  | body_cancelled :
      body_result fs pdfs ([], inr 0)
  | body_merged destination pss :
      (2 ≤ length pdfs)%nat →
      Forall (λ p, is_Some (fs !! p)) pdfs →
      Forall2 (λ pdf ps, PdfReader pdf = Pages ps) pdfs pss →
      PyStr.lower (suffix destination) = ".pdf" ∨
        (∃ d, with_suffix d ".pdf" = Some destination) →
      body_result fs pdfs
        ([EvMkdir (parent destination);
          EvWritePdf destination (concat pss);
          EvLog (LogMerged (length pdfs) destination);
          EvShow KInfo (Merged (length pdfs) (PyPath.name destination))],
         inr 0)
  | body_failed evs e :
      writes evs = [] → shown evs = [] → body_result fs pdfs (evs, inl e).

(** [main(argv)] on the file system [fs]. *)
Definition main (fs : gmap string file_data) (argv : list string)
    : list event * ending :=
  let started := [EvLog (LogArgv argv)] in
  match _parse_args fs argv with
  | inl e => (started, Uncaught e)
  | inr (pdfs, explicit_output) =>
      let pdfs := _deduplicate pdfs in
      let parsed := (started ++ [EvLog (LogDeduplicated pdfs)])%list in
      match tk with
      | TkBroken => (parsed, Uncaught TclError)
      | _ =>
          let (evs, r) := try_body fs pdfs explicit_output in
          let (shown, e) :=
            match r with
            | inr code => ([], Exit code)
            | inl (RuntimeError f) => ([EvShow KError (Failed f)], Exit 1)
            | inl e => ([], Uncaught e)
            end in
          ((parsed ++ evs ++ shown ++ [EvLog LogFinished])%list, e)
      end
  end.

End Script.
End MergePdfs.

(** ** Scenarios for the later waves and the merge engine *)

Module MergeScenario.
#[local] Existing Instance windows_host.
Import Scenario.

(** A host on which an interrupted wave has left its leader flag. *)
Definition stale_fs : gmap string file_data :=
  <[launcher_flag get_session_files := Text "1"]> sel_fs.

(** A host whose collection file holds bytes that are no text. *)
Definition garbled_fs : gmap string file_data :=
  <[collection get_session_files := Undecodable]> sel_fs.

(** A second selection, five seconds after the first. *)
Definition second_wave : list action :=
  [Register 3 appendix 5000; Register 4 cover 5020;
   Elect 3 true 5600; Elect 4 true 5620].

(** Two documents with a space in their names, and the token that joins
    them. *)
Definition memo : string := "C:\sel\my memo.pdf".
Definition notes : string := "C:\sel\notes v2.PDF".
Definition joined : string := MergePdfs.join_paths [memo; notes].

Definition broken : string := "C:\sel\broken.pdf".
Definition merged : string := "C:\out\merged.pdf".

Definition desk_fs : gmap string file_data :=
  list_to_map [(report, Text "%PDF-r"); (cover, Text "%PDF-c");
               (appendix, Text "%PDF-a"); (memo, Text "%PDF-m");
               (notes, Text "%PDF-n"); (broken, Text "")].

(** The text before the last character that [sep] accepts, and the text
    from this character on. *)
Fixpoint cut_last (sep : ascii → bool) (s : string) : option (string * string) :=
  match s with
  | EmptyString => None
  | String c rest =>
      match cut_last sep rest with
      | Some (a, b) => Some (String c a, b)
      | None => if sep c then Some ("", s) else None
      end
  end.

Definition is_dot (c : ascii) : bool := bool_decide (c = "."%char).

(** The suffix of a file name: from its last dot on, when this dot is
    neither its first nor its last character. *)
Definition file_suffix (p : string) : string :=
  match cut_last is_dot (PyPath.name p) with
  | Some (String _ _, (String _ (String _ _)) as b) => b
  | _ => ""
  end.

Definition without_suffix (p : string) : string :=
  String.substring 0 (String.length p - String.length (file_suffix p)) p.

Definition file_stem (p : string) : string := without_suffix (PyPath.name p).

Definition directory (p : string) : string :=
  match cut_last PyPath.is_sep p with
  | Some (a, _) => a
  | None => "."
  end.

Definition replace_suffix (p s : string) : option string :=
  if bool_decide (PyPath.name p = "") then None else Some (without_suffix p +:+ s).

(** What the backend reads: the pages of the three selected documents and
    of the two with spaces; every other file is no PDF. *)
Definition pages_of (pdf : string) : MergePdfs.reading string :=
  if bool_decide (pdf = report) then MergePdfs.Pages ["report 1"; "report 2"]
  else if bool_decide (pdf = cover) then MergePdfs.Pages ["cover 1"]
  else if bool_decide (pdf = appendix)
  then MergePdfs.Pages ["appendix 1"; "appendix 2"; "appendix 3"]
  else if bool_decide (pdf = memo) then MergePdfs.Pages ["memo 1"]
  else if bool_decide (pdf = notes) then MergePdfs.Pages ["notes 1"; "notes 2"]
  else MergePdfs.Unreadable.

(** A desktop with Tkinter and a backend, where paths that differ in case
    only are one file; [dialog] is what the user answers in the save
    dialog. *)
Definition desktop (dialog : string → string → string) : MergePdfs.Engine := {|
  MergePdfs.page := string;
  MergePdfs.expand_home p :=
    Some ("C:\Users\me" +:+ String.substring 1 (String.length p - 1) p);
  MergePdfs.path_key := PyStr.lower;
  MergePdfs.parent := directory;
  MergePdfs.stem := file_stem;
  MergePdfs.suffix := file_suffix;
  MergePdfs.with_suffix := replace_suffix;
  MergePdfs.tk := MergePdfs.TkReady;
  MergePdfs.asksaveasfilename := dialog;
  MergePdfs.backend := true;
  MergePdfs.PdfReader := pages_of;
  MergePdfs.mkdir_ok _ := true;
  MergePdfs.write_ok _ := true
|}.

(** The user accepts the proposed name in the proposed directory. *)
Definition desk : MergePdfs.Engine := desktop PyPath.joinpath.

(** The user cancels the dialog. *)
Definition desk_cancelled : MergePdfs.Engine := desktop (λ _ _, "").

End MergeScenario.

(** ** Scenarios at the corners: odd timestamps, relative paths, names in
    several directories *)

Module Corner.
#[local] Existing Instance windows_host.
Import Scenario.




(** Three documents in three directories, one with a capital letter. *)
Definition beta : string := "C:\z\b.pdf".
Definition alpha : string := "C:\y\a.pdf".
Definition gamma : string := "C:\x\C.pdf".

Definition nested_fs : gmap string file_data :=
  <[beta := Text "%PDF-b"]> (<[alpha := Text "%PDF-a"]> (<[gamma := Text "%PDF-c"]> sel_fs)).

(** The store when they have been registered in the order [beta],
    [alpha], [gamma], at clock values 0, 10 and 20. *)
Definition nested_world : world :=
  let prog := "merge_pdf_handler.py" in
  exec (main_before_sleep [prog; gamma] true 20)
    (exec (main_before_sleep [prog; alpha] true 10)
       (exec (main_before_sleep [prog; beta] true 0) (start nested_fs))).

(** Two names that begin with letters of Latin-1. *)
Definition uebersicht : string := "C:\sel\Übersicht.pdf".
Definition aerger : string := "C:\sel\ärger.pdf".

Definition latin_fs : gmap string file_data :=
  <[uebersicht := Text "%PDF-u"]> (<[aerger := Text "%PDF-a"]> sel_fs).

(** A host on which no text can be written over a file: [open] with mode
    ['w'] empties the file, and the write then fails. *)
Definition write_fails : faults := λ _ c,
  match c with
  | CallWrite _ _ => Fails (Some (Text ""))
  | _ => Works
  end.

(** The [try] body of a run on [report] there, with both locks. *)
Definition handler_body : M unit :=
  Faulty.with_lock write_fails true (Faulty.registration write_fails report 0);;;
  Faulty.with_lock write_fails true (Faulty.election write_fails 600).

(** The world in which line 41 raises. *)
Definition failed_world : world :=
  {| w_fs := <[timestamp get_session_files := Text ""]>
               (<[collection get_session_files := Text (collection_text [report])]>
                  sel_fs);
     w_trace := [EvAppend (collection get_session_files) (report +:+ String "010" "")] |}.

End Corner.

(** * Properties *)

(** ** Resolution: the comprehension, the loop and the sort *)

Section Resolution.
Context `{Platform}.

Lemma all_files_snapshot (fs : gmap string file_data) content :
  all_files fs content = filter (λ x, is_Some (fs !! x)) (snapshot content).
Proof.
  unfold all_files, snapshot.
  induction (PyStr.lines content) as [|line ls IH]; [done|].
  rewrite fmap_cons, !filter_cons.
  destruct (decide (PyStr.strip line ≠ "" ∧ is_Some (fs !! PyStr.strip line)))
    as [[Hne Hex]|Hno].
  - rewrite decide_True by done. rewrite filter_cons, decide_True by done.
    rewrite fmap_cons. by f_equal.
  - destruct (decide (PyStr.strip line ≠ "")) as [Hne|Hemp]; [|done].
    rewrite filter_cons, decide_False by tauto. done.
Qed.

Lemma first_occurrences_subseteq l x : x ∈ first_occurrences l → x ∈ l.
Proof.
  revert x. induction l as [|y l IH]; simpl; intros x; [done|].
  rewrite !elem_of_cons, list_elem_of_filter. intros [->|[_ Hx]]; auto.
Qed.

Lemma elem_of_first_occurrences l x : x ∈ first_occurrences l ↔ x ∈ l.
Proof.
  split; [apply first_occurrences_subseteq|].
  induction l as [|y l IH]; simpl; [done|].
  rewrite !elem_of_cons, list_elem_of_filter.
  destruct (decide (x = y)); intros [?|?]; auto.
Qed.

Lemma NoDup_first_occurrences l : NoDup (first_occurrences l).
Proof.
  induction l as [|y l IH]; simpl; constructor.
  - rewrite list_elem_of_filter. by intros [? _].
  - by apply NoDup_filter.
Qed.

Lemma filter_absent (x : string) (l : list string) :
  x ∉ l → filter (λ y, y ≠ x) l = l.
Proof.
  induction l as [|y l IH]; [done|].
  rewrite not_elem_of_cons. intros [Hxy Hl].
  rewrite filter_cons, decide_True by done. f_equal; auto.
Qed.

Lemma filter_first_occurrences (P : string → Prop) `{∀ x, Decision (P x)} l :
  filter P (first_occurrences l) = first_occurrences (filter P l).
Proof.
  induction l as [|x l IH]; simpl; [done|].
  rewrite !filter_cons. destruct (decide (P x)) as [HP|HP]; simpl.
  - f_equal. rewrite <-IH, !list_filter_filter.
    apply list_filter_iff. tauto.
  - rewrite <-IH. apply list_filter_filter_l. by intros y Hy ->.
Qed.

Lemma unique_loop (seen : gset string) acc l :
  (foldl unique_step (seen, acc) l).2 =
  (acc ++ first_occurrences (filter (λ x, x ∉ seen) l))%list.
Proof.
  revert seen acc. induction l as [|x l IH]; intros seen acc; simpl.
  - by rewrite app_nil_r.
  - unfold unique_step at 2; simpl. rewrite filter_cons.
    destruct (decide (x ∈ seen)) as [Hin|Hout].
    + rewrite decide_False by tauto. apply IH.
    + rewrite decide_True by done. rewrite IH, <-app_assoc. simpl.
      do 2 f_equal. rewrite filter_first_occurrences, list_filter_filter.
      f_equal. apply list_filter_iff. intros y.
      rewrite elem_of_union, elem_of_singleton. tauto.
Qed.

(** The loop with the [seen] set keeps exactly the first occurrences. *)
Lemma unique_files_first_occurrences l : unique_files l = first_occurrences l.
Proof.
  unfold unique_files. rewrite unique_loop. simpl. f_equal.
  induction l as [|x l IH]; [done|].
  rewrite filter_cons, decide_True by set_solver. by f_equal.
Qed.

Lemma leb_name_le x y : String.leb (sort_key x) (sort_key y) = true ↔ name_le x y.
Proof. unfold name_le, String.le, sort_key. by rewrite Is_true_true. Qed.

Global Instance name_le_trans : Transitive name_le.
Proof. intros x y z. unfold name_le. apply transitivity. Qed.

Lemma name_le_total x y : name_le x y ∨ name_le y x.
Proof. unfold name_le. apply total, _. Qed.

Lemma insert_by_key_perm x l : insert_by_key x l ≡ₚ x :: l.
Proof.
  induction l as [|y l IH]; simpl; [done|].
  destruct (String.leb _ _); [done|]. rewrite IH. apply Permutation_swap.
Qed.

Lemma sort_by_key_perm l : sort_by_key l ≡ₚ l.
Proof.
  induction l as [|x l IH]; simpl; [done|].
  by rewrite insert_by_key_perm, IH.
Qed.

Lemma insert_by_key_hd z x l :
  name_le z x → HdRel name_le z l → HdRel name_le z (insert_by_key x l).
Proof.
  intros Hzx Hl. destruct l as [|y l]; simpl; [by constructor|].
  destruct (String.leb _ _); constructor; [done|].
  by inversion Hl.
Qed.

Lemma insert_by_key_sorted x l :
  Sorted name_le l → Sorted name_le (insert_by_key x l).
Proof.
  induction 1 as [|y l Hl IH Hhd]; simpl; [by repeat constructor|].
  destruct (String.leb _ _) eqn:Hle.
  - apply leb_name_le in Hle. by repeat constructor.
  - constructor; [done|]. apply insert_by_key_hd; [|done].
    destruct (name_le_total x y) as [Hxy|Hyx]; [|done].
    apply leb_name_le in Hxy. congruence.
Qed.

Lemma sort_by_key_sorted l : Sorted name_le (sort_by_key l).
Proof.
  induction l as [|x l IH]; simpl; [constructor|].
  by apply insert_by_key_sorted.
Qed.

(** Stability: entries with one key keep their order. *)
Lemma insert_by_key_stable k x l :
  filter (λ y, sort_key y = k) (insert_by_key x l) =
  filter (λ y, sort_key y = k) (x :: l).
Proof.
  induction l as [|y l IH]; simpl; [done|].
  destruct (String.leb _ _) eqn:Hle; [done|].
  assert (sort_key x ≠ sort_key y) as Hne.
  { intros Heq. rewrite Heq in Hle.
    assert (name_le y y) as Hyy by (destruct (name_le_total y y); done).
    apply leb_name_le in Hyy. congruence. }
  rewrite (filter_cons _ y), IH, !filter_cons.
  repeat case_decide; congruence.
Qed.

Lemma sort_by_key_stable k l :
  filter (λ y, sort_key y = k) (sort_by_key l) = filter (λ y, sort_key y = k) l.
Proof.
  induction l as [|x l IH]; simpl; [done|].
  by rewrite insert_by_key_stable, !filter_cons, IH.
Qed.

Lemma sort_key_ascii x :
  lower_on_ascii →
  PyStr.any (λ c, negb (PyStr.is_ascii c)) (PyPath.name x) = false →
  sort_key x = PyStr.lower (PyPath.name x).
Proof. intros Hlaw Hx. unfold sort_key. by apply Hlaw. Qed.

Lemma Sorted_impl_elem_of (R R' : string → string → Prop) l :
  (∀ x y, x ∈ l → y ∈ l → R x y → R' x y) → Sorted R l → Sorted R' l.
Proof.
  intros Himpl Hl. induction Hl as [|x l Hl IH Hhd]; constructor.
  - apply IH. intros y z Hy Hz. apply Himpl; by apply list_elem_of_further.
  - destruct Hhd as [|y l Hxy]; constructor.
    apply Himpl; [apply list_elem_of_here| |done].
    apply list_elem_of_further, list_elem_of_here.
Qed.

(** Where [lower()] is that of ASCII, a list of ASCII names sorted by the
    key is sorted by the names with A-Z read as a-z. *)
Lemma sorted_ascii_names l :
  lower_on_ascii →
  Forall (λ x, PyStr.any (λ c, negb (PyStr.is_ascii c)) (PyPath.name x) = false) l →
  Sorted name_le l →
  Sorted (λ x y, String.le (PyStr.lower (PyPath.name x))
                           (PyStr.lower (PyPath.name y))) l.
Proof.
  intros Hlaw Hascii. apply Sorted_impl_elem_of. intros x y Hx Hy.
  rewrite Forall_forall in Hascii. unfold name_le. by rewrite !Hlaw by auto.
Qed.

Lemma resolve_spec (fs : gmap string file_data) content :
  resolve fs content =
  sort_by_key (first_occurrences
    (filter (λ x, is_Some (fs !! x)) (snapshot content))).
Proof.
  unfold resolve. by rewrite all_files_snapshot, unique_files_first_occurrences.
Qed.

Lemma elem_of_resolve (fs : gmap string file_data) content x :
  x ∈ resolve fs content ↔ x ∈ snapshot content ∧ is_Some (fs !! x).
Proof.
  rewrite resolve_spec, sort_by_key_perm, elem_of_first_occurrences,
    list_elem_of_filter. tauto.
Qed.

Lemma NoDup_resolve (fs : gmap string file_data) content :
  NoDup (resolve fs content).
Proof.
  rewrite resolve_spec, sort_by_key_perm. apply NoDup_first_occurrences.
Qed.

End Resolution.

Section TwoHosts.
Variables H1 H2 : Platform.

(** The sort looks at the keys only: two hosts that give the entries
    the same keys sort them alike. *)
Lemma insert_by_key_ext x l :
  (∀ y, y ∈ x :: l → @sort_key H1 y = @sort_key H2 y) →
  @insert_by_key H1 x l = @insert_by_key H2 x l.
Proof.
  induction l as [|y l IH]; intros Hkeys; simpl; [done|].
  rewrite (Hkeys x), (Hkeys y) by (rewrite !elem_of_cons; auto).
  destruct (String.leb _ _); [done|]. f_equal. apply IH.
  intros z [->|Hz]%elem_of_cons; apply Hkeys.
  - apply list_elem_of_here.
  - by do 2 apply list_elem_of_further.
Qed.

Lemma sort_by_key_ext l :
  (∀ y, y ∈ l → @sort_key H1 y = @sort_key H2 y) →
  @sort_by_key H1 l = @sort_by_key H2 l.
Proof.
  induction l as [|x l IH]; intros Hkeys; simpl; [done|].
  rewrite <-IH by (intros y Hy; apply Hkeys; by apply list_elem_of_further).
  apply insert_by_key_ext. intros y Hy. apply Hkeys.
  rewrite elem_of_cons in Hy |- *. by rewrite (@sort_by_key_perm H1) in Hy.
Qed.

(** Two hosts whose [lower()] is that of ASCII on ASCII text resolve a
    snapshot of ASCII names alike. *)
Lemma resolve_ext (fs : gmap string file_data) content :
  @lower_on_ascii H1 → @lower_on_ascii H2 →
  Forall (λ x, PyStr.any (λ c, negb (PyStr.is_ascii c)) (PyPath.name x) = false)
         (snapshot content) →
  @resolve H1 fs content = @resolve H2 fs content.
Proof.
  intros Hlaw1 Hlaw2 Hascii.
  rewrite (@resolve_spec H1), (@resolve_spec H2).
  apply sort_by_key_ext. intros y Hy.
  apply elem_of_first_occurrences, list_elem_of_filter in Hy as [_ Hy].
  rewrite Forall_forall in Hascii.
  by rewrite (@sort_key_ascii H1), (@sort_key_ascii H2) by auto.
Qed.

End TwoHosts.

(** ** One process: what each critical section does *)

Section Runs.
Context `{Platform}.

Lemma joinpath_inj d n1 n2 : PyPath.joinpath d n1 = PyPath.joinpath d n2 → n1 = n2.
Proof.
  unfold PyPath.joinpath. intros Heq.
  apply (inj (String.app d)) in Heq. by simplify_eq/=.
Qed.

Lemma collection_ne_timestamp :
  collection get_session_files ≠ timestamp get_session_files.
Proof. intros Heq%joinpath_inj. discriminate. Qed.

Lemma collection_ne_flag :
  collection get_session_files ≠ launcher_flag get_session_files.
Proof. intros Heq%joinpath_inj. discriminate. Qed.

Lemma timestamp_ne_flag :
  timestamp get_session_files ≠ launcher_flag get_session_files.
Proof. intros Heq%joinpath_inj. discriminate. Qed.

Lemma NoDup_session_paths : NoDup session_paths.
Proof.
  pose proof collection_ne_timestamp. pose proof collection_ne_flag.
  pose proof timestamp_ne_flag.
  unfold session_paths. repeat constructor;
    rewrite ?elem_of_cons, ?elem_of_nil; tauto.
Qed.

Local Opaque get_session_files.

Lemma registration_run path t w :
  registration path t w =
  (Normal tt, {| w_fs := registered_fs path t (w_fs w);
                 w_trace := w_trace w ++ registration_events (path, t) |}).
Proof.
  unfold registration, bind, open_append, open_write, unlink, emit; simpl.
  by rewrite <-!app_assoc.
Qed.

Lemma cleanup_run w :
  cleanup w =
  (Normal tt, {| w_fs := cleaned_fs (w_fs w);
                 w_trace := w_trace w ++ cleanup_events |}).
Proof.
  unfold cleanup, bind, unlink, emit; simpl. by rewrite <-!app_assoc.
Qed.

Lemma launch_run unique w :
  launch unique w =
  (Normal tt, {| w_fs := w_fs w;
                 w_trace := w_trace w ++ launch_events (w_fs w) unique |}).
Proof.
  unfold launch, launch_events, bind, exists_, gets, Popen, emit, pass, ret.
  destruct w as [fs tr]. cbn [w_fs w_trace].
  destruct (decide (unique ≠ [] ∧ _)) as [(Hne & Hp & Hs)|Hno].
  - destruct unique as [|x unique]; [done|]. cbn [length Nat.leb].
    by rewrite !bool_decide_eq_true_2.
  - rewrite app_nil_r. destruct unique as [|x unique]; [done|].
    cbn [length Nat.leb].
    destruct (decide (is_Some (fs !! pyw_exe))) as [Hp|Hp];
      [|by rewrite (bool_decide_eq_false_2 _ Hp)].
    rewrite (bool_decide_eq_true_2 _ Hp).
    destruct (decide (is_Some (fs !! merge_script))) as [Hs|Hs];
      [|by rewrite (bool_decide_eq_false_2 _ Hs)].
    destruct Hno. done.
Qed.

Lemma read_last_time_run w :
  read_last_time w =
  match last_update_time (w_fs w) with
  | Some v => (Normal v, w)
  | None =>
      match w_fs w !! timestamp get_session_files with
      | None => (Raised FileNotFoundError, w)
      | Some Undecodable => (Raised UnicodeDecodeError, w)
      | Some (Text _) => (Raised ValueError, w)
      end
  end.
Proof.
  unfold read_last_time, last_update_time, bind, open_read.
  destruct (w_fs w !! timestamp get_session_files) as [[s|]|]; try done.
  by destruct (float_of_string (PyStr.strip s)).
Qed.

Lemma claims_dec now fs : Decision (claims now fs).
Proof.
  unfold claims.
  destruct (fs !! launcher_flag get_session_files) as [d|];
    [right; by intros [? _]|].
  destruct (last_update_time fs) as [v|];
    [|right; by intros [_ (? & ? & _)]].
  destruct (PyFloat.lt_half_second (PyFloat.since now v)) eqn:Hq.
  - right. intros [_ (v1 & [= <-] & ?)]. congruence.
  - left. eauto.
Qed.

(** The condition of the specification is one way to pass the test of
    the code; a timestamp that reads [nan] or [-inf] is the other. *)
Lemma claims_cases now fs :
  claims now fs ↔
  may_claim now fs ∨
  fs !! launcher_flag get_session_files = None ∧
  (last_update_time fs = Some NaN ∨ last_update_time fs = Some NegInf).
Proof.
  unfold claims, may_claim. split.
  - intros [Hflag (v & Hv & Hq)]. destruct v as [t0| | |]; simpl in Hq.
    + left. split; [done|]. exists t0. split; [done|]. by apply Z.ltb_ge.
    + right. auto.
    + done.
    + right. auto.
  - intros [[Hflag (t0 & Ht & Hq)]|[Hflag [Hv|Hv]]]; (split; [done|]).
    + exists (Finite t0). split; [done|]. simpl. by apply Z.ltb_ge.
    + by exists NaN.
    + by exists NegInf.
Qed.

Lemma may_claim_claims now fs : may_claim now fs → claims now fs.
Proof. intros Hm. apply claims_cases. by left. Qed.

(** Every way not to claim ends in [return] with the world as it was. *)
Lemma election_abstain now w :
  ¬ claims now (w_fs w) → election now w = (Returned, w).
Proof.
  intros Hno. unfold election, bind, exists_, gets, try_except, return_.
  destruct (w_fs w !! launcher_flag get_session_files) as [d|] eqn:Hflag.
  { by rewrite bool_decide_eq_true_2. }
  rewrite bool_decide_eq_false_2 by apply is_Some_None.
  rewrite read_last_time_run.
  destruct (last_update_time (w_fs w)) as [v|] eqn:Ht.
  - destruct (PyFloat.lt_half_second (PyFloat.since now v)) eqn:Hq; [done|].
    destruct Hno. split; [done|]. eauto.
  - by destruct (w_fs w !! timestamp get_session_files) as [[s|]|].
Qed.

Lemma election_claim now w :
  claims now (w_fs w) →
  election now w =
  (let* unique := try_except collect_files return_ in
   cleanup;;; launch unique)
    {| w_fs := claimed_fs (w_fs w);
       w_trace := w_trace w ++ [EvWrite (launcher_flag get_session_files) "1"] |}.
Proof.
  intros [Hflag (v & Ht & Hq)].
  unfold election at 1.
  unfold bind at 1. unfold exists_, gets. rewrite Hflag.
  rewrite bool_decide_eq_false_2 by apply is_Some_None.
  unfold bind at 1. unfold try_except at 1.
  rewrite read_last_time_run, Ht. rewrite Hq.
  unfold bind at 1. unfold open_write, emit. done.
Qed.

(** The leader flag is written, the collection cannot be read: the
    inner [except] returns before the cleanup. *)
Lemma election_stuck now w :
  claims now (w_fs w) →
  (∀ content, w_fs w !! collection get_session_files ≠ Some (Text content)) →
  election now w =
  (Returned, {| w_fs := claimed_fs (w_fs w);
                w_trace := w_trace w ++ [EvWrite (launcher_flag get_session_files) "1"] |}).
Proof.
  intros Hclaim Hbad. rewrite election_claim by done.
  unfold bind, try_except, collect_files, bind, open_read, return_; simpl.
  unfold claimed_fs. rewrite lookup_insert_ne by (symmetry; apply collection_ne_flag).
  destruct (w_fs w !! collection get_session_files) as [[s|]|] eqn:Hc; try done.
  by destruct (Hbad s).
Qed.

Lemma cleaned_claimed fs : cleaned_fs (claimed_fs fs) = cleaned_fs fs.
Proof.
  unfold cleaned_fs, claimed_fs. apply map_eq. intros k.
  pose proof collection_ne_flag. pose proof timestamp_ne_flag.
  destruct (decide (k = launcher_flag get_session_files)) as [->|Hk].
  - by rewrite !lookup_delete_eq.
  - rewrite !(lookup_delete_ne _ (launcher_flag _)) by done.
    destruct (decide (k = timestamp get_session_files)) as [->|Hk2].
    + by rewrite !lookup_delete_eq.
    + rewrite !(lookup_delete_ne _ (timestamp _)) by done.
      destruct (decide (k = collection get_session_files)) as [->|Hk3].
      * by rewrite !lookup_delete_eq.
      * rewrite !(lookup_delete_ne _ (collection _)) by done.
        by rewrite lookup_insert_ne.
Qed.

(** The leader: flag, resolution, cleanup, launch. *)
Lemma election_lead now w content :
  claims now (w_fs w) →
  w_fs w !! collection get_session_files = Some (Text content) →
  election now w =
  (Normal tt,
   {| w_fs := cleaned_fs (w_fs w);
      w_trace := w_trace w ++
        [EvWrite (launcher_flag get_session_files) "1"] ++ cleanup_events ++
        launch_events (cleaned_fs (w_fs w))
                      (resolve (claimed_fs (w_fs w)) content) |}).
Proof.
  intros Hclaim Hc. rewrite election_claim by done.
  unfold bind at 1. unfold try_except, collect_files.
  unfold bind at 1. unfold open_read. simpl.
  unfold claimed_fs at 1.
  rewrite lookup_insert_ne by (symmetry; apply collection_ne_flag).
  rewrite Hc. unfold gets. simpl.
  unfold bind. rewrite cleanup_run, launch_run. simpl.
  rewrite cleaned_claimed. by rewrite <-!app_assoc.
Qed.

Lemma election_cases now w :
  election now w = (Returned, w) ∨
  election now w =
    (Returned, {| w_fs := claimed_fs (w_fs w);
                  w_trace := w_trace w ++ [EvWrite (launcher_flag get_session_files) "1"] |}) ∨
  ∃ w', election now w = (Normal tt, w').
Proof.
  destruct (claims_dec now (w_fs w)) as [Hyes|Hno];
    [|left; by apply election_abstain].
  right. destruct (w_fs w !! collection get_session_files) as [[content|]|] eqn:Hc.
  - right. eexists. by apply election_lead.
  - left. apply election_stuck; [done|]. by rewrite Hc.
  - left. apply election_stuck; [done|]. by rewrite Hc.
Qed.

(** Nothing escapes the two bare [except] clauses, so with the lock in
    hand the outer handlers of lines 119-129 have nothing to catch. *)
Lemma main_after_sleep_granted now w :
  main_after_sleep true now w = election now w.
Proof.
  unfold main_after_sleep, guarded, try_except_timeout, with_lock.
  destruct (election_cases now w) as [-> | [-> | [w' ->]]]; done.
Qed.

Lemma main_after_sleep_timeout now w :
  main_after_sleep false now w = (Normal tt, w).
Proof. done. Qed.

Lemma main_before_sleep_registers prog path t w :
  is_Some (w_fs w !! path) →
  main_before_sleep [prog; path] true t w =
  (Normal tt, {| w_fs := registered_fs path t (w_fs w);
                 w_trace := w_trace w ++ registration_events (path, t) |}).
Proof.
  intros Hex. unfold main_before_sleep, bind, exists_, gets.
  rewrite bool_decide_eq_true_2 by done. cbn [negb].
  unfold guarded, try_except_timeout, with_lock.
  by rewrite registration_run.
Qed.

Lemma main_before_sleep_missing prog path acq t w :
  w_fs w !! path = None →
  main_before_sleep [prog; path] acq t w = (Returned, w).
Proof.
  intros Hex. unfold main_before_sleep, bind, exists_, gets. rewrite Hex.
  by rewrite bool_decide_eq_false_2 by apply is_Some_None.
Qed.

(** A run of [main] that nothing interrupts is its part before the sleep
    followed, when that part reaches the sleep, by its part after it. *)
Lemma main_split argv acq1 t1 acq2 t2 w :
  main argv acq1 t1 acq2 t2 w =
  match main_before_sleep argv acq1 t1 w with
  | (Normal _, w') =>
      if acq1 then main_after_sleep acq2 t2 w' else (Normal tt, w')
  | r => r
  end.
Proof.
  destruct argv as [|prog [|path argv]]; try done.
  unfold main, main_before_sleep, bind at 1 3, exists_, gets.
  destruct (bool_decide (is_Some (w_fs w !! path))); cbn [negb]; [|done].
  unfold main_after_sleep, guarded, try_except_timeout, with_lock.
  destruct acq1; [|done].
  unfold bind. rewrite registration_run. done.
Qed.

Lemma session_path_cases k :
  k ∈ session_paths ↔
  k = collection get_session_files ∨ k = timestamp get_session_files ∨
  k = launcher_flag get_session_files.
Proof. unfold session_paths. rewrite !elem_of_cons, elem_of_nil. tauto. Qed.

Lemma registered_fs_frame path t fs k :
  k ∉ session_paths → registered_fs path t fs !! k = fs !! k.
Proof.
  rewrite session_path_cases. intros Hk. unfold registered_fs.
  rewrite lookup_delete_ne, !lookup_insert_ne by (intros <-; tauto). done.
Qed.

Lemma registered_fs_collection path t fs :
  registered_fs path t fs !! collection get_session_files =
  Some (append_data (path +:+ String "010" "") (fs !! collection get_session_files)).
Proof.
  unfold registered_fs.
  rewrite lookup_delete_ne by (symmetry; apply collection_ne_flag).
  rewrite lookup_insert_ne by (symmetry; apply collection_ne_timestamp).
  by rewrite lookup_insert_eq.
Qed.

Lemma registered_fs_timestamp path t fs :
  registered_fs path t fs !! timestamp get_session_files =
  Some (Text (str_of_time t)).
Proof.
  unfold registered_fs.
  rewrite lookup_delete_ne by (symmetry; apply timestamp_ne_flag).
  by rewrite lookup_insert_eq.
Qed.

Lemma registered_fs_flag path t fs :
  registered_fs path t fs !! launcher_flag get_session_files = None.
Proof. unfold registered_fs. by rewrite lookup_delete_eq. Qed.

Lemma cleaned_fs_session fs k : k ∈ session_paths → cleaned_fs fs !! k = None.
Proof.
  rewrite session_path_cases. unfold cleaned_fs.
  pose proof collection_ne_flag. pose proof timestamp_ne_flag.
  pose proof collection_ne_timestamp.
  intros [-> | [-> | ->]].
  - rewrite !lookup_delete_ne by done. by rewrite lookup_delete_eq.
  - rewrite lookup_delete_ne by done. by rewrite lookup_delete_eq.
  - by rewrite lookup_delete_eq.
Qed.

Lemma cleaned_fs_frame fs k : k ∉ session_paths → cleaned_fs fs !! k = fs !! k.
Proof.
  rewrite session_path_cases. intros Hk. unfold cleaned_fs.
  rewrite !lookup_delete_ne by (intros <-; tauto). done.
Qed.

Lemma claimed_fs_frame fs k :
  k ≠ launcher_flag get_session_files → claimed_fs fs !! k = fs !! k.
Proof. intros Hk. unfold claimed_fs. by rewrite lookup_insert_ne. Qed.

Lemma last_update_time_claimed fs :
  last_update_time (claimed_fs fs) = last_update_time fs.
Proof.
  unfold last_update_time.
  by rewrite claimed_fs_frame by apply timestamp_ne_flag.
Qed.

Lemma events_of_app {A} (m : M A) w r w' evs :
  m w = (r, w') → w_trace w' = (w_trace w ++ evs)%list → events_of m w = evs.
Proof.
  intros Hm Htr. unfold events_of, exec. rewrite Hm. simpl. rewrite Htr.
  by rewrite drop_app_length.
Qed.

End Runs.

(** ** Several processes: one wave *)

Section Waves.
Context `{Platform}.

Hypothesis float_str_of_time : float_round_trip.

Local Opaque get_session_files main_before_sleep main_after_sleep.

Lemma run_snoc sched a s s' :
  run (sched ++ [a]) s = Some s' ↔
  ∃ s1, run sched s = Some s1 ∧ step a s1 = Some s'.
Proof.
  revert s. induction sched as [|b sched IH]; intros s; simpl.
  - split.
    + intros Hs. exists s. split; [done|]. by destruct (step a s).
    + intros (s1 & [= <-] & ->). done.
  - destruct (step b s) as [s2|]; [apply IH|].
    split; [done|]. by intros (s1 & ? & _).
Qed.

Lemma registered_snoc sched a :
  registered (sched ++ [a]) = (registered sched ++ registered [a])%list.
Proof. unfold registered. by rewrite omap_app. Qed.

Lemma one_wave_snoc sched a : one_wave (sched ++ [a]) → one_wave sched.
Proof.
  unfold one_wave. intros Hw r r' Hr Hr'.
  apply Hw; rewrite registered_snoc, elem_of_app; auto.
Qed.

Lemma string_app_assoc (a b c : string) : (a +:+ b) +:+ c = a +:+ (b +:+ c).
Proof.
  induction a as [|x a IH]; [done|].
  change (String x ((a +:+ b) +:+ c) = String x (a +:+ (b +:+ c))).
  by rewrite IH.
Qed.

Lemma collection_text_snoc paths p :
  collection_text (paths ++ [p]) =
  collection_text paths +:+ (p +:+ String "010" "").
Proof.
  induction paths as [|q paths IH]; simpl.
  - done.
  - rewrite IH. by rewrite !string_app_assoc.
Qed.

Lemma wave_events_snoc regs r :
  wave_events (regs ++ [r]) = (wave_events regs ++ registration_events r)%list.
Proof.
  unfold wave_events. rewrite fmap_app, concat_app. cbn [fmap list_fmap concat].
  by rewrite app_nil_r.
Qed.

Lemma last_update_time_written fs t :
  fs !! timestamp get_session_files = Some (Text (str_of_time t)) →
  last_update_time fs = Some (Finite t).
Proof.
  intros Ht. unfold last_update_time. rewrite Ht. apply float_str_of_time.
Qed.

Lemma fresh_lookup fs k : fresh fs → k ∈ session_paths → fs !! k = None.
Proof. unfold fresh. rewrite Forall_forall. auto. Qed.

Lemma fresh_no_claim now fs : fresh fs → ¬ claims now fs.
Proof.
  intros Hfresh [_ (t0 & Ht & _)]. unfold last_update_time in Ht.
  rewrite (fresh_lookup fs (timestamp get_session_files)) in Ht; [done..|].
  apply session_path_cases. auto.
Qed.

Lemma keeps_lookup f fs k :
  keeps_session_files f fs → k ∈ session_paths → f fs !! k = fs !! k.
Proof. unfold keeps_session_files. rewrite Forall_forall. auto. Qed.

Lemma flag_in_session : launcher_flag get_session_files ∈ session_paths.
Proof. apply session_path_cases. auto. Qed.
Lemma timestamp_in_session : timestamp get_session_files ∈ session_paths.
Proof. apply session_path_cases. auto. Qed.
Lemma collection_in_session : collection get_session_files ∈ session_paths.
Proof. apply session_path_cases. auto. Qed.

(** A registration keeps the wave collecting. *)
Lemma collecting_register strict tr0 regs s s' pid path t :
  collecting strict tr0 regs s →
  step (Register pid path t) s = Some s' →
  collecting strict tr0 (regs ++ [(path, t)]) s'.
Proof.
  intros (Hflag & Htr & Hlast) Hstep. unfold step in Hstep.
  case_decide as Hen; [|done]. destruct Hen as (Hpid & Hclock & Hex).
  injection Hstep as <-. unfold collecting. cbn [sys_world sys_sleeping].
  unfold exec. rewrite main_before_sleep_registers by done. cbn [snd w_fs w_trace].
  rewrite registered_fs_flag, registered_fs_collection, registered_fs_timestamp.
  rewrite last_snoc, Htr, wave_events_snoc, fmap_app.
  change ([(path, t)].*1) with [path]. rewrite collection_text_snoc.
  rewrite <-app_assoc. cbn [snd].
  split_and!; try done.
  - f_equal. destruct (last regs) as [r|] eqn:Hr.
    + destruct Hlast as (-> & _). done.
    + destruct Hlast as (-> & _). apply last_None in Hr as ->. done.
  - intros _. exists pid. by rewrite lookup_insert_eq.
Qed.

(** What one leadership check does to a collecting wave. *)
Lemma collecting_elect strict tr0 regs s s' pid acq t :
  collecting strict tr0 regs s →
  (strict = true → acq = true) →
  step (Elect pid acq t) s = Some s' →
  collecting strict tr0 regs s' ∨
  acq = true ∧ decided tr0 regs (w_fs (sys_world s)) s'.
Proof.
  intros (Hflag & Htr & Hlast) Hstrict Hstep. unfold step in Hstep.
  destruct (sys_sleeping s !! pid) as [t0|] eqn:Hpid; [|done].
  case_decide as Hen; [|done]. destruct Hen as [Hclock Hslept].
  injection Hstep as <-.
  destruct (last regs) as [r|] eqn:Hr; cycle 1.
  { destruct Hlast as (_ & _ & Hempty). by rewrite Hempty in Hpid. }
  destruct Hlast as (Hcoll & Hts & Hasleep).
  pose proof (last_update_time_written _ _ Hts) as Hlt.
  unfold exec. destruct acq; cycle 1.
  { left. rewrite main_after_sleep_timeout.
    unfold collecting. cbn [sys_world sys_sleeping snd]. rewrite Hr.
    split_and!; try done. intros Hs. by specialize (Hstrict Hs). }
  rewrite main_after_sleep_granted.
  destruct (decide (500 ≤ t - r.2)) as [Hquiet|Hbusy].
  - right. split; [done|].
    erewrite election_lead; [|apply may_claim_claims; split; eauto|done].
    unfold decided. cbn [sys_world sys_clock snd w_fs w_trace].
    split_and!.
    + apply Forall_forall. intros k Hk. by apply cleaned_fs_session.
    + rewrite Htr. by rewrite <-!app_assoc.
    + exists r. split; [by apply last_Some_elem_of|lia].
  - left. rewrite election_abstain; cycle 1.
    { intros [_ (v & Hv & Hq)]. rewrite Hlt in Hv. injection Hv as <-.
      simpl in Hq. apply Z.ltb_ge in Hq. lia. }
    unfold collecting. cbn [sys_world sys_sleeping snd]. rewrite Hr.
    split_and!; try done.
    intros Hs. destruct (Hasleep Hs) as [pid' Hpid'].
    exists pid'. rewrite lookup_delete_ne; [done|].
    intros ->. rewrite Hpid in Hpid'. unfold sleep_ms in Hslept.
    simplify_eq. lia.
Qed.

Lemma collecting_outside strict tr0 regs s s' f :
  collecting strict tr0 regs s →
  step (Outside f) s = Some s' →
  collecting strict tr0 regs s'.
Proof.
  intros (Hflag & Htr & Hlast) Hstep. unfold step in Hstep.
  case_decide as Hkeep; [|done]. injection Hstep as <-.
  unfold collecting. cbn [sys_world sys_sleeping w_fs w_trace].
  rewrite !(keeps_lookup f) by
    auto using flag_in_session, timestamp_in_session, collection_in_session.
  done.
Qed.

(** After the leader, a leadership check or an outside change leaves the
    trace alone; a registration would be 0.5 s or more after another. *)
Lemma decided_step tr0 regs fs1 s s' a :
  decided tr0 regs fs1 s →
  step a s = Some s' →
  (∀ r r', r ∈ (regs ++ registered [a])%list → r' ∈ (regs ++ registered [a])%list →
           r'.2 - r.2 < 500) →
  registered [a] = [] ∧ decided tr0 regs fs1 s'.
Proof.
  intros (Hfresh & Htr & r & Hr & Hlate) Hstep Hwave.
  destruct a as [pid path t|pid acq t|f]; unfold step in Hstep.
  - case_decide as Hen; [|done]. destruct Hen as (_ & Hclock & _).
    specialize (Hwave r (path, t)). simpl in Hwave.
    rewrite !elem_of_app, !list_elem_of_singleton in Hwave.
    specialize (Hwave (or_introl Hr) (or_intror eq_refl)). simpl in Hwave. lia.
  - destruct (sys_sleeping s !! pid) as [t0|] eqn:Hpid; [|done].
    case_decide as Hen; [|done]. destruct Hen as [Hclock Hslept].
    injection Hstep as <-. split; [done|].
    assert (exec (main_after_sleep acq t) (sys_world s) = sys_world s) as ->.
    { unfold exec. destruct acq; [|done]. rewrite main_after_sleep_granted.
      by rewrite election_abstain by by apply fresh_no_claim. }
    unfold decided. cbn [sys_world sys_clock].
    split_and!; try done. exists r. split; [done|lia].
  - case_decide as Hkeep; [|done]. injection Hstep as <-. split; [done|].
    unfold decided. cbn [sys_world sys_clock w_fs w_trace].
    split_and!; try done; [|by eauto].
    apply Forall_forall. intros k Hk.
    rewrite (keeps_lookup f) by done. by apply fresh_lookup.
Qed.

Lemma registered_app l1 l2 :
  registered (l1 ++ l2) = (registered l1 ++ registered l2)%list.
Proof. unfold registered. by rewrite omap_app. Qed.

(** A wave is collecting until one leadership check decides it, and
    stays decided. *)
Lemma wave_invariant strict s0 sched s :
  fresh (w_fs (sys_world s0)) →
  sys_sleeping s0 = ∅ →
  run sched s0 = Some s →
  (strict = true → Forall lock_granted sched) →
  one_wave sched →
  let tr0 := w_trace (sys_world s0) in
  collecting strict tr0 (registered sched) s ∨
  ∃ pre pid t post s1,
    sched = (pre ++ Elect pid true t :: post)%list ∧
    run pre s0 = Some s1 ∧
    registered post = [] ∧
    collecting strict tr0 (registered pre) s1 ∧
    decided tr0 (registered pre) (w_fs (sys_world s1)) s.
Proof.
  intros Hfresh Hnone Hrun Hlocks Hwave tr0. revert s Hrun Hlocks Hwave.
  induction sched as [|a sched IH] using rev_ind; intros s Hrun Hlocks Hwave.
  - left. injection Hrun as <-. unfold collecting. simpl.
    rewrite app_nil_r.
    rewrite !(fresh_lookup _ _ Hfresh) by
      auto using flag_in_session, timestamp_in_session, collection_in_session.
    done.
  - apply run_snoc in Hrun as (s1 & Hrun & Hstep).
    assert (strict = true → Forall lock_granted sched) as Hlocks'.
    { intros Hs. by apply Hlocks, Forall_app in Hs as [? _]. }
    assert (strict = true → lock_granted a) as Hlock.
    { intros Hs. apply Hlocks, Forall_app in Hs as [_ Ha].
      by rewrite Forall_singleton in Ha. }
    destruct (IH s1 Hrun Hlocks' (one_wave_snoc _ _ Hwave))
      as [Hcoll|(pre & pid & t & post & s2 & -> & Hpre & Hpost & Hcoll & Hdec)].
    + rewrite registered_snoc.
      destruct a as [pid path t|pid acq t|f].
      * left. by eapply collecting_register.
      * change (registered [Elect pid acq t]) with (@nil (string * Z)).
        rewrite app_nil_r.
        destruct (collecting_elect _ _ _ _ _ _ _ _ Hcoll Hlock Hstep)
          as [?|[-> Hdec]]; [by left|].
        right. exists sched, pid, t, [], s1. done.
      * left. change (registered [Outside f]) with (@nil (string * Z)).
        rewrite app_nil_r. by eapply collecting_outside.
    + right.
      assert (registered (pre ++ Elect pid true t :: post) = registered pre) as Hregs.
      { rewrite registered_app.
        change (Elect pid true t :: post) with ([Elect pid true t] ++ post)%list.
        rewrite registered_app, Hpost. by rewrite !app_nil_r. }
      destruct (decided_step _ _ _ _ _ _ Hdec Hstep) as [Ha Hdec'].
      { intros r r'. rewrite <-Hregs, <-registered_snoc. apply Hwave. }
      exists pre, pid, t, (post ++ [a])%list, s2. split_and!; try done.
      * by rewrite <-app_assoc.
      * by rewrite registered_app, Hpost, Ha.
Qed.

End Waves.

(** ** Text: stripping, lines, and the decimal clock *)

Section Text.

Lemma rstrip_no_space s : PyStr.any PyStr.isspace s = false → PyStr.rstrip s = s.
Proof.
  induction s as [|c s IH]; simpl; [done|].
  intros [Hc Hs]%orb_false_iff. rewrite (IH Hs), Hc. by destruct s.
Qed.

Lemma strip_no_space s : PyStr.any PyStr.isspace s = false → PyStr.strip s = s.
Proof.
  intros Hs. unfold PyStr.strip.
  assert (PyStr.lstrip s = s) as ->; [|by apply rstrip_no_space].
  destruct s as [|c s]; simpl in *; [done|].
  apply orb_false_iff in Hs as [-> _]; done.
Qed.

Lemma split_at_field sep p c rest :
  PyStr.any sep p = false → sep c = true →
  PyStr.split_at sep (p +:+ String c rest) = p :: PyStr.split_at sep rest.
Proof.
  intros Hp Hc. induction p as [|x p IH].
  - change ("" +:+ String c rest) with (String c rest). simpl. by rewrite Hc.
  - change (String x p +:+ String c rest) with (String x (p +:+ String c rest)).
    simpl in Hp. apply orb_false_iff in Hp as [Hx Hp].
    simpl. rewrite Hx, (IH Hp). done.
Qed.

Lemma split_at_no_sep sep n :
  PyStr.any sep n = false → PyStr.split_at sep n = [n].
Proof.
  induction n as [|x n IH]; [done|]. simpl.
  intros [Hx Hn]%orb_false_iff. by rewrite Hx, IH.
Qed.

Lemma split_at_last sep a c n :
  sep c = true → PyStr.any sep n = false →
  ∃ f fields, PyStr.split_at sep (a +:+ String c n) = (f :: fields ++ [n])%list.
Proof.
  intros Hc Hn. induction a as [|x a (f & fields & IH)].
  - exists "", []. change ("" +:+ String c n) with (String c n). simpl.
    by rewrite Hc, split_at_no_sep.
  - change (String x a +:+ String c n) with (String x (a +:+ String c n)).
    simpl. rewrite IH. destruct (sep x).
    + by exists "", (f :: fields).
    + by exists (String x f), fields.
Qed.

Lemma drop_drive_joinpath d n :
  d ≠ "" → ∃ d0, PyPath.drop_drive (PyPath.joinpath d n) = d0 +:+ String "\" n.
Proof.
  unfold PyPath.joinpath. intros Hd.
  destruct d as [|c1 [|c2 d]]; [done|by exists (String c1 "")|].
  change (String c1 (String c2 d) +:+ "\" +:+ n)
    with (String c1 (String c2 (d +:+ String "\" n))).
  simpl. destruct (nat_of_ascii c2 =? 58)%nat; [by exists d|].
  by exists (String c1 (String c2 d)).
Qed.

(** [Path(d / n).name] is [n]. *)
Lemma name_joinpath d n :
  d ≠ "" → file_name n → PyPath.name (PyPath.joinpath d n) = n.
Proof.
  intros Hd (Hne & Hdot & Hsep). unfold PyPath.name, PyPath.parts.
  destruct (drop_drive_joinpath d n Hd) as (d0 & ->).
  destruct (split_at_last PyPath.is_sep d0 "\" n eq_refl Hsep) as (f & fields & ->).
  rewrite app_comm_cons, filter_app, (filter_cons _ n), decide_True by done.
  rewrite filter_nil. apply last_last.
Qed.

(** In a list sorted by the key, the file names stand in the order of
    their lower case, whatever their directories. *)
Lemma sorted_file_names `{Platform} l i j d1 n1 d2 n2 :
  Sorted name_le l → (i ≤ j)%nat →
  l !! i = Some (PyPath.joinpath d1 n1) →
  l !! j = Some (PyPath.joinpath d2 n2) →
  d1 ≠ "" → d2 ≠ "" → file_name n1 → file_name n2 →
  String.le (str_lower n1) (str_lower n2).
Proof.
  intros Hs Hij Hi Hj Hd1 Hd2 Hn1 Hn2.
  apply Sorted_StronglySorted in Hs; [|apply _].
  assert (name_le (PyPath.joinpath d1 n1) (PyPath.joinpath d2 n2)) as Hle.
  { destruct (decide (i = j)) as [->|Hne].
    - rewrite Hi in Hj. injection Hj as <-. unfold name_le. reflexivity.
    - rewrite <-(take_drop j l) in Hs.
      eapply StronglySorted_app_1_elem_of; [exact Hs|..].
      + apply list_elem_of_lookup. exists i. rewrite lookup_take_lt by lia. done.
      + apply list_elem_of_lookup. exists 0%nat. rewrite lookup_drop.
        by rewrite Nat.add_0_r. }
  unfold name_le in Hle. by rewrite !name_joinpath in Hle.
Qed.

(** The lower case of the concrete host is that of ASCII on ASCII text. *)
Lemma latin1_lower_on_ascii : @lower_on_ascii windows_host.
Proof.
  intros s. simpl. induction s as [|c s IH]; [done|].
  cbn [PyStr.any]. intros [Hc Hs]%orb_false_iff.
  cbn [Latin1.lower PyStr.lower].
  replace (nat_of_ascii c =? 195)%nat with false; [by rewrite IH|].
  symmetry. apply Nat.eqb_neq. unfold PyStr.is_ascii in Hc.
  apply negb_false_iff, Nat.ltb_lt in Hc. lia.
Qed.

Lemma lines_collection_text paths :
  Forall (λ p, PyStr.any PyStr.is_newline p = false) paths →
  PyStr.lines (collection_text paths) = (paths ++ [""])%list.
Proof.
  induction 1 as [|p paths Hp Hps IH]; [done|].
  unfold PyStr.lines in *. simpl.
  change (p +:+ String "010" "" +:+ collection_text paths)
    with (p +:+ String "010" (collection_text paths)).
  rewrite split_at_field by done. by rewrite IH.
Qed.

(** The snapshot of a collection written by registrations of plain paths
    is the sequence of these paths. *)
Lemma snapshot_collection_text paths :
  Forall plain_path paths → snapshot (collection_text paths) = paths.
Proof.
  intros Hplain. unfold snapshot. rewrite lines_collection_text; cycle 1.
  { eapply Forall_impl; [done|]. by intros p (_ & _ & ?). }
  rewrite fmap_app, filter_app. simpl.
  rewrite (filter_cons _ ""), decide_False by (by intros []).
  rewrite filter_nil, app_nil_r.
  induction Hplain as [|p paths (Hne & Hstrip & _) _ IH]; [done|].
  rewrite fmap_cons, filter_cons, Hstrip, decide_True by done. by rewrite IH.
Qed.

Lemma length_string_app a b :
  String.length (a +:+ b) = (String.length a + String.length b)%nat.
Proof.
  induction a as [|x a IH]; [done|].
  change (String x a +:+ b) with (String x (a +:+ b)). simpl. by rewrite IH.
Qed.

Lemma last_char_app a c b :
  PyStr.last_char (a +:+ String c b) = PyStr.last_char (String c b).
Proof.
  induction a as [|x a IH]; [done|].
  change (String x a +:+ String c b) with (String x (a +:+ String c b)).
  rewrite <-IH. simpl. by destruct a.
Qed.

Lemma uint_no_space d :
  PyStr.any PyStr.isspace (NilEmpty.string_of_uint d) = false.
Proof. induction d; simpl; done. Qed.

Lemma decimal_no_space t : PyStr.any PyStr.isspace (DecimalClock.str t) = false.
Proof.
  unfold DecimalClock.str. destruct (Z.to_int t) as [d|d]; simpl;
    destruct d; simpl; try done; apply uint_no_space.
Qed.

Lemma to_int_not_nil t :
  Z.to_int t ≠ Decimal.Pos Decimal.Nil ∧ Z.to_int t ≠ Decimal.Neg Decimal.Nil.
Proof.
  destruct t as [|p|p]; simpl; split; try done; intros [= Hp];
    by apply (DecimalPos.Unsigned.to_uint_nonnil p).
Qed.

(** The decimal clock reads back what it writes. *)
Lemma decimal_round_trip : @float_round_trip windows_host.
Proof.
  intros t. simpl. rewrite strip_no_space by apply decimal_no_space.
  unfold DecimalClock.parse, DecimalClock.str.
  destruct (to_int_not_nil t) as [Hp Hn].
  rewrite NilZero.isi by done. by rewrite DecimalZ.of_to.
Qed.

End Text.

(** ** The launcher files are no session files *)

Section Launcher.
Context `{Platform}.

Lemma pyw_exe_outside : pyw_exe ∉ session_paths.
Proof.
  rewrite session_path_cases. unfold get_session_files, PyPath.joinpath. simpl.
  intros [Heq|[Heq|Heq]]; apply (f_equal String.length) in Heq;
    rewrite !length_string_app in Heq; simpl in Heq; lia.
Qed.

Lemma joinpath_cons d n : PyPath.joinpath d n = d +:+ String "\" n.
Proof. done. Qed.

Lemma merge_script_outside : merge_script ∉ session_paths.
Proof.
  rewrite session_path_cases.
  unfold get_session_files, merge_script. cbn [collection timestamp launcher_flag].
  rewrite !joinpath_cons.
  intros [Heq|[Heq|Heq]]; apply (f_equal PyStr.last_char) in Heq;
    rewrite !last_char_app in Heq; simpl in Heq; done.
Qed.

Lemma launch_events_cleaned fs unique :
  launch_events (cleaned_fs fs) unique = launch_events fs unique.
Proof.
  unfold launch_events.
  rewrite !cleaned_fs_frame by auto using pyw_exe_outside, merge_script_outside.
  done.
Qed.

Local Opaque get_session_files pyw_exe merge_script.

Lemma filter_writes_flag_wave regs : filter writes_flag (wave_events regs) = [].
Proof.
  unfold wave_events. induction regs as [|r regs IH]; [done|].
  rewrite fmap_cons. cbn [concat]. rewrite filter_app, IH, app_nil_r.
  unfold registration_events. rewrite !filter_cons, filter_nil.
  rewrite !decide_False; [done|simpl..]; auto using collection_ne_flag, timestamp_ne_flag.
Qed.

Lemma popens_wave regs : popens (wave_events regs) = [].
Proof.
  unfold wave_events, popens. induction regs as [|r regs IH]; [done|].
  rewrite fmap_cons. cbn [concat]. by rewrite omap_app, IH.
Qed.

Lemma filter_writes_flag_leader fs1 regs :
  filter writes_flag (leader_events fs1 regs) =
  [EvWrite (launcher_flag get_session_files) "1"].
Proof.
  unfold leader_events, cleanup_events, launch_events.
  rewrite filter_app, filter_cons, decide_True by done.
  rewrite filter_nil, filter_app, !filter_cons, filter_nil.
  rewrite !decide_False by (simpl; tauto).
  case_decide; [|done]. rewrite filter_cons, decide_False by (simpl; tauto). done.
Qed.

Lemma popens_leader fs1 regs :
  popens (leader_events fs1 regs) =
  popens (launch_events fs1 (resolve (claimed_fs fs1) (collection_text regs.*1))).
Proof.
  unfold leader_events, cleanup_events, popens.
  rewrite !omap_app, launch_events_cleaned. done.
Qed.

Lemma popens_launch fs unique :
  popens (launch_events fs unique) =
  if decide (unique ≠ [] ∧ is_Some (fs !! pyw_exe) ∧ is_Some (fs !! merge_script))
  then [([pyw_exe; merge_script] ++ unique)%list] else [].
Proof. unfold launch_events. by case_decide. Qed.

End Launcher.

(** ** The leadership check of one process, through [main] *)

Section Leader.
Context `{Platform}.

Local Opaque get_session_files pyw_exe merge_script.

Lemma main_after_sleep_abstain now w :
  ¬ claims now (w_fs w) → main_after_sleep true now w = (Returned, w).
Proof. intros Hno. rewrite main_after_sleep_granted. by apply election_abstain. Qed.

Lemma main_after_sleep_lead now w content :
  claims now (w_fs w) →
  w_fs w !! collection get_session_files = Some (Text content) →
  main_after_sleep true now w =
  (Normal tt,
   {| w_fs := cleaned_fs (w_fs w);
      w_trace := w_trace w ++
        [EvWrite (launcher_flag get_session_files) "1"] ++ cleanup_events ++
        launch_events (w_fs w) (resolve (claimed_fs (w_fs w)) content) |}).
Proof.
  intros Hclaim Hc. rewrite main_after_sleep_granted.
  rewrite (election_lead _ _ _ Hclaim Hc). by rewrite launch_events_cleaned.
Qed.

Lemma main_after_sleep_stuck now w :
  claims now (w_fs w) →
  (∀ content, w_fs w !! collection get_session_files ≠ Some (Text content)) →
  main_after_sleep true now w =
  (Returned, {| w_fs := claimed_fs (w_fs w);
                w_trace := w_trace w ++ [EvWrite (launcher_flag get_session_files) "1"] |}).
Proof.
  intros Hclaim Hbad. rewrite main_after_sleep_granted. by apply election_stuck.
Qed.

(** Whoever may claim writes the flag first, and [main] ends without an
    exception. *)
Lemma main_after_sleep_claim now w :
  claims now (w_fs w) →
  ∃ r w' evs,
    main_after_sleep true now w = (r, w') ∧
    (∀ e, r ≠ Raised e) ∧
    w_trace w' =
      (w_trace w ++ EvWrite (launcher_flag get_session_files) "1" :: evs)%list.
Proof.
  intros Hclaim.
  destruct (w_fs w !! collection get_session_files) as [[content|]|] eqn:Hc.
  - rewrite (main_after_sleep_lead _ _ _ Hclaim Hc). by eexists _, _, _.
  - rewrite main_after_sleep_stuck; [|done|by rewrite Hc]. by eexists _, _, [].
  - rewrite main_after_sleep_stuck; [|done|by rewrite Hc]. by eexists _, _, [].
Qed.

(** A leadership check only adds to the trace. *)
Lemma main_after_sleep_extends acq now w :
  ∃ evs, w_trace (exec (main_after_sleep acq now) w) = (w_trace w ++ evs)%list.
Proof.
  unfold exec. destruct acq; [|exists []; by rewrite app_nil_r].
  destruct (claims_dec now (w_fs w)) as [Hyes|Hno].
  - destruct (main_after_sleep_claim now w Hyes) as (r & w' & evs & Hrun & _ & Htr).
    rewrite Hrun. by eexists.
  - rewrite main_after_sleep_abstain by done. exists []. by rewrite app_nil_r.
Qed.

Lemma claimed_no_claim now fs : ¬ claims now (claimed_fs fs).
Proof. intros [Hflag _]. unfold claimed_fs in Hflag. by rewrite lookup_insert_eq in Hflag. Qed.

Lemma cleaned_fresh fs : fresh (cleaned_fs fs).
Proof. apply Forall_forall. intros k Hk. by apply cleaned_fs_session. Qed.

(** While nothing registers, a store without session files stays so, and
    no process adds an event. *)
Lemma fresh_step a s s' :
  fresh (w_fs (sys_world s)) →
  registered [a] = [] →
  step a s = Some s' →
  fresh (w_fs (sys_world s')) ∧ w_trace (sys_world s') = w_trace (sys_world s).
Proof.
  intros Hfresh Hreg Hstep. destruct a as [pid path t|pid acq t|f]; [done|..];
    unfold step in Hstep.
  - destruct (sys_sleeping s !! pid) as [t0|]; [|done].
    case_decide; [|done]. injection Hstep as <-. cbn [sys_world]. unfold exec.
    destruct acq; [|done].
    by rewrite main_after_sleep_abstain by by apply fresh_no_claim.
  - case_decide as Hkeep; [|done]. injection Hstep as <-.
    cbn [sys_world w_fs w_trace]. split; [|done].
    apply Forall_forall. intros k Hk.
    rewrite (keeps_lookup f) by done. by apply fresh_lookup.
Qed.

Lemma fresh_run sched s s' :
  fresh (w_fs (sys_world s)) →
  registered sched = [] →
  run sched s = Some s' →
  fresh (w_fs (sys_world s')) ∧ w_trace (sys_world s') = w_trace (sys_world s).
Proof.
  revert s. induction sched as [|a sched IH]; intros s Hfresh Hreg Hrun.
  - by injection Hrun as <-.
  - simpl in Hrun. destruct (step a s) as [s1|] eqn:Hstep; [|done].
    change (a :: sched) with ([a] ++ sched)%list in Hreg.
    rewrite registered_app in Hreg. apply app_eq_nil in Hreg as [Ha Hsched].
    destruct (fresh_step _ _ _ Hfresh Ha Hstep) as [Hfresh1 Htr1].
    destruct (IH s1 Hfresh1 Hsched Hrun) as [? ->]. done.
Qed.

Lemma one_wave_Forall sched :
  Forall (λ r, Forall (λ r' : string * Z, r'.2 - r.2 < 500) (registered sched))
         (registered sched) →
  one_wave sched.
Proof.
  intros Hall r r' Hr Hr'. rewrite Forall_forall in Hall.
  specialize (Hall r Hr). rewrite Forall_forall in Hall. by apply Hall.
Qed.

End Leader.

(** * The claims *)

(** C2. For every collection file the leader reads, the resolved list is the
    snapshot (the stripped, non-blank lines) filtered to the paths that exist,
    then reduced to first occurrences, then sorted by the lower-cased file
    name: it equals that pipeline, is sorted by that key, is a permutation
    of the deduplicated list and keeps the order of entries with one key.
    The key of a path [d\n] is the lower case of [n] alone, whatever the
    directory, so of two entries [d1\n1] and [d2\n2] of the resolved list
    the one whose name has the smaller lower case comes first. Where [lower()] is what it is on ASCII text, a snapshot of
    ASCII names is sorted by these names with A-Z read as a-z;
    [b.pdf], [a.pdf], [c.pdf] registered in that order resolve to [a.pdf],
    [b.pdf], [c.pdf]; and of [C:\z\b.pdf], [C:\y\a.pdf], [C:\x\C.pdf],
    [C:\z\b.pdf] again and a path that is gone, the first three remain, in
    the order [a.pdf], [b.pdf], [C.pdf]. The snapshot of a collection
    written from plain paths is these paths. *)
Theorem resolve_filter_dedup_sort `{Platform} (fs : gmap string file_data)
    (content : string) :
  let existing := filter (λ x, is_Some (fs !! x)) (snapshot content) in
  let unique := first_occurrences existing in
  resolve fs content = sort_by_key unique ∧
  Sorted name_le (resolve fs content) ∧
  resolve fs content ≡ₚ unique ∧
  (∀ k, filter (λ x, sort_key x = k) (resolve fs content) =
        filter (λ x, sort_key x = k) unique) ∧
  (∀ paths, Forall plain_path paths → snapshot (collection_text paths) = paths) ∧
  (∀ d n, d ≠ "" → file_name n → sort_key (PyPath.joinpath d n) = str_lower n) ∧
  (∀ i j d1 n1 d2 n2, (i ≤ j)%nat →
     resolve fs content !! i = Some (PyPath.joinpath d1 n1) →
     resolve fs content !! j = Some (PyPath.joinpath d2 n2) →
     d1 ≠ "" → d2 ≠ "" → file_name n1 → file_name n2 →
     String.le (str_lower n1) (str_lower n2)) ∧
  (lower_on_ascii →
   (Forall (λ x, PyStr.any (λ c, negb (PyStr.is_ascii c)) (PyPath.name x) = false)
           (snapshot content) →
    Sorted (λ x y, String.le (PyStr.lower (PyPath.name x))
                             (PyStr.lower (PyPath.name y)))
           (resolve fs content)) ∧
   resolve (list_to_map [("b.pdf", Text ""); ("a.pdf", Text ""); ("c.pdf", Text "")])
           (collection_text ["b.pdf"; "a.pdf"; "c.pdf"]) =
     ["a.pdf"; "b.pdf"; "c.pdf"] ∧
   resolve (list_to_map [("C:\z\b.pdf", Text ""); ("C:\y\a.pdf", Text "");
                         ("C:\x\C.pdf", Text "")])
           (collection_text ["C:\z\b.pdf"; "C:\y\a.pdf"; "C:\x\C.pdf";
                             "C:\z\b.pdf"; "C:\gone.pdf"]) =
     ["C:\y\a.pdf"; "C:\z\b.pdf"; "C:\x\C.pdf"]).
Proof.
  intros existing unique. split_and!.
  - apply resolve_spec.
  - apply sort_by_key_sorted.
  - rewrite resolve_spec. apply sort_by_key_perm.
  - intros k. rewrite resolve_spec. apply sort_by_key_stable.
  - apply snapshot_collection_text.
  - intros d n Hd Hn. unfold sort_key. by rewrite name_joinpath.
  - intros i j d1 n1 d2 n2. apply sorted_file_names, sort_by_key_sorted.
  - intros Hlaw. split_and!.
    + intros Hascii. apply sorted_ascii_names; [done| |apply sort_by_key_sorted].
      rewrite Forall_forall in Hascii |- *.
      intros x [Hx _]%elem_of_resolve. auto.
    + rewrite (resolve_ext _ windows_host _ _ Hlaw latin1_lower_on_ascii);
        [by vm_compute|].
      vm_compute. repeat constructor.
    + rewrite (resolve_ext _ windows_host _ _ Hlaw latin1_lower_on_ascii);
        [by vm_compute|].
      vm_compute. repeat constructor.
Qed.


(** C4. The cleanup of lines 94-95 succeeds on every store, whichever of the
    three session files exist, and leaves none of them. The leader runs it
    after its flag write and before the only [Popen], so no session file is
    left when the merge engine starts or when the leader is done. *)
Theorem cleanup_before_launch `{Platform} (now : Z) (w : world) (content : string) :
  may_claim now (w_fs w) →
  w_fs w !! collection get_session_files = Some (Text content) →
  (∀ w0, ∃ w1, cleanup w0 = (Normal tt, w1) ∧
               w_trace w1 = (w_trace w0 ++ cleanup_events)%list ∧
               fresh (w_fs w1)) ∧
  (∃ started,
     events_of (main_after_sleep true now) w =
       ([EvWrite (launcher_flag get_session_files) "1"] ++ cleanup_events ++ started)%list ∧
     (started = [] ∨ ∃ cmd, started = [EvPopen cmd])) ∧
  fresh (w_fs (exec (main_after_sleep true now) w)).
Proof.
  intros Hclaim%may_claim_claims Hc. split_and!.
  - intros w0. eexists. rewrite cleanup_run. split_and!; [done..|].
    apply cleaned_fresh.
  - eexists. split.
    + eapply events_of_app; [by apply main_after_sleep_lead|done].
    + unfold launch_events. case_decide; eauto.
  - unfold exec. rewrite (main_after_sleep_lead _ _ _ Hclaim Hc).
    apply cleaned_fresh.
Qed.

(** C5, amended. The leader always completes with the three session files
    removed. It starts the merge engine, once and without waiting for it,
    with [pyw.exe], the merge script and the resolved list as its command,
    exactly when the resolved list is not empty and both
    [C:\WINDOWS\pyw.exe] and [merge_pdfs.py] exist; in every other case
    nothing is started. *)
Theorem launch_when_possible `{Platform} (now : Z) (w : world) (content : string) :
  may_claim now (w_fs w) →
  w_fs w !! collection get_session_files = Some (Text content) →
  let unique := resolve (claimed_fs (w_fs w)) content in
  (main_after_sleep true now w).1 = Normal tt ∧
  w_fs (exec (main_after_sleep true now) w) = cleaned_fs (w_fs w) ∧
  fresh (w_fs (exec (main_after_sleep true now) w)) ∧
  popens (events_of (main_after_sleep true now) w) =
    if decide (unique ≠ [] ∧ is_Some (w_fs w !! pyw_exe) ∧
               is_Some (w_fs w !! merge_script))
    then [([pyw_exe; merge_script] ++ unique)%list] else [].
Proof.
  intros Hclaim%may_claim_claims Hc unique.
  pose proof (main_after_sleep_lead _ _ _ Hclaim Hc) as Hrun.
  unfold exec. rewrite Hrun. split_and!; try done.
  - apply cleaned_fresh.
  - erewrite events_of_app; [|exact Hrun|done].
    unfold popens. rewrite !omap_app. apply popens_launch.
Qed.

(** C6, amended. A lock that cannot be obtained ends [main] silently and
    that critical section does nothing. When it is the first lock, the run
    leaves the world as it was. When it is the second, the registration of
    the first critical section stays: its three events are all the run
    does, and nothing is started. *)
Theorem lock_timeout_effects `{Platform} (argv : list string) (prog path : string)
    (t1 t2 : Z) (acq2 : bool) (w : world) :
  is_Some (w_fs w !! path) →
  exec (main argv false t1 acq2 t2) w = w ∧
  (∀ e, (main argv false t1 acq2 t2 w).1 ≠ Raised e) ∧
  main_after_sleep false t2 w = (Normal tt, w) ∧
  main [prog; path] true t1 false t2 w =
    (Normal tt, {| w_fs := registered_fs path t1 (w_fs w);
                   w_trace := w_trace w ++ registration_events (path, t1) |}) ∧
  popens (events_of (main [prog; path] true t1 false t2) w) = [].
Proof.
  intros Hex.
  assert (main [prog; path] true t1 false t2 w =
    (Normal tt, {| w_fs := registered_fs path t1 (w_fs w);
                   w_trace := w_trace w ++ registration_events (path, t1) |})) as Hrun.
  { rewrite main_split, main_before_sleep_registers by done. done. }
  split_and!; try done.
  - unfold exec. rewrite main_split.
    destruct argv as [|prog' [|path' argv]]; try done.
    unfold main_before_sleep, bind, exists_, gets.
    by destruct (bool_decide (is_Some (w_fs w !! path'))).
  - intros e. rewrite main_split.
    destruct argv as [|prog' [|path' argv]]; try done.
    unfold main_before_sleep, bind, exists_, gets.
    by destruct (bool_decide (is_Some (w_fs w !! path'))).
  - by erewrite events_of_app; [|exact Hrun|done].
Qed.


(** C8, amended. [main] checks that its path exists before it registers.
    A path that does not exist at invocation is not registered: [main]
    returns with the world as it found it. A path that does exist is
    registered as soon as the process obtains the lock: its line is added
    to the collection and the three events of the registration are the
    first events of the run; when the lock is not obtained, nothing is
    registered. The leader checks the path again: every resolved path
    exists at resolution. *)
Theorem unregistered_when_missing `{Platform} (prog path : string) (acq1 acq2 : bool)
    (t1 t2 : Z) (w : world) :
  (w_fs w !! path = None →
   main [prog; path] acq1 t1 acq2 t2 w = (Returned, w) ∧
   main_before_sleep [prog; path] acq1 t1 w = (Returned, w)) ∧
  (is_Some (w_fs w !! path) →
   let files := get_session_files in
   let w1 := exec (main_before_sleep [prog; path] true t1) w in
   w_fs w1 !! collection files =
     Some (append_data (path +:+ String "010" "") (w_fs w !! collection files)) ∧
   events_of (main_before_sleep [prog; path] true t1) w =
     registration_events (path, t1) ∧
   (∃ rest, events_of (main [prog; path] true t1 acq2 t2) w =
            (registration_events (path, t1) ++ rest)%list) ∧
   main [prog; path] false t1 acq2 t2 w = (Normal tt, w)) ∧
  (∀ (fs : gmap string file_data) content x,
     x ∈ resolve fs content → is_Some (fs !! x)).
Proof.
  split_and!.
  - intros Hmissing.
    pose proof (main_before_sleep_missing prog path acq1 t1 w Hmissing) as Hrun.
    split; [|done]. by rewrite main_split, Hrun.
  - intros Hex files w1.
    pose proof (main_before_sleep_registers prog path t1 w Hex) as Hrun.
    subst w1 files. unfold exec at 1. rewrite Hrun. cbn [snd w_fs].
    split_and!.
    + apply registered_fs_collection.
    + by erewrite events_of_app; [|exact Hrun|done].
    + unfold events_of, exec. rewrite main_split, Hrun.
      destruct (main_after_sleep_extends acq2 t2
        {| w_fs := registered_fs path t1 (w_fs w);
           w_trace := w_trace w ++ registration_events (path, t1) |})
        as (evs & Hevs).
      unfold exec in Hevs. rewrite Hevs. cbn [w_trace].
      exists evs. by rewrite <-app_assoc, drop_app_length.
    + rewrite main_split. unfold main_before_sleep, bind, exists_, gets.
      by rewrite bool_decide_eq_true_2.
  - intros fs content x. rewrite elem_of_resolve. tauto.
Qed.

(** C9. When the leader has written its flag and cannot read the collection
    file (it is missing or is no UTF-8 text), [main] returns from the inner
    [except]: the flag is there, the collection and the timestamp are as
    they were, the flag write is the only event and nothing is started.
    Every later leadership check abstains on this store; the next
    registration removes the flag. *)
Theorem leader_stuck_on_unreadable `{Platform} (now : Z) (w : world) :
  may_claim now (w_fs w) →
  (∀ content, w_fs w !! collection get_session_files ≠ Some (Text content)) →
  let files := get_session_files in
  let w' := exec (main_after_sleep true now) w in
  main_after_sleep true now w = (Returned, w') ∧
  w_fs w' !! launcher_flag files = Some (Text "1") ∧
  w_fs w' !! collection files = w_fs w !! collection files ∧
  w_fs w' !! timestamp files = w_fs w !! timestamp files ∧
  events_of (main_after_sleep true now) w = [EvWrite (launcher_flag files) "1"] ∧
  popens (events_of (main_after_sleep true now) w) = [] ∧
  (∀ t, main_after_sleep true t w' = (Returned, w')) ∧
  (∀ path t, registered_fs path t (w_fs w') !! launcher_flag files = None).
Proof.
  intros Hclaim%may_claim_claims Hbad files w'.
  pose proof (main_after_sleep_stuck now w Hclaim Hbad) as Hrun.
  subst w' files. unfold exec. rewrite Hrun. cbn [snd w_fs].
  assert (events_of (main_after_sleep true now) w =
          [EvWrite (launcher_flag get_session_files) "1"]) as Hevs.
  { by erewrite events_of_app; [|exact Hrun|done]. }
  rewrite Hevs. split_and!; try done.
  - unfold claimed_fs. by rewrite lookup_insert_eq.
  - apply claimed_fs_frame, collection_ne_flag.
  - apply claimed_fs_frame, timestamp_ne_flag.
  - intros t. apply main_after_sleep_abstain. apply claimed_no_claim.
  - intros path t. apply registered_fs_flag.
Qed.

(** C10. Once the leader has cleaned up, the leader flag is absent and so is
    the timestamp file: reading the last-update time raises, and every
    leadership check abstains with the world unchanged. However many checks
    and outside changes follow before the next registration, no event is
    added: the wave has no second launch. *)
Theorem no_second_launch `{Platform} (now : Z) (w : world) (content : string) :
  may_claim now (w_fs w) →
  w_fs w !! collection get_session_files = Some (Text content) →
  let files := get_session_files in
  let w' := exec (main_after_sleep true now) w in
  w_fs w' !! launcher_flag files = None ∧
  w_fs w' !! timestamp files = None ∧
  read_last_time w' = (Raised FileNotFoundError, w') ∧
  (∀ t, main_after_sleep true t w' = (Returned, w')) ∧
  (∀ sched s s',
     sys_world s = w' → registered sched = [] → run sched s = Some s' →
     w_trace (sys_world s') = w_trace w' ∧
     popens (w_trace (sys_world s')) = popens (w_trace w') ∧
     fresh (w_fs (sys_world s'))).
Proof.
  intros Hclaim%may_claim_claims Hc files w'.
  assert (fresh (w_fs w')) as Hfresh.
  { subst w'. unfold exec. rewrite (main_after_sleep_lead _ _ _ Hclaim Hc).
    apply cleaned_fresh. }
  assert (w_fs w' !! timestamp files = None) as Hts
    by apply (fresh_lookup _ _ Hfresh), timestamp_in_session.
  split_and!.
  - by apply (fresh_lookup _ _ Hfresh), flag_in_session.
  - done.
  - rewrite read_last_time_run. unfold last_update_time.
    fold files. by rewrite Hts.
  - intros t. by apply main_after_sleep_abstain, fresh_no_claim.
  - intros sched s s' Hs Hreg Hrun. rewrite <-Hs in Hfresh.
    destruct (fresh_run _ _ _ Hfresh Hreg Hrun) as [Hfresh' Htr].
    rewrite Htr, Hs. done.
Qed.

(** C1, amended. Processes register in a fresh store, less than 0.5 s apart.
    Whatever the locks do, at most one process ever writes the leader flag
    and the merge engine is started at most once: the trace is the
    registrations followed by nothing or by the events of one leader.
    When every leadership check obtains its lock and all processes have
    finished, exactly one process is the leader: at one leadership check
    it writes the flag, and it finds the collection of all registered
    paths. It starts the merge engine once, with the resolved list of that
    collection, when this list is not empty and [pyw.exe] and the merge
    script exist, and not at all otherwise. The resolved list has no
    duplicates; for plain paths it holds exactly the registered paths that
    exist at the leader's check. No session file is left. *)
Theorem one_wave_one_leader `{Platform} (s0 s : system) (sched : list action) :
  float_round_trip →
  fresh (w_fs (sys_world s0)) →
  sys_sleeping s0 = ∅ →
  run sched s0 = Some s →
  one_wave sched →
  let regs := registered sched in
  (∃ led,
     w_trace (sys_world s) = (w_trace (sys_world s0) ++ wave_events regs ++ led)%list ∧
     (led = [] ∨ ∃ fs1, led = leader_events fs1 regs) ∧
     (length (filter writes_flag (wave_events regs ++ led)%list) ≤ 1)%nat ∧
     (length (popens (wave_events regs ++ led)%list) ≤ 1)%nat) ∧
  (Forall lock_granted sched → regs ≠ [] → sys_sleeping s = ∅ →
   ∃ pre pid t post s1,
     sched = (pre ++ Elect pid true t :: post)%list ∧
     run pre s0 = Some s1 ∧
     registered pre = regs ∧
     let fs1 := w_fs (sys_world s1) in
     let unique := resolve (claimed_fs fs1) (collection_text regs.*1) in
     let evs := (wave_events regs ++ leader_events fs1 regs)%list in
     fs1 !! collection get_session_files = Some (Text (collection_text regs.*1)) ∧
     w_trace (sys_world s) = (w_trace (sys_world s0) ++ evs)%list ∧
     filter writes_flag evs = [EvWrite (launcher_flag get_session_files) "1"] ∧
     popens evs =
       (if decide (unique ≠ [] ∧ is_Some (fs1 !! pyw_exe) ∧
                   is_Some (fs1 !! merge_script))
        then [([pyw_exe; merge_script] ++ unique)%list] else []) ∧
     fresh (w_fs (sys_world s)) ∧
     NoDup unique ∧
     (Forall plain_path regs.*1 →
      ∀ x, x ∈ unique ↔ x ∈ regs.*1 ∧ is_Some (claimed_fs fs1 !! x))).
Proof.
  intros Hfloat Hfresh Hnone Hrun Hwave regs. subst regs. split.
  - destruct (wave_invariant Hfloat false s0 sched s Hfresh Hnone Hrun) as
      [(_ & Htr & _)|(pre & pid & t & post & s1 & -> & _ & Hpost & _ & Hdec)];
      [done..| |].
    + exists []. rewrite !app_nil_r. split_and!; [done|by left|..].
      * rewrite filter_writes_flag_wave. simpl. lia.
      * rewrite popens_wave. simpl. lia.
    + assert (registered (pre ++ Elect pid true t :: post) = registered pre) as ->.
      { rewrite registered_app.
        change (Elect pid true t :: post) with ([Elect pid true t] ++ post)%list.
        rewrite registered_app, Hpost. by rewrite !app_nil_r. }
      destruct Hdec as (_ & Htr & _).
      exists (leader_events (w_fs (sys_world s1)) (registered pre)).
      split_and!; [done|by eauto|..].
      * rewrite filter_app, filter_writes_flag_wave, filter_writes_flag_leader.
        simpl. lia.
      * unfold popens at 1. rewrite omap_app.
        fold (popens (wave_events (registered pre))). rewrite popens_wave. cbn [app].
        fold (popens (leader_events (w_fs (sys_world s1)) (registered pre))).
        rewrite popens_leader, popens_launch. case_decide; simpl; lia.
  - intros Hlocks Hregs Hdone.
    destruct (wave_invariant Hfloat true s0 sched s Hfresh Hnone Hrun) as
      [(_ & _ & Hlast)|(pre & pid & t & post & s1 & -> & Hpre & Hpost & Hcoll & Hdec)];
      [done..| |].
    { destruct (last (registered sched)) as [r|] eqn:Hr.
      - destruct Hlast as (_ & _ & Hasleep).
        destruct (Hasleep eq_refl) as [pid Hpid]. by rewrite Hdone in Hpid.
      - by apply last_None in Hr. }
    assert (registered (pre ++ Elect pid true t :: post) = registered pre) as Hsame.
    { rewrite registered_app.
      change (Elect pid true t :: post) with ([Elect pid true t] ++ post)%list.
      rewrite registered_app, Hpost. by rewrite !app_nil_r. }
    rewrite Hsame in *.
    exists pre, pid, t, post, s1. split_and!; try done.
    cbv zeta. destruct Hdec as (Hfresh' & Htr & _).
    destruct Hcoll as (_ & _ & Hlast).
    destruct (last (registered pre)) as [r|] eqn:Hr;
      [|by apply last_None in Hr].
    destruct Hlast as (Hc & _ & _).
    split_and!; try done.
    + rewrite filter_app, filter_writes_flag_wave, filter_writes_flag_leader. done.
    + unfold popens at 1. rewrite omap_app.
      fold (popens (wave_events (registered pre))).
      rewrite popens_wave. cbn [app].
      fold (popens (leader_events (w_fs (sys_world s1)) (registered pre))).
      rewrite popens_leader. apply popens_launch.
    + apply NoDup_resolve.
    + intros Hplain x. rewrite elem_of_resolve.
      by rewrite snapshot_collection_text.
Qed.

(** * The claims on the concrete host *)

Section Concrete.
#[local] Existing Instance windows_host.
Import Scenario Corner.

Ltac evaluate := vm_compute; repeat first [reflexivity | exact I | constructor | eexists].

Lemma one_wave_one_leader_witness :
  let s0 := boot sel_fs in
  let s := after three_files s0 in
  let regs := registered three_files in
  (float_round_trip ∧ fresh (w_fs (sys_world s0)) ∧ sys_sleeping s0 = ∅ ∧
   run three_files s0 = Some s ∧ one_wave three_files ∧
   Forall lock_granted three_files ∧ regs ≠ [] ∧ sys_sleeping s = ∅) ∧
  (∃ led,
     w_trace (sys_world s) = (w_trace (sys_world s0) ++ wave_events regs ++ led)%list ∧
     (led = [] ∨ ∃ fs1, led = leader_events fs1 regs) ∧
     (length (filter writes_flag (wave_events regs ++ led)%list) ≤ 1)%nat ∧
     (length (popens (wave_events regs ++ led)%list) ≤ 1)%nat) ∧
  ∃ pre pid t post s1,
    three_files = (pre ++ Elect pid true t :: post)%list ∧
    run pre s0 = Some s1 ∧
    registered pre = regs ∧
    let fs1 := w_fs (sys_world s1) in
    let unique := resolve (claimed_fs fs1) (collection_text regs.*1) in
    let evs := (wave_events regs ++ leader_events fs1 regs)%list in
    fs1 !! collection get_session_files = Some (Text (collection_text regs.*1)) ∧
    w_trace (sys_world s) = (w_trace (sys_world s0) ++ evs)%list ∧
    filter writes_flag evs = [EvWrite (launcher_flag get_session_files) "1"] ∧
    popens evs =
      (if decide (unique ≠ [] ∧ is_Some (fs1 !! pyw_exe) ∧
                  is_Some (fs1 !! merge_script))
       then [([pyw_exe; merge_script] ++ unique)%list] else []) ∧
    fresh (w_fs (sys_world s)) ∧
    NoDup unique ∧
    (Forall plain_path regs.*1 →
     ∀ x, x ∈ unique ↔ x ∈ regs.*1 ∧ is_Some (claimed_fs fs1 !! x)).
Proof.
  intros s0 s regs.
  assert (float_round_trip) as H1 by exact decimal_round_trip.
  assert (fresh (w_fs (sys_world s0))) as H2 by evaluate.
  assert (sys_sleeping s0 = ∅) as H3 by reflexivity.
  assert (run three_files s0 = Some s) as H4 by (vm_compute; reflexivity).
  assert (one_wave three_files) as H5 by (apply one_wave_Forall; evaluate).
  assert (Forall lock_granted three_files) as H6 by evaluate.
  assert (regs ≠ []) as H7 by discriminate.
  assert (sys_sleeping s = ∅) as H8 by (vm_compute; reflexivity).
  split; [exact (conj H1 (conj H2 (conj H3 (conj H4 (conj H5 (conj H6 (conj H7 H8)))))))|].
  destruct (one_wave_one_leader s0 s three_files H1 H2 H3 H4 H5) as [Hmost Hone].
  exact (conj Hmost (Hone H6 H7 H8)).
Defined.

(** C1 as stated fails. In a wave of one process whose document is deleted
    while it sleeps, that process becomes the leader and nothing is
    launched. In a wave of two where one document is deleted, the launch
    carries one path, not the two that were registered. In a wave of one
    process that does not obtain its second lock, nobody becomes leader. *)
Lemma wave_without_full_launch :
  let s1 := after vanished (boot sel_fs) in
  let s2 := after one_left (boot sel_fs) in
  let s3 := after timed_out (boot sel_fs) in
  (run vanished (boot sel_fs) = Some s1 ∧ sys_sleeping s1 = ∅ ∧
   registered vanished = [(report, 0)] ∧
   filter writes_flag (w_trace (sys_world s1)) =
     [EvWrite (launcher_flag get_session_files) "1"] ∧
   popens (w_trace (sys_world s1)) = []) ∧
  (run one_left (boot sel_fs) = Some s2 ∧ sys_sleeping s2 = ∅ ∧
   registered one_left = [(report, 0); (cover, 20)] ∧
   popens (w_trace (sys_world s2)) = [[pyw_exe; merge_script; cover]]) ∧
  (run timed_out (boot sel_fs) = Some s3 ∧ sys_sleeping s3 = ∅ ∧
   registered timed_out = [(report, 0)] ∧
   filter writes_flag (w_trace (sys_world s3)) = [] ∧
   popens (w_trace (sys_world s3)) = []).
Proof. vm_compute. repeat split. Qed.

Ltac claimable t0 :=
  split; [vm_compute; reflexivity
         | exists t0; split; [vm_compute; reflexivity | lia]].

Lemma resolve_filter_dedup_sort_witness :
  let content := collection_text [beta; alpha; gamma; beta; "C:\gone.pdf"] in
  (lower_on_ascii ∧ "C:\y" ≠ "" ∧ "C:\x" ≠ "" ∧
   file_name "a.pdf" ∧ file_name "C.pdf" ∧
   resolve nested_fs content !! 0%nat = Some (PyPath.joinpath "C:\y" "a.pdf") ∧
   resolve nested_fs content !! 2%nat = Some (PyPath.joinpath "C:\x" "C.pdf")) ∧
  sort_key (PyPath.joinpath "C:\x" "C.pdf") = str_lower "C.pdf" ∧
  String.le (str_lower "a.pdf") (str_lower "C.pdf") ∧
  resolve (list_to_map [("b.pdf", Text ""); ("a.pdf", Text ""); ("c.pdf", Text "")])
          (collection_text ["b.pdf"; "a.pdf"; "c.pdf"]) =
    ["a.pdf"; "b.pdf"; "c.pdf"] ∧
  resolve (list_to_map [("C:\z\b.pdf", Text ""); ("C:\y\a.pdf", Text "");
                        ("C:\x\C.pdf", Text "")])
          (collection_text ["C:\z\b.pdf"; "C:\y\a.pdf"; "C:\x\C.pdf";
                            "C:\z\b.pdf"; "C:\gone.pdf"]) =
    ["C:\y\a.pdf"; "C:\z\b.pdf"; "C:\x\C.pdf"].
Proof.
  intros content.
  assert (lower_on_ascii) as H1 by exact latin1_lower_on_ascii.
  assert ("C:\y" ≠ "") as H2 by discriminate.
  assert ("C:\x" ≠ "") as H3 by discriminate.
  assert (file_name "a.pdf") as H4
    by (split; [discriminate|split; [discriminate|reflexivity]]).
  assert (file_name "C.pdf") as H5
    by (split; [discriminate|split; [discriminate|reflexivity]]).
  assert (resolve nested_fs content !! 0%nat =
          Some (PyPath.joinpath "C:\y" "a.pdf")) as H6 by (vm_compute; reflexivity).
  assert (resolve nested_fs content !! 2%nat =
          Some (PyPath.joinpath "C:\x" "C.pdf")) as H7 by (vm_compute; reflexivity).
  assert (0 ≤ 2)%nat as Hle by lia.
  destruct (resolve_filter_dedup_sort nested_fs content)
    as (_ & _ & _ & _ & _ & Hkey & Hnames & Hex).
  destruct (Hex H1) as (_ & Ha & Hb).
  exact (conj (conj H1 (conj H2 (conj H3 (conj H4 (conj H5 (conj H6 H7))))))
          (conj (Hkey _ _ H3 H5)
            (conj (Hnames _ _ _ _ _ _ Hle H6 H7 H2 H3 H4 H5) (conj Ha Hb)))).
Defined.

(** On the concrete host the capital letters of Latin-1 have their small
    letters: [ärger.pdf] comes before [Übersicht.pdf], in whichever order
    the two were registered, as it does for [str.lower]. *)
Lemma latin1_names_in_order :
  str_lower "Übersicht.pdf" = "übersicht.pdf" ∧
  resolve latin_fs (collection_text [uebersicht; aerger]) = [aerger; uebersicht] ∧
  resolve latin_fs (collection_text [aerger; uebersicht]) = [aerger; uebersicht].
Proof. vm_compute. repeat split. Qed.


Lemma cleanup_before_launch_witness :
  let w := registered_world in
  (may_claim 600 (w_fs w) ∧
   w_fs w !! collection get_session_files = Some (Text report_line)) ∧
  (∀ w0, ∃ w1, cleanup w0 = (Normal tt, w1) ∧
               w_trace w1 = (w_trace w0 ++ cleanup_events)%list ∧
               fresh (w_fs w1)) ∧
  (∃ started,
     events_of (main_after_sleep true 600) w =
       ([EvWrite (launcher_flag get_session_files) "1"] ++ cleanup_events ++ started)%list ∧
     (started = [] ∨ ∃ cmd, started = [EvPopen cmd])) ∧
  fresh (w_fs (exec (main_after_sleep true 600) w)).
Proof.
  intros w.
  assert (may_claim 600 (w_fs w)) as H1 by claimable 0.
  assert (w_fs w !! collection get_session_files = Some (Text report_line)) as H2
    by (vm_compute; reflexivity).
  split; [exact (conj H1 H2)|].
  exact (cleanup_before_launch 600 w report_line H1 H2).
Defined.

Lemma launch_when_possible_witness :
  let w := registered_world in
  let unique := resolve (claimed_fs (w_fs w)) report_line in
  (may_claim 600 (w_fs w) ∧
   w_fs w !! collection get_session_files = Some (Text report_line)) ∧
  (main_after_sleep true 600 w).1 = Normal tt ∧
  w_fs (exec (main_after_sleep true 600) w) = cleaned_fs (w_fs w) ∧
  fresh (w_fs (exec (main_after_sleep true 600) w)) ∧
  popens (events_of (main_after_sleep true 600) w) =
    if decide (unique ≠ [] ∧ is_Some (w_fs w !! pyw_exe) ∧
               is_Some (w_fs w !! merge_script))
    then [([pyw_exe; merge_script] ++ unique)%list] else [].
Proof.
  intros w unique.
  assert (may_claim 600 (w_fs w)) as H1 by claimable 0.
  assert (w_fs w !! collection get_session_files = Some (Text report_line)) as H2
    by (vm_compute; reflexivity).
  split; [exact (conj H1 H2)|].
  exact (launch_when_possible 600 w report_line H1 H2).
Defined.

(** C5 as stated fails: on a host without [C:\WINDOWS\pyw.exe] the leader
    resolves a list that is not empty, clears the state, and starts
    nothing. *)
Lemma no_launch_without_pyw :
  let w := registered_no_pyw in
  may_claim 600 (w_fs w) ∧
  w_fs w !! collection get_session_files = Some (Text report_line) ∧
  resolve (claimed_fs (w_fs w)) report_line = [report] ∧
  (main_after_sleep true 600 w).1 = Normal tt ∧
  fresh (w_fs (exec (main_after_sleep true 600) w)) ∧
  popens (events_of (main_after_sleep true 600) w) = [].
Proof.
  intros w. split; [claimable 0|]. vm_compute. repeat split; repeat constructor.
Qed.

Lemma lock_timeout_effects_witness :
  let argv := ["merge_pdf_handler.py"; report] in
  let w := start sel_fs in
  is_Some (w_fs w !! report) ∧
  exec (main argv false 0 true 600) w = w ∧
  (∀ e, (main argv false 0 true 600 w).1 ≠ Raised e) ∧
  main_after_sleep false 600 w = (Normal tt, w) ∧
  main ["merge_pdf_handler.py"; report] true 0 false 600 w =
    (Normal tt, {| w_fs := registered_fs report 0 (w_fs w);
                   w_trace := w_trace w ++ registration_events (report, 0) |}) ∧
  popens (events_of (main ["merge_pdf_handler.py"; report] true 0 false 600) w) = [].
Proof.
  intros argv w.
  assert (is_Some (w_fs w !! report)) as H1 by evaluate.
  split; [exact H1|].
  exact (lock_timeout_effects argv "merge_pdf_handler.py" report 0 600 true w H1).
Defined.

(** C6 as stated fails: a process that obtains the first lock and not the
    second has made the three writes of its registration, and they stay. *)
Lemma timeout_after_registration_has_written :
  let run := main ["merge_pdf_handler.py"; report] true 0 false 600 in
  events_of run (start sel_fs) = registration_events (report, 0) ∧
  w_fs (exec run (start sel_fs)) !! collection get_session_files =
    Some (Text report_line) ∧
  w_fs (exec run (start sel_fs)) !! timestamp get_session_files = Some (Text "0").
Proof. vm_compute. repeat split. Qed.



Lemma unregistered_when_missing_witness :
  let prog := "merge_pdf_handler.py" in
  let w := start sel_fs in
  let files := get_session_files in
  let w1 := exec (main_before_sleep [prog; report] true 0) w in
  (w_fs w !! missing = None ∧ is_Some (w_fs w !! report)) ∧
  (main [prog; missing] true 0 true 600 w = (Returned, w) ∧
   main_before_sleep [prog; missing] true 0 w = (Returned, w)) ∧
  (w_fs w1 !! collection files =
     Some (append_data (report +:+ String "010" "") (w_fs w !! collection files)) ∧
   events_of (main_before_sleep [prog; report] true 0) w =
     registration_events (report, 0) ∧
   (∃ rest, events_of (main [prog; report] true 0 true 600) w =
            (registration_events (report, 0) ++ rest)%list) ∧
   main [prog; report] false 0 true 600 w = (Normal tt, w)).
Proof.
  intros prog w files w1.
  assert (w_fs w !! missing = None) as H1 by (vm_compute; reflexivity).
  assert (is_Some (w_fs w !! report)) as H2 by evaluate.
  destruct (unregistered_when_missing prog missing true true 0 600 w) as (Hno & _ & _).
  destruct (unregistered_when_missing prog report true true 0 600 w) as (_ & Hyes & _).
  exact (conj (conj H1 H2) (conj (Hno H1) (Hyes H2))).
Defined.

(** C8 as stated fails: a process started on a path that does not exist
    returns at line 27; nothing is appended to the collection, which does
    not even come to exist. *)
Lemma missing_path_is_not_registered :
  let run := main ["merge_pdf_handler.py"; missing] true 0 true 600 in
  sel_fs !! missing = None ∧
  run (start sel_fs) = (Returned, start sel_fs) ∧
  events_of run (start sel_fs) = [] ∧
  w_fs (exec run (start sel_fs)) !! collection get_session_files = None.
Proof. vm_compute. repeat split. Qed.

Lemma leader_stuck_on_unreadable_witness :
  let w := garbled_world in
  let files := get_session_files in
  let w' := exec (main_after_sleep true 600) w in
  (may_claim 600 (w_fs w) ∧
   (∀ content, w_fs w !! collection get_session_files ≠ Some (Text content))) ∧
  main_after_sleep true 600 w = (Returned, w') ∧
  w_fs w' !! launcher_flag files = Some (Text "1") ∧
  w_fs w' !! collection files = w_fs w !! collection files ∧
  w_fs w' !! timestamp files = w_fs w !! timestamp files ∧
  events_of (main_after_sleep true 600) w = [EvWrite (launcher_flag files) "1"] ∧
  popens (events_of (main_after_sleep true 600) w) = [] ∧
  (∀ t, main_after_sleep true t w' = (Returned, w')) ∧
  (∀ path t, registered_fs path t (w_fs w') !! launcher_flag files = None).
Proof.
  intros w files w'.
  assert (may_claim 600 (w_fs w)) as H1 by claimable 0.
  assert (∀ content, w_fs w !! collection get_session_files ≠ Some (Text content))
    as H2 by (intros content; vm_compute; intros [=]).
  split; [exact (conj H1 H2)|].
  exact (leader_stuck_on_unreadable 600 w H1 H2).
Defined.

Lemma no_second_launch_witness :
  let w := registered_world in
  let files := get_session_files in
  let w' := exec (main_after_sleep true 600) w in
  (may_claim 600 (w_fs w) ∧
   w_fs w !! collection get_session_files = Some (Text report_line)) ∧
  w_fs w' !! launcher_flag files = None ∧
  w_fs w' !! timestamp files = None ∧
  read_last_time w' = (Raised FileNotFoundError, w') ∧
  (∀ t, main_after_sleep true t w' = (Returned, w')) ∧
  (∀ sched s s',
     sys_world s = w' → registered sched = [] → run sched s = Some s' →
     w_trace (sys_world s') = w_trace w' ∧
     popens (w_trace (sys_world s')) = popens (w_trace w') ∧
     fresh (w_fs (sys_world s'))).
Proof.
  intros w files w'.
  assert (may_claim 600 (w_fs w)) as H1 by claimable 0.
  assert (w_fs w !! collection get_session_files = Some (Text report_line)) as H2
    by (vm_compute; reflexivity).
  split; [exact (conj H1 H2)|].
  exact (no_second_launch 600 w report_line H1 H2).
Defined.

End Concrete.

(** * More of the handler *)

Section HandlerMore.
Context `{Platform}.

Local Opaque get_session_files pyw_exe merge_script.

(** The four ways the part of [main] after the sleep can end. *)
Lemma main_after_sleep_cases acq now w :
  main_after_sleep acq now w = (Normal tt, w) ∨
  main_after_sleep acq now w = (Returned, w) ∨
  main_after_sleep acq now w =
    (Returned, {| w_fs := claimed_fs (w_fs w);
                  w_trace := w_trace w ++ [EvWrite (launcher_flag get_session_files) "1"] |}) ∨
  ∃ content,
    w_fs w !! collection get_session_files = Some (Text content) ∧
    main_after_sleep acq now w =
    (Normal tt,
     {| w_fs := cleaned_fs (w_fs w);
        w_trace := w_trace w ++
          [EvWrite (launcher_flag get_session_files) "1"] ++ cleanup_events ++
          launch_events (w_fs w) (resolve (claimed_fs (w_fs w)) content) |}).
Proof.
  destruct acq; [|by left].
  destruct (claims_dec now (w_fs w)) as [Hyes|Hno];
    [|right; left; by apply main_after_sleep_abstain].
  destruct (w_fs w !! collection get_session_files) as [[content|]|] eqn:Hc.
  - do 3 right. exists content. split; [done|]. by apply main_after_sleep_lead.
  - do 2 right. left. apply main_after_sleep_stuck; [done|]. by rewrite Hc.
  - do 2 right. left. apply main_after_sleep_stuck; [done|]. by rewrite Hc.
Qed.

(** The three ways the part before the sleep can end. *)
Lemma main_before_sleep_cases argv acq t w :
  main_before_sleep argv acq t w = (Returned, w) ∨
  (acq = false ∧ main_before_sleep argv acq t w = (Normal tt, w)) ∨
  ∃ prog path rest,
    argv = prog :: path :: rest ∧ acq = true ∧ is_Some (w_fs w !! path) ∧
    main_before_sleep argv acq t w =
    (Normal tt, {| w_fs := registered_fs path t (w_fs w);
                   w_trace := w_trace w ++ registration_events (path, t) |}).
Proof.
  destruct argv as [|prog [|path rest]]; [by left..|].
  destruct (w_fs w !! path) as [d|] eqn:Hp; cycle 1.
  { left. unfold main_before_sleep, bind, exists_, gets. rewrite Hp.
    by rewrite bool_decide_eq_false_2 by apply is_Some_None. }
  destruct acq.
  - do 2 right. exists prog, path, rest. split_and!; [done..|].
    unfold main_before_sleep, bind, exists_, gets. rewrite Hp.
    rewrite bool_decide_eq_true_2 by done. cbn [negb].
    unfold guarded, try_except_timeout, with_lock. by rewrite registration_run.
  - right. left. split; [done|].
    unfold main_before_sleep, bind, exists_, gets. rewrite Hp.
    by rewrite bool_decide_eq_true_2 by done.
Qed.

Lemma popens_registration r : popens (registration_events r) = [].
Proof. done. Qed.

Lemma popens_app tr1 tr2 : popens (tr1 ++ tr2) = (popens tr1 ++ popens tr2)%list.
Proof. unfold popens. by rewrite omap_app. Qed.

Lemma popens_leader_events fs content :
  popens ([EvWrite (launcher_flag get_session_files) "1"] ++ cleanup_events ++
          launch_events fs (resolve (claimed_fs fs) content)) =
  popens (launch_events fs (resolve (claimed_fs fs) content)).
Proof. by rewrite !popens_app. Qed.

Lemma lock_outside : lock get_session_files ∉ session_paths.
Proof.
  rewrite session_path_cases.
  intros [Heq|[Heq|Heq]]; apply joinpath_inj in Heq; discriminate.
Qed.

Lemma error_log_outside : error_log ∉ session_paths.
Proof.
  rewrite session_path_cases.
  intros [Heq|[Heq|Heq]]; apply joinpath_inj in Heq; discriminate.
Qed.

Lemma error_log_not_lock : error_log ≠ lock get_session_files.
Proof. intros Heq. apply joinpath_inj in Heq. discriminate. Qed.

Lemma main_after_sleep_frame acq now w k :
  k ∉ session_paths →
  w_fs (exec (main_after_sleep acq now) w) !! k = w_fs w !! k.
Proof.
  intros Hk. unfold exec.
  destruct (main_after_sleep_cases acq now w) as [-> | [-> | [-> | (content & _ & ->)]]];
    cbn [snd w_fs]; try done.
  - apply claimed_fs_frame. intros ->. apply Hk, flag_in_session.
  - by apply cleaned_fs_frame.
Qed.

Lemma main_before_sleep_frame argv acq t w k :
  k ∉ session_paths →
  w_fs (exec (main_before_sleep argv acq t) w) !! k = w_fs w !! k.
Proof.
  intros Hk. unfold exec.
  destruct (main_before_sleep_cases argv acq t w)
    as [-> | [[_ ->] | (prog & path & rest & _ & _ & _ & ->)]]; cbn [snd w_fs]; try done.
  by apply registered_fs_frame.
Qed.

(** The events of a part of [main] are what it adds to the trace. *)
Lemma main_after_sleep_events acq now w :
  w_trace (exec (main_after_sleep acq now) w) =
  (w_trace w ++ events_of (main_after_sleep acq now) w)%list.
Proof.
  unfold events_of, exec.
  destruct (main_after_sleep_cases acq now w) as [-> | [-> | [-> | (content & _ & ->)]]];
    cbn [snd w_trace]; rewrite ?drop_app_length, ?drop_all, ?app_nil_r; done.
Qed.

Lemma main_before_sleep_events argv acq t w :
  w_trace (exec (main_before_sleep argv acq t) w) =
  (w_trace w ++ events_of (main_before_sleep argv acq t) w)%list.
Proof.
  unfold events_of, exec.
  destruct (main_before_sleep_cases argv acq t w)
    as [-> | [[_ ->] | (prog & path & rest & _ & _ & _ & ->)]];
    cbn [snd w_trace]; rewrite ?drop_app_length, ?drop_all, ?app_nil_r; done.
Qed.

Lemma main_before_sleep_popens argv acq t w :
  popens (events_of (main_before_sleep argv acq t) w) = [].
Proof.
  unfold events_of, exec.
  destruct (main_before_sleep_cases argv acq t w)
    as [-> | [[_ ->] | (prog & path & rest & _ & _ & _ & ->)]];
    cbn [snd w_trace]; rewrite ?drop_app_length, ?drop_all; done.
Qed.

(** A whole run is its part before the sleep and, when that part fell
    through with the lock, its part after the sleep. *)
Lemma main_exec argv acq1 t1 acq2 t2 w :
  exec (main argv acq1 t1 acq2 t2) w = exec (main_before_sleep argv acq1 t1) w ∨
  exec (main argv acq1 t1 acq2 t2) w =
    exec (main_after_sleep acq2 t2) (exec (main_before_sleep argv acq1 t1) w).
Proof.
  unfold exec. rewrite main_split.
  destruct (main_before_sleep argv acq1 t1 w) as [[[]| |e] w1]; cbn [snd]; auto.
  destruct acq1; auto.
Qed.

Lemma main_after_sleep_popens acq now w :
  popens (events_of (main_after_sleep acq now) w) = [] ∨
  ∃ content,
    w_fs w !! collection get_session_files = Some (Text content) ∧
    w_fs (exec (main_after_sleep acq now) w) = cleaned_fs (w_fs w) ∧
    popens (events_of (main_after_sleep acq now) w) =
    popens (launch_events (w_fs w) (resolve (claimed_fs (w_fs w)) content)).
Proof.
  unfold events_of, exec.
  destruct (main_after_sleep_cases acq now w) as [-> | [-> | [-> | (content & Hc & ->)]]];
    cbn [snd w_trace w_fs]; rewrite ?drop_app_length, ?drop_all; auto.
  right. exists content. split_and!; [done..|]. apply popens_leader_events.
Qed.

Local Opaque main_before_sleep main_after_sleep.

(** One action on a store whose collection file is not text. *)
Lemma undecodable_step a s s1 :
  w_fs (sys_world s) !! collection get_session_files = Some Undecodable →
  step a s = Some s1 →
  w_fs (sys_world s1) !! collection get_session_files = Some Undecodable ∧
  popens (w_trace (sys_world s1)) = popens (w_trace (sys_world s)).
Proof.
  intros Hbad Hstep.
  destruct a as [pid path t|pid acq t|f]; unfold step in Hstep.
  - case_decide as Hen; [|done]. destruct Hen as (_ & _ & Hex).
    injection Hstep as <-. cbn [sys_world]. unfold exec.
    rewrite main_before_sleep_registers by done. cbn [snd w_fs w_trace].
    rewrite registered_fs_collection, Hbad, popens_app. split; [done|].
    by rewrite popens_registration, app_nil_r.
  - destruct (sys_sleeping s !! pid) as [t0|]; [|done].
    case_decide; [|done]. injection Hstep as <-. cbn [sys_world]. unfold exec.
    destruct (main_after_sleep_cases acq t (sys_world s))
      as [-> | [-> | [-> | (content & Hc & _)]]]; cbn [snd w_fs w_trace]; try done.
    + rewrite claimed_fs_frame by apply collection_ne_flag.
      split; [done|]. by rewrite popens_app, app_nil_r.
    + by rewrite Hbad in Hc.
  - case_decide as Hkeep; [|done]. injection Hstep as <-.
    cbn [sys_world w_fs w_trace]. split; [|done].
    rewrite (keeps_lookup f); [done..|]. apply collection_in_session.
Qed.

End HandlerMore.

(** The handler without failing calls never raises. *)
Lemma main_base_never_raises `{Platform} (argv : list string) (acq1 acq2 : bool)
    (t1 t2 : Z) (w : world) (e : exn) :
  (main argv acq1 t1 acq2 t2 w).1 ≠ Raised e.
Proof.
  rewrite main_split.
  destruct (main_before_sleep_cases argv acq1 t1 w)
    as [-> | [[-> ->] | (prog & path & rest & _ & -> & _ & ->)]]; try done.
  by destruct (main_after_sleep_cases acq2 t2
    {| w_fs := registered_fs path t1 (w_fs w);
       w_trace := w_trace w ++ registration_events (path, t1) |})
    as [-> | [-> | [-> | (content & _ & ->)]]].
Qed.

(** The handler without failing calls changes the session files only. *)
Lemma main_base_frame `{Platform} (argv : list string) (acq1 acq2 : bool)
    (t1 t2 : Z) (w : world) (k : string) :
  k ∉ session_paths →
  w_fs (exec (main argv acq1 t1 acq2 t2) w) !! k = w_fs w !! k.
Proof.
  intros Hk. destruct (main_exec argv acq1 t1 acq2 t2 w) as [-> | ->].
  - by apply main_before_sleep_frame.
  - rewrite main_after_sleep_frame by done. by apply main_before_sleep_frame.
Qed.

(** ** When calls fail *)

Section Failures.
Context `{Platform}.
Variable f : faults.

Lemma confined_mono {A} (S S' : string → Prop) n n' (m : M A) :
  confined S n m → (∀ k, S k → S' k) → (n ≤ n')%nat → confined S' n' m.
Proof.
  intros Hm HS Hn w. destruct (Hm w) as [Hf (evs & Htr & Hp)]. split.
  - intros k Hk. apply Hf. intros HSk. by apply Hk, HS.
  - exists evs. split; [done|lia].
Qed.

(** A block that leaves the world as it is. *)
Lemma confined_same {A} S n (m : M A) : (∀ w, (m w).2 = w) → confined S n m.
Proof.
  intros Hm w. rewrite Hm. split; [done|].
  exists []. rewrite app_nil_r. split; [done|simpl; lia].
Qed.

Lemma confined_bind {A B} S n n' N (m : M A) (k : A → M B) :
  confined S n m → (∀ a, confined S n' (k a)) → (n + n' ≤ N)%nat →
  confined S N (bind m k).
Proof.
  intros Hm Hk HN w. unfold bind.
  destruct (Hm w) as [Hf (evs & Htr & Hp)].
  destruct (m w) as [[a| |e] w1]; simpl in *.
  - destruct (Hk a w1) as [Hf' (evs' & Htr' & Hp')]. split.
    + intros k0 Hk0. by rewrite Hf', Hf.
    + exists (evs ++ evs')%list. rewrite Htr', Htr, app_assoc. split; [done|].
      rewrite popens_app, length_app. lia.
  - split; [done|]. exists evs. split; [done|lia].
  - split; [done|]. exists evs. split; [done|lia].
Qed.

Lemma confined_try_except {A} S n n' N (body handler : M A) :
  confined S n body → confined S n' handler → (n + n' ≤ N)%nat →
  confined S N (try_except body handler).
Proof.
  intros Hm Hh HN w. unfold try_except.
  destruct (Hm w) as [Hf (evs & Htr & Hp)].
  destruct (body w) as [[a| |e] w1]; simpl in *.
  - split; [done|]. exists evs. split; [done|lia].
  - split; [done|]. exists evs. split; [done|lia].
  - destruct (Hh w1) as [Hf' (evs' & Htr' & Hp')]. split.
    + intros k0 Hk0. by rewrite Hf', Hf.
    + exists (evs ++ evs')%list. rewrite Htr', Htr, app_assoc. split; [done|].
      rewrite popens_app, length_app. lia.
Qed.

Lemma try_except_timeout_raised {A} (body on_timeout : M A)
    (on_error : exn → M A) w e w1 :
  body w = (Raised e, w1) →
  try_except_timeout body on_timeout on_error w =
  match e with Timeout => on_timeout | _ => on_error e end w1.
Proof. intros Hb. unfold try_except_timeout. rewrite Hb. by destruct e. Qed.

Lemma confined_try_except_timeout {A} S n n' N (body on_timeout : M A)
    (on_error : exn → M A) :
  confined S n body → confined S n' on_timeout →
  (∀ e, confined S n' (on_error e)) → (n + n' ≤ N)%nat →
  confined S N (try_except_timeout body on_timeout on_error).
Proof.
  intros Hm Ht Hh HN w.
  destruct (Hm w) as [Hf (evs & Htr & Hp)].
  destruct (body w) as [[a| |e] w1] eqn:Hb.
  - unfold try_except_timeout. rewrite Hb. simpl in *.
    split; [done|]. exists evs. split; [done|lia].
  - unfold try_except_timeout. rewrite Hb. simpl in *.
    split; [done|]. exists evs. split; [done|lia].
  - rewrite (try_except_timeout_raised _ _ _ _ _ _ Hb). simpl in *.
    assert (confined S n' match e with Timeout => on_timeout | _ => on_error e end)
      as He by (by destruct e).
    destruct (He w1) as [Hf' (evs' & Htr' & Hp')]. split.
    + intros k0 Hk0. by rewrite Hf', Hf.
    + exists (evs ++ evs')%list. rewrite Htr', Htr, app_assoc. split; [done|].
      rewrite popens_app, length_app. lia.
Qed.

Lemma confined_emit S n e (g : gmap string file_data → gmap string file_data) :
  (∀ fs k, ¬ S k → g fs !! k = fs !! k) → (length (popens [e]) ≤ n)%nat →
  confined S n (emit e g).
Proof.
  intros Hg Hn w. unfold emit. simpl. split; [intros k Hk; by apply Hg|].
  exists [e]. split; [done|exact Hn].
Qed.

(** A call that fails changes at most the file it works on. *)
Lemma confined_may_fail {A} (S : string → Prop) n c (m : M A) :
  (∀ path, target c = Some path → S path) →
  confined S n m → confined S n (Faulty.may_fail f c m).
Proof.
  intros Hc Hm w. unfold Faulty.may_fail.
  destruct (f (w_trace w) c) as [|rest]; [apply Hm|].
  unfold leave. destruct (target c) as [path|]; simpl.
  - split.
    + intros k Hk. apply lookup_partial_alter_ne. intros ->. by apply Hk, Hc.
    + exists []. rewrite app_nil_r. split; [done|simpl; lia].
  - split; [done|]. exists []. rewrite app_nil_r. split; [done|simpl; lia].
Qed.

Lemma confined_exists S n path : confined S n (Faulty.exists_ f path).
Proof. apply confined_may_fail; [done|]. by apply confined_same. Qed.

Lemma confined_gettempdir S n : confined S n (Faulty.gettempdir f).
Proof. apply confined_may_fail; [done|]. by apply confined_same. Qed.

Lemma confined_FileLock S n : confined S n (Faulty.FileLock f).
Proof. apply confined_may_fail; [done|]. by apply confined_same. Qed.

Lemma confined_open_append (S : string → Prop) n path data :
  S path → confined S n (Faulty.open_append f path data).
Proof.
  intros Hp. apply confined_may_fail; [by intros ? [= <-]|].
  apply confined_emit; [|simpl; lia].
  intros fs k Hk. apply lookup_insert_ne. by intros ->.
Qed.

Lemma confined_open_write (S : string → Prop) n path data :
  S path → confined S n (Faulty.open_write f path data).
Proof.
  intros Hp. apply confined_may_fail; [by intros ? [= <-]|].
  apply confined_emit; [|simpl; lia].
  intros fs k Hk. apply lookup_insert_ne. by intros ->.
Qed.

Lemma confined_unlink (S : string → Prop) n path :
  S path → confined S n (Faulty.unlink f path).
Proof.
  intros Hp. apply confined_may_fail; [by intros ? [= <-]|].
  apply confined_emit; [|simpl; lia].
  intros fs k Hk. apply lookup_delete_ne. by intros ->.
Qed.

Lemma confined_open_read S n path : confined S n (Faulty.open_read f path).
Proof.
  apply confined_may_fail; [done|]. apply confined_same. intros w.
  unfold open_read. by destruct (w_fs w !! path) as [[s|]|].
Qed.

Lemma confined_Popen S n cmd : (1 ≤ n)%nat → confined S n (Faulty.Popen f cmd).
Proof.
  intros Hn. apply confined_may_fail; [done|].
  apply confined_emit; [done|simpl; lia].
Qed.

Lemma confined_with_lock {A} S n acquired (body : M A) :
  confined S n body → confined S n (Faulty.with_lock f acquired body).
Proof.
  intros Hb. apply confined_may_fail; [done|]. unfold with_lock.
  destruct acquired; [done|by apply confined_same].
Qed.

Local Opaque get_session_files pyw_exe merge_script error_log.

Lemma confined_registration path t :
  confined (.∈ session_paths) 0 (Faulty.registration f path t).
Proof.
  unfold Faulty.registration.
  apply (confined_bind _ 0 0); [|intros _|lia].
  { apply confined_open_append, collection_in_session. }
  apply (confined_bind _ 0 0); [|intros _|lia].
  { apply confined_open_write, timestamp_in_session. }
  apply confined_unlink, flag_in_session.
Qed.

Lemma confined_read_last_time : confined (.∈ session_paths) 0 (Faulty.read_last_time f).
Proof.
  unfold Faulty.read_last_time.
  apply (confined_bind _ 0 0); [apply confined_open_read| |lia].
  intros s. by destruct (float_of_string (PyStr.strip s)); apply confined_same.
Qed.

Lemma confined_collect_files : confined (.∈ session_paths) 0 (Faulty.collect_files f).
Proof.
  unfold Faulty.collect_files.
  apply (confined_bind _ 0 0); [apply confined_open_read| |lia].
  intros content. apply confined_may_fail; [done|]. by apply confined_same.
Qed.

Lemma confined_cleanup : confined (.∈ session_paths) 0 (Faulty.cleanup f).
Proof.
  unfold Faulty.cleanup.
  apply (confined_bind _ 0 0); [|intros _|lia].
  { apply confined_unlink, collection_in_session. }
  apply (confined_bind _ 0 0); [|intros _|lia].
  { apply confined_unlink, timestamp_in_session. }
  apply confined_unlink, flag_in_session.
Qed.

Lemma confined_launch unique : confined (.∈ session_paths) 1 (Faulty.launch f unique).
Proof.
  unfold Faulty.launch.
  destruct (1 <=? length unique)%nat; [|by apply confined_same].
  apply (confined_bind _ 0 1); [apply confined_exists| |lia].
  intros [|]; [|by apply confined_same].
  apply (confined_bind _ 0 1); [apply confined_exists| |lia].
  intros [|]; [|by apply confined_same].
  by apply confined_Popen.
Qed.

Lemma confined_election now : confined (.∈ session_paths) 1 (Faulty.election f now).
Proof.
  unfold Faulty.election.
  apply (confined_bind _ 0 1); [apply confined_exists| |lia].
  intros [|]; [by apply confined_same|].
  apply (confined_bind _ 0 1); [| |lia].
  { apply (confined_try_except _ 0 0); [apply confined_read_last_time| |lia].
    by apply confined_same. }
  intros last_time.
  destruct (PyFloat.lt_half_second _); [by apply confined_same|].
  apply (confined_bind _ 0 1); [|intros _|lia].
  { apply confined_open_write, flag_in_session. }
  apply (confined_bind _ 0 1); [| |lia].
  { apply (confined_try_except _ 0 0); [apply confined_collect_files| |lia].
    by apply confined_same. }
  intros unique.
  apply (confined_bind _ 0 1); [apply confined_cleanup|intros _|lia].
  apply confined_launch.
Qed.

(** The part of [main] inside the [try]. *)
Lemma confined_body path acq1 t1 acq2 t2 :
  confined (.∈ session_paths) 1
    (Faulty.with_lock f acq1 (Faulty.registration f path t1);;;
     Faulty.with_lock f acq2 (Faulty.election f t2)).
Proof.
  apply (confined_bind _ 0 1); [|intros _|lia].
  - apply confined_with_lock, confined_registration.
  - apply confined_with_lock, confined_election.
Qed.

Lemma confined_log_error e :
  confined (λ k, k = error_log) 0 (Faulty.log_error f e).
Proof.
  unfold Faulty.log_error.
  apply (confined_try_except _ 0 0); [|by apply confined_same|lia].
  apply (confined_bind _ 0 0); [apply confined_gettempdir|intros _|lia].
  by apply confined_open_append.
Qed.

Lemma confined_main argv acq1 t1 acq2 t2 :
  confined (λ k, k ∈ session_paths ∨ k = error_log) 1
    (Faulty.main f argv acq1 t1 acq2 t2).
Proof.
  unfold Faulty.main. destruct argv as [|prog [|path rest]];
    [by apply confined_same..|].
  apply (confined_bind _ 0 1); [apply confined_exists| |lia].
  intros [|]; cbn [negb]; [|by apply confined_same].
  apply (confined_bind _ 0 1); [apply confined_gettempdir|intros _|lia].
  apply (confined_bind _ 0 1); [apply confined_FileLock|intros _|lia].
  unfold Faulty.guarded.
  apply (confined_try_except_timeout _ 1 0); [| | |lia].
  - eapply confined_mono; [apply confined_body|by left|lia].
  - by apply confined_same.
  - intros e. eapply confined_mono; [apply confined_log_error|by right|lia].
Qed.

(** The handler of lines 122-129. *)
Lemma log_error_run e w :
  Faulty.log_error f e w =
  (Normal tt,
   match f (w_trace w) CallTempDir, f (w_trace w) (CallAppend error_log "Error") with
   | Fails _, _ => w
   | Works, Fails rest =>
       {| w_fs := partial_alter (λ _, rest) error_log (w_fs w);
          w_trace := w_trace w |}
   | Works, Works =>
       {| w_fs := <[error_log := append_data "Error" (w_fs w !! error_log)]> (w_fs w);
          w_trace := w_trace w ++ [EvAppend error_log "Error"] |}
   end).
Proof.
  unfold Faulty.log_error, try_except, bind, Faulty.gettempdir,
    Faulty.open_append, Faulty.may_fail.
  destruct (f (w_trace w) CallTempDir); [|done]. cbn [pass ret].
  by destruct (f (w_trace w) (CallAppend error_log "Error")).
Qed.

(** What the handlers of lines 119-129 make of the way the [try] body
    ends. *)
Lemma guarded_run body w :
  Faulty.guarded f body w =
  match body w with
  | (Raised e, w1) =>
      match e with Timeout => (Normal tt, w1) | _ => Faulty.log_error f e w1 end
  | r => r
  end.
Proof.
  unfold Faulty.guarded, try_except_timeout.
  destruct (body w) as [[a| |e] w1]; [done..|]. by destruct e.
Qed.

Lemma guarded_never_raises body w e : (Faulty.guarded f body w).1 ≠ Raised e.
Proof.
  rewrite guarded_run. destruct (body w) as [[a| |e'] w1]; [done..|].
  destruct e'; [done|..]; by rewrite log_error_run.
Qed.

(** [main] up to the [try]. *)
Lemma faulty_main_run prog path rest acq1 t1 acq2 t2 w :
  Faulty.main f (prog :: path :: rest) acq1 t1 acq2 t2 w =
  match f (w_trace w) (CallExists path) with
  | Fails _ => (Raised OSError, w)
  | Works =>
      if bool_decide (is_Some (w_fs w !! path)) then
        match f (w_trace w) CallTempDir, f (w_trace w) CallFileLock with
        | Works, Works =>
            Faulty.guarded f
              (Faulty.with_lock f acq1 (Faulty.registration f path t1);;;
               Faulty.with_lock f acq2 (Faulty.election f t2)) w
        | _, _ => (Raised OSError, w)
        end
      else (Returned, w)
  end.
Proof.
  unfold Faulty.main, bind at 1, Faulty.exists_, Faulty.may_fail at 1.
  destruct (f (w_trace w) (CallExists path)); [|done].
  unfold exists_, gets.
  destruct (bool_decide (is_Some (w_fs w !! path))); cbn [negb]; [|done].
  unfold bind at 1, Faulty.gettempdir, Faulty.may_fail at 1. cbv beta.
  destruct (f (w_trace w) CallTempDir); [|done]. cbn [pass ret].
  unfold bind at 1, Faulty.FileLock, Faulty.may_fail at 1. cbv beta.
  by destruct (f (w_trace w) CallFileLock).
Qed.

Lemma faulty_main_raises argv acq1 t1 acq2 t2 w e :
  (Faulty.main f argv acq1 t1 acq2 t2 w).1 = Raised e →
  e = OSError ∧
  Faulty.main f argv acq1 t1 acq2 t2 w = (Raised OSError, w) ∧
  ∃ prog path rest,
    argv = prog :: path :: rest ∧
    (f (w_trace w) (CallExists path) ≠ Works ∨
     is_Some (w_fs w !! path) ∧
     (f (w_trace w) CallTempDir ≠ Works ∨ f (w_trace w) CallFileLock ≠ Works)).
Proof.
  destruct argv as [|prog [|path rest]]; [done..|].
  rewrite faulty_main_run.
  destruct (f (w_trace w) (CallExists path)) eqn:Hf.
  2:{ intros [= <-]. split; [done|]. split; [done|].
      exists prog, path, rest. split; [done|]. left. by rewrite Hf. }
  case_bool_decide as Hex; [|done].
  destruct (f (w_trace w) CallTempDir) eqn:Hg.
  - destruct (f (w_trace w) CallFileLock) eqn:Hl.
    + intros Hr. by apply guarded_never_raises in Hr.
    + intros [= <-]. split; [done|]. split; [done|].
      exists prog, path, rest. split; [done|]. right. split; [done|]. by right.
  - intros [= <-]. split; [done|]. split; [done|].
    exists prog, path, rest. split; [done|]. right. split; [done|]. by left.
Qed.

End Failures.

(** X1. [main] ends in an exception only when a call of lines 25-30,
    which stand before the [try], fails: the test of its path at line 26,
    the search for the temporary directory at line 29 or the making of
    the lock object at line 30; the files are then as they were. Whatever call fails inside the [try] (the lock,
    opening, writing or removing a file, a test of a path, starting the
    merge engine), [main] ends without an exception: the handlers turn a
    timeout of the lock into a silent end, and any other exception into
    one attempt to append to the error log, whose own failure is ignored.
    With fewer than two arguments [main] returns at once and leaves the
    world as it was. When no call fails, this is the handler of the claims,
    which never raises. *)
Theorem main_never_raises `{Platform} (f : faults) (argv : list string)
    (acq1 acq2 : bool) (t1 t2 : Z) (w : world) :
  (∀ e, (Faulty.main f argv acq1 t1 acq2 t2 w).1 = Raised e →
        e = OSError ∧
        Faulty.main f argv acq1 t1 acq2 t2 w = (Raised OSError, w) ∧
        ∃ prog path rest,
          argv = prog :: path :: rest ∧
          (f (w_trace w) (CallExists path) ≠ Works ∨
           is_Some (w_fs w !! path) ∧
           (f (w_trace w) CallTempDir ≠ Works ∨
            f (w_trace w) CallFileLock ≠ Works))) ∧
  (∀ body w0 e, (Faulty.guarded f body w0).1 ≠ Raised e) ∧
  (∀ body w0 w1, body w0 = (Raised Timeout, w1) →
        Faulty.guarded f body w0 = (Normal tt, w1)) ∧
  (∀ body w0 w1 e, body w0 = (Raised e, w1) → e ≠ Timeout →
        Faulty.guarded f body w0 =
        (Normal tt,
         match f (w_trace w1) CallTempDir,
               f (w_trace w1) (CallAppend error_log "Error") with
         | Fails _, _ => w1
         | Works, Fails rest =>
             {| w_fs := partial_alter (λ _, rest) error_log (w_fs w1);
                w_trace := w_trace w1 |}
         | Works, Works =>
             {| w_fs := <[error_log := append_data "Error" (w_fs w1 !! error_log)]>
                          (w_fs w1);
                w_trace := w_trace w1 ++ [EvAppend error_log "Error"] |}
         end)) ∧
  ((length argv < 2)%nat → Faulty.main f argv acq1 t1 acq2 t2 w = (Returned, w)) ∧
  Faulty.main no_faults argv acq1 t1 acq2 t2 w = main argv acq1 t1 acq2 t2 w ∧
  (∀ e, (main argv acq1 t1 acq2 t2 w).1 ≠ Raised e).
Proof.
  split_and!.
  - intros e. apply faulty_main_raises.
  - intros body w0 e. apply guarded_never_raises.
  - intros body w0 w1 Hbody. by rewrite guarded_run, Hbody.
  - intros body w0 w1 e Hbody He. rewrite guarded_run, Hbody.
    destruct e; [done|..]; apply log_error_run.
  - intros Hlen. destruct argv as [|prog [|path rest]]; try done.
    simpl in Hlen. lia.
  - by destruct argv as [|prog [|path rest]].
  - intros e. apply main_base_never_raises.
Qed.

(** X2. Whatever calls fail, and in whatever state a failing call leaves
    its file, a run of [main] changes no file other than the three session
    files, the error log and the lock file that [filelock] keeps, and
    starts at most one process. The error log is none of the session
    files nor the lock file, and when no call fails it is not changed
    either. *)
Theorem main_touches_session_files_only `{Platform} (f : faults)
    (argv : list string) (acq1 acq2 : bool) (t1 t2 : Z) (w : world) :
  let w' := exec (Faulty.main f argv acq1 t1 acq2 t2) w in
  (∀ k, k ∉ session_paths → k ≠ error_log → k ≠ lock get_session_files →
        w_fs w' !! k = w_fs w !! k) ∧
  (length (popens (events_of (Faulty.main f argv acq1 t1 acq2 t2) w)) ≤ 1)%nat ∧
  (error_log ∉ session_paths) ∧ error_log ≠ lock get_session_files ∧
  w_fs (exec (Faulty.main no_faults argv acq1 t1 acq2 t2) w) !! error_log =
    w_fs w !! error_log ∧
  (∀ k, k ∉ session_paths → k ≠ lock get_session_files →
        w_fs (exec (Faulty.main no_faults argv acq1 t1 acq2 t2) w) !! k =
        w_fs w !! k).
Proof.
  intros w'. subst w'. unfold exec.
  destruct (confined_main f argv acq1 t1 acq2 t2 w) as [Hframe (evs & Htr & Hp)].
  split_and!.
  - intros k Hk Hlog _. apply Hframe. tauto.
  - unfold events_of, exec. rewrite Htr. by rewrite drop_app_length.
  - apply error_log_outside.
  - apply error_log_not_lock.
  - replace (Faulty.main no_faults argv acq1 t1 acq2 t2 w)
      with (main argv acq1 t1 acq2 t2 w)
      by (by destruct argv as [|prog [|path rest]]).
    apply main_base_frame, error_log_outside.
  - intros k Hk _.
    replace (Faulty.main no_faults argv acq1 t1 acq2 t2 w)
      with (main argv acq1 t1 acq2 t2 w)
      by (by destruct argv as [|prog [|path rest]]).
    by apply main_base_frame.
Qed.

(** X3. Whatever a leadership check starts is well formed: the command is
    [pyw.exe], the merge script and a list that is not empty, has no
    duplicates and is sorted by the lower-cased file name: of two entries
    [d1\n1] and [d2\n2] the one whose name has the smaller lower case
    comes first, whatever the directories (where [lower()] is that of
    ASCII and the names are ASCII: by the names with A-Z read as a-z); at
    the moment of the launch the interpreter and the script
    exist, no session file is left, and every listed path that is not
    itself a session file exists. *)
Theorem popen_is_well_formed `{Platform} (acq : bool) (now : Z) (w : world)
    (cmd : list string) :
  cmd ∈ popens (events_of (main_after_sleep acq now) w) →
  let w' := exec (main_after_sleep acq now) w in
  ∃ unique,
    cmd = ([pyw_exe; merge_script] ++ unique)%list ∧
    unique ≠ [] ∧ NoDup unique ∧ Sorted name_le unique ∧
    (∀ i j d1 n1 d2 n2, (i ≤ j)%nat →
       unique !! i = Some (PyPath.joinpath d1 n1) →
       unique !! j = Some (PyPath.joinpath d2 n2) →
       d1 ≠ "" → d2 ≠ "" → file_name n1 → file_name n2 →
       String.le (str_lower n1) (str_lower n2)) ∧
    (lower_on_ascii →
     Forall (λ x, PyStr.any (λ c, negb (PyStr.is_ascii c)) (PyPath.name x) = false)
            unique →
     Sorted (λ x y, String.le (PyStr.lower (PyPath.name x))
                              (PyStr.lower (PyPath.name y))) unique) ∧
    is_Some (w_fs w' !! pyw_exe) ∧ is_Some (w_fs w' !! merge_script) ∧
    fresh (w_fs w') ∧
    Forall (λ x, x ∈ session_paths ∨ is_Some (w_fs w' !! x)) unique.
Proof.
  intros Hcmd w'. subst w'.
  destruct (main_after_sleep_popens acq now w) as [Hnone | (content & Hc & Hfs & Hp)].
  { rewrite Hnone in Hcmd. by apply elem_of_nil in Hcmd. }
  rewrite Hp, popens_launch in Hcmd. rewrite Hfs.
  case_decide as Hok; [|by apply elem_of_nil in Hcmd].
  destruct Hok as (Hne & Hpyw & Hscript).
  apply list_elem_of_singleton in Hcmd as ->.
  exists (resolve (claimed_fs (w_fs w)) content). split_and!; try done.
  - apply NoDup_resolve.
  - rewrite resolve_spec. apply sort_by_key_sorted.
  - intros i j d1 n1 d2 n2. apply sorted_file_names.
    rewrite resolve_spec. apply sort_by_key_sorted.
  - intros Hlaw Hascii. apply sorted_ascii_names; [done..|].
    rewrite resolve_spec. apply sort_by_key_sorted.
  - by rewrite cleaned_fs_frame by apply pyw_exe_outside.
  - by rewrite cleaned_fs_frame by apply merge_script_outside.
  - apply cleaned_fresh.
  - apply Forall_forall. intros x [_ Hx]%elem_of_resolve.
    destruct (decide (x ∈ session_paths)) as [|Hout]; [by left|right].
    rewrite cleaned_fs_frame by done.
    rewrite claimed_fs_frame in Hx; [done|].
    intros ->. apply Hout, flag_in_session.
Qed.

Section WavesMore.
Context `{Platform}.
Hypothesis float_str_of_time : float_round_trip.

Local Opaque get_session_files pyw_exe merge_script.

Lemma cleaned_registered path t fs :
  cleaned_fs (registered_fs path t fs) = cleaned_fs fs.
Proof.
  apply map_eq. intros k. destruct (decide (k ∈ session_paths)) as [Hk|Hk].
  - by rewrite !cleaned_fs_session.
  - by rewrite !cleaned_fs_frame, registered_fs_frame.
Qed.

Lemma launch_events_registered path t fs unique :
  launch_events (registered_fs path t fs) unique = launch_events fs unique.
Proof.
  unfold launch_events.
  rewrite !registered_fs_frame by auto using pyw_exe_outside, merge_script_outside.
  done.
Qed.

Lemma registered_claims path t fs now :
  claims now (registered_fs path t fs) ↔ 500 ≤ now - t.
Proof.
  unfold claims.
  rewrite (last_update_time_written float_str_of_time _ t)
    by apply registered_fs_timestamp.
  rewrite registered_fs_flag. split.
  - intros [_ (v & [= <-] & Hq)]. simpl in Hq. by apply Z.ltb_ge.
  - intros Hq. split; [done|]. exists (Finite t). split; [done|].
    simpl. by apply Z.ltb_ge.
Qed.

(** A complete wave from a fresh store, all locks granted: its trace and
    its end. *)
Lemma wave_outcome s0 sched s :
  fresh (w_fs (sys_world s0)) →
  sys_sleeping s0 = ∅ →
  run sched s0 = Some s →
  Forall lock_granted sched →
  one_wave sched →
  registered sched ≠ [] →
  sys_sleeping s = ∅ →
  fresh (w_fs (sys_world s)) ∧
  ∃ fs1,
    w_trace (sys_world s) =
    (w_trace (sys_world s0) ++ wave_events (registered sched) ++
     leader_events fs1 (registered sched))%list.
Proof.
  intros Hfresh Hnone Hrun Hlocks Hwave Hregs Hdone.
  destruct (wave_invariant float_str_of_time true s0 sched s Hfresh Hnone Hrun) as
    [(_ & _ & Hlast)|(pre & pid & t & post & s1 & -> & Hpre & Hpost & Hcoll & Hdec)];
    [done..| |].
  { destruct (last (registered sched)) as [r|] eqn:Hr.
    - destruct Hlast as (_ & _ & Hasleep).
      destruct (Hasleep eq_refl) as [pid Hpid]. by rewrite Hdone in Hpid.
    - by apply last_None in Hr. }
  assert (registered (pre ++ Elect pid true t :: post) = registered pre) as ->.
  { rewrite registered_app.
    change (Elect pid true t :: post) with ([Elect pid true t] ++ post)%list.
    rewrite registered_app, Hpost. by rewrite !app_nil_r. }
  destruct Hdec as (Hfresh' & Htr & _). eauto.
Qed.

(** A process that runs alone, from registration to launch. *)
Lemma main_alone prog path t1 t2 w :
  is_Some (w_fs w !! path) →
  plain_path path →
  w_fs w !! collection get_session_files = None →
  t1 + sleep_ms ≤ t2 →
  is_Some (w_fs w !! pyw_exe) →
  is_Some (w_fs w !! merge_script) →
  main [prog; path] true t1 true t2 w =
  (Normal tt,
   {| w_fs := cleaned_fs (w_fs w);
      w_trace := w_trace w ++ registration_events (path, t1) ++
                 [EvWrite (launcher_flag get_session_files) "1"] ++ cleanup_events ++
                 [EvPopen [pyw_exe; merge_script; path]] |}).
Proof.
  intros Hex Hplain Hnone Hsleep Hpyw Hscript.
  rewrite main_split, main_before_sleep_registers by done.
  erewrite main_after_sleep_lead; cycle 1.
  - cbn [w_fs]. apply registered_claims. unfold sleep_ms in Hsleep. lia.
  - cbn [w_fs]. rewrite registered_fs_collection, Hnone. done.
  - cbn [w_fs w_trace]. rewrite cleaned_registered, launch_events_registered.
    assert (resolve (claimed_fs (registered_fs path t1 (w_fs w)))
                    (path +:+ String "010" "") = [path]) as ->.
    { rewrite resolve_spec.
      change (path +:+ String "010" "") with (collection_text [path]).
      rewrite (snapshot_collection_text [path]) by by constructor.
      rewrite filter_cons, decide_True; [done|].
      destruct (decide (path = launcher_flag get_session_files)) as [->|Hflag].
      { unfold claimed_fs. by rewrite lookup_insert_eq. }
      rewrite claimed_fs_frame by done.
      destruct (decide (path ∈ session_paths)) as [Hin|Hout].
      - apply session_path_cases in Hin as [-> | [-> | ->]]; [| |done].
        + by rewrite registered_fs_collection.
        + by rewrite registered_fs_timestamp.
      - by rewrite registered_fs_frame. }
    unfold launch_events. rewrite decide_True by done.
    by rewrite <-!app_assoc.
Qed.

End WavesMore.

(** X4. A process that runs alone on a plain path that exists, in a store
    without a collection file, starts the merge engine with exactly this
    path and leaves no session file, also when a leader flag or a timestamp
    of an interrupted wave is still there: the registration removes the one
    and overwrites the other. *)
Theorem lone_run_launches_its_path `{Platform} (prog path : string) (t1 t2 : Z)
    (w : world) :
  float_round_trip →
  is_Some (w_fs w !! path) →
  plain_path path →
  w_fs w !! collection get_session_files = None →
  t1 + sleep_ms ≤ t2 →
  is_Some (w_fs w !! pyw_exe) →
  is_Some (w_fs w !! merge_script) →
  main [prog; path] true t1 true t2 w =
  (Normal tt,
   {| w_fs := cleaned_fs (w_fs w);
      w_trace := w_trace w ++ registration_events (path, t1) ++
                 [EvWrite (launcher_flag get_session_files) "1"] ++ cleanup_events ++
                 [EvPopen [pyw_exe; merge_script; path]] |}).
Proof. intros Hfloat. by apply main_alone. Qed.

(** X5. A collection file that is not UTF-8 text blocks the handler for
    good: whatever processes register and check for leadership, and whatever
    else changes other files, the collection stays undecodable and no
    process is ever started. *)
Theorem undecodable_collection_blocks `{Platform} (sched : list action)
    (s s' : system) :
  w_fs (sys_world s) !! collection get_session_files = Some Undecodable →
  run sched s = Some s' →
  w_fs (sys_world s') !! collection get_session_files = Some Undecodable ∧
  popens (w_trace (sys_world s')) = popens (w_trace (sys_world s)).
Proof.
  revert s. induction sched as [|a sched IH]; intros s Hbad Hrun.
  { by injection Hrun as <-. }
  simpl in Hrun. destruct (step a s) as [s1|] eqn:Hstep; [|done].
  destruct (undecodable_step a s s1 Hbad Hstep) as [Hbad1 Hp1].
  destruct (IH s1 Hbad1 Hrun) as [? ->]. done.
Qed.

(** X6. Waves that follow each other are independent: when a wave has had
    its leader and all its processes are done, a second wave starts from a
    store without session files, has a leader of its own, and its leader
    resolves the paths of the second wave only. *)
Theorem successive_waves_are_independent `{Platform} (s0 sA s : system)
    (waveA waveB : list action) :
  float_round_trip →
  fresh (w_fs (sys_world s0)) →
  sys_sleeping s0 = ∅ →
  run waveA s0 = Some sA →
  run waveB sA = Some s →
  Forall lock_granted (waveA ++ waveB) →
  one_wave waveA → one_wave waveB →
  registered waveA ≠ [] → registered waveB ≠ [] →
  sys_sleeping sA = ∅ → sys_sleeping s = ∅ →
  run (waveA ++ waveB) s0 = Some s ∧
  fresh (w_fs (sys_world sA)) ∧
  fresh (w_fs (sys_world s)) ∧
  ∃ fsA fsB,
    w_trace (sys_world s) =
    (w_trace (sys_world s0) ++
     wave_events (registered waveA) ++ leader_events fsA (registered waveA) ++
     wave_events (registered waveB) ++ leader_events fsB (registered waveB))%list.
Proof.
  intros Hfloat Hfresh Hnone HrunA HrunB [HlocksA HlocksB]%Forall_app
    HwaveA HwaveB HregsA HregsB HdoneA HdoneB.
  destruct (wave_outcome Hfloat s0 waveA sA) as (HfreshA & fsA & HtrA); try done.
  destruct (wave_outcome Hfloat sA waveB s) as (HfreshB & fsB & HtrB); try done.
  split_and!; try done.
  - clear -HrunA HrunB. revert s0 HrunA.
    induction waveA as [|a waveA IH]; intros s0 HrunA; simpl in *.
    + by injection HrunA as ->.
    + destruct (step a s0); [by apply IH|done].
  - exists fsA, fsB. rewrite HtrB, HtrA. by rewrite <-!app_assoc.
Qed.

(** X7. The debounce: after a registration at clock value [t], a
    leadership check that reads the clock less than 0.5 s later never claims,
    whatever the store held before; it leaves the world as it is. *)
Theorem no_leader_soon_after_registration `{Platform} (prog path : string)
    (t now : Z) (acq : bool) (w : world) :
  float_round_trip →
  is_Some (w_fs w !! path) →
  now < t + 500 →
  let w1 := exec (main_before_sleep [prog; path] true t) w in
  exec (main_after_sleep acq now) w1 = w1 ∧
  events_of (main_after_sleep acq now) w1 = [].
Proof.
  intros Hfloat Hex Hsoon w1.
  assert (exec (main_after_sleep acq now) w1 = w1) as Hsame.
  { subst w1. unfold exec at 1. destruct acq; [|done].
    rewrite main_after_sleep_abstain; [done|].
    unfold exec. rewrite main_before_sleep_registers by done. cbn [snd w_fs].
    rewrite (registered_claims Hfloat). lia. }
  split; [done|]. unfold events_of. rewrite Hsame. apply drop_all.
Qed.

(** * The merge engine *)

Section Deduplicate.
Import MergePdfs.
Context `{Engine}.

Lemma first_by_key_subseteq l x : x ∈ first_by_key l → x ∈ l.
Proof.
  revert x. induction l as [|y l IH]; simpl; intros x; [done|].
  rewrite !elem_of_cons, list_elem_of_filter. intros [->|[_ Hx]]; auto.
Qed.

Lemma filter_first_by_key (P : string → Prop) `{∀ x, Decision (P x)} l :
  (∀ x y, path_key x = path_key y → P x → P y) →
  filter P (first_by_key l) = first_by_key (filter P l).
Proof.
  intros HP. induction l as [|x l IH]; simpl; [done|].
  rewrite !filter_cons. destruct (decide (P x)) as [Hx|Hx]; simpl.
  - f_equal. rewrite <-IH, !list_filter_filter.
    apply list_filter_iff. tauto.
  - rewrite <-IH. apply list_filter_filter_l.
    intros y Hy Heq. apply Hx. by apply (HP y x).
Qed.

Lemma deduplicate_loop (seen : gset string) acc l :
  (foldl deduplicate_step (seen, acc) l).2 =
  (acc ++ first_by_key (filter (λ x, path_key x ∉ seen) l))%list.
Proof.
  revert seen acc. induction l as [|x l IH]; intros seen acc; simpl.
  - by rewrite app_nil_r.
  - unfold deduplicate_step at 2; simpl. rewrite filter_cons.
    destruct (decide (path_key x ∈ seen)) as [Hin|Hout].
    + rewrite decide_False by tauto. apply IH.
    + rewrite decide_True by done. rewrite IH, <-app_assoc. simpl.
      do 2 f_equal. rewrite filter_first_by_key, list_filter_filter.
      * f_equal. apply list_filter_iff. intros y.
        rewrite elem_of_union, elem_of_singleton. tauto.
      * intros y z Hyz. by rewrite Hyz.
Qed.

Lemma deduplicate_first_by_key l : _deduplicate l = first_by_key l.
Proof.
  unfold _deduplicate. rewrite deduplicate_loop. simpl. f_equal.
  induction l as [|x l IH]; [done|].
  rewrite filter_cons, decide_True by set_solver. by f_equal.
Qed.

Lemma first_by_key_sublist l : first_by_key l `sublist_of` l.
Proof.
  induction l as [|x l IH]; simpl; [done|].
  apply sublist_skip. etrans; [apply sublist_filter|done].
Qed.

Lemma first_by_key_keys l x :
  x ∈ l → path_key x ∈ path_key <$> first_by_key l.
Proof.
  induction l as [|y l IH]; [by intros ?%elem_of_nil|].
  intros [->|Hx]%elem_of_cons; simpl; [apply elem_of_cons; by left|].
  destruct (decide (path_key x = path_key y)) as [->|Hne];
    [apply elem_of_cons; by left|].
  apply elem_of_cons. right.
  apply list_elem_of_fmap in IH as (z & Hz & Hin); [|done].
  apply list_elem_of_fmap. exists z. split; [done|].
  apply list_elem_of_filter. split; [congruence|done].
Qed.

Lemma first_by_key_NoDup l : NoDup (path_key <$> first_by_key l).
Proof.
  induction l as [|x l IH]; simpl; constructor.
  - intros (z & Hz & [Hne _]%list_elem_of_filter)%list_elem_of_fmap. congruence.
  - clear -IH. induction (first_by_key l) as [|y l' IH']; [constructor|].
    rewrite fmap_cons in IH. apply NoDup_cons in IH as [Hy Hl'].
    rewrite filter_cons. case_decide; [|by apply IH'].
    rewrite fmap_cons. constructor; [|by apply IH'].
    intros (z & Hz & [_ Hin]%list_elem_of_filter)%list_elem_of_fmap.
    apply Hy. apply list_elem_of_fmap. eauto.
Qed.

Lemma first_by_key_fixed l : NoDup (path_key <$> l) → first_by_key l = l.
Proof.
  induction l as [|x l IH]; [done|].
  rewrite fmap_cons. intros [Hx Hl]%NoDup_cons. simpl. f_equal.
  rewrite IH by done. clear IH Hl.
  induction l as [|y l IH]; [done|].
  rewrite fmap_cons, not_elem_of_cons in Hx. destruct Hx as [Hxy Hx].
  rewrite filter_cons, decide_True by congruence. f_equal. auto.
Qed.

Lemma first_by_key_snoc l p :
  first_by_key (l ++ [p]) =
  if decide (path_key p ∈ path_key <$> l) then first_by_key l
  else (first_by_key l ++ [p])%list.
Proof.
  induction l as [|x l IH]; [done|]. simpl. rewrite IH. clear IH.
  destruct (decide (path_key p ∈ path_key <$> l)) as [Hin|Hout].
  - rewrite decide_True; [done|]. apply elem_of_cons. by right.
  - rewrite filter_app, filter_cons, filter_nil.
    destruct (decide (path_key p = path_key x)) as [Heq|Hne].
    + rewrite (decide_False (P := path_key p ≠ path_key x)) by (intros Hn; by apply Hn).
      rewrite decide_True by (apply elem_of_cons; by left).
      by rewrite app_nil_r.
    + rewrite (decide_True (P := path_key p ≠ path_key x)) by done.
      rewrite decide_False; [done|]. rewrite elem_of_cons. tauto.
Qed.

End Deduplicate.

Section ParseArgs.
Import MergePdfs.
Context `{Engine}.

(** The step of [parse_from] on a token that is no option. *)
Lemma parse_from_input fs token rest pdfs output :
  ¬ is_option token →
  parse_from fs (token :: rest) pdfs output =
  match expanduser token with
  | None => inl (RuntimeError NoHomeDirectory)
  | Some path =>
      let whole := parse_from fs rest (pdfs ++ [path])%list output in
      if negb (exists_in fs path) &&
         PyStr.any (λ c, bool_decide (c = " "%char)) token &&
         (1 <? count_pdf (PyStr.lower token))%nat
      then
        let potential := potential_paths (re_split token) in
        if (1 <? length potential)%nat && forallb (exists_in fs) potential
        then match expand_all potential with
             | Some ps => parse_from fs rest (pdfs ++ ps)%list output
             | None => inl (RuntimeError NoHomeDirectory)
             end
        else whole
      else whole
  end.
Proof. intros Hopt. simpl. by rewrite bool_decide_eq_false_2. Qed.

Lemma parse_from_option fs token rest pdfs output :
  is_option token →
  parse_from fs (token :: rest) pdfs output =
  match rest with
  | [] => inl ValueError
  | output_token :: rest' =>
      match expanduser output_token with
      | Some o => parse_from fs rest' pdfs (Some o)
      | None => inl (RuntimeError NoHomeDirectory)
      end
  end.
Proof. intros Hopt. simpl. by rewrite bool_decide_eq_true_2. Qed.

(** Parsing inputs does not look at the output found so far, and hands it
    on. *)
Lemma parse_from_output fs c pdfs output :
  Forall (λ t, ¬ is_option t) c →
  parse_from fs c pdfs output =
  match parse_from fs c pdfs None with
  | inl e => inl e
  | inr (pdfs', _) => inr (pdfs', output)
  end.
Proof.
  intros Hc. revert pdfs. induction Hc as [|token c Htoken Hc IH]; intros pdfs; [done|].
  rewrite !parse_from_input by done.
  destruct (expanduser token) as [path|]; [|done]. cbv zeta.
  repeat first [apply IH | case_match | done].
Qed.

Lemma parse_from_app fs a b pdfs output :
  Forall (λ t, ¬ is_option t) a →
  parse_from fs (a ++ b) pdfs output =
  match parse_from fs a pdfs output with
  | inl e => inl e
  | inr (pdfs', output') => parse_from fs b pdfs' output'
  end.
Proof.
  intros Ha. revert pdfs. induction Ha as [|token a Htoken Ha IH]; intros pdfs; [done|].
  rewrite <-app_comm_cons, !parse_from_input by done.
  destruct (expanduser token) as [path|]; [|done]. cbv zeta.
  repeat first [apply IH | case_match | done].
Qed.

Lemma parse_from_no_value_error fs a pdfs output :
  Forall (λ t, ¬ is_option t) a →
  parse_from fs a pdfs output ≠ inl ValueError.
Proof.
  intros Ha. revert pdfs. induction Ha as [|token a Htoken Ha IH]; intros pdfs; [done|].
  rewrite !parse_from_input by done.
  destruct (expanduser token) as [path|]; [|done]. cbv zeta.
  repeat first [apply IH | case_match | done].
Qed.

(** Tokens that name existing files are taken as they are. *)
Lemma parse_from_existing fs argv pdfs output :
  Forall (λ t, ¬ is_option t ∧ expanduser t = Some t ∧ is_Some (fs !! t)) argv →
  parse_from fs argv pdfs output = inr ((pdfs ++ argv)%list, output).
Proof.
  intros Hargv. revert pdfs.
  induction Hargv as [|token argv (Hopt & Hexp & Hex) _ IH]; intros pdfs.
  { by rewrite app_nil_r. }
  rewrite parse_from_input, Hexp by done. cbv zeta.
  unfold exists_in at 1. rewrite bool_decide_eq_true_2 by done. cbn [negb andb].
  rewrite IH, <-app_assoc. done.
Qed.

End ParseArgs.

Section Split.
Import MergePdfs.
Context `{Engine}.

Lemma append_cons a s t : String a s +:+ t = String a (s +:+ t).
Proof. done. Qed.

Lemma append_nil_l t : "" +:+ t = t.
Proof. done. Qed.

Lemma append_nil_r s : s +:+ "" = s.
Proof. induction s as [|a s IH]; [done|]. by rewrite append_cons, IH. Qed.

Lemma append_assoc (a b c : string) : (a +:+ b) +:+ c = a +:+ (b +:+ c).
Proof. induction a as [|x a IH]; [done|]. by rewrite !append_cons, IH. Qed.

(** The piece read so far only goes in front of the first piece. *)
Lemma re_split_from_cur skipping cur s :
  re_split_from skipping cur s =
  match re_split_from skipping "" s with
  | h :: t => (cur +:+ h) :: t
  | [] => []
  end.
Proof.
  revert skipping cur. induction s as [|c0 s0 IH]; intros skipping cur.
  { simpl. by rewrite append_nil_r. }
  cbn [re_split_from].
  destruct (skipping && PyStr.isspace c0); [apply IH|].
  assert (re_split_from false (cur +:+ String c0 "") s0 =
          match re_split_from false ("" +:+ String c0 "") s0 with
          | h :: t => (cur +:+ h) :: t
          | [] => []
          end) as Hstep.
  { rewrite (IH false (cur +:+ String c0 "")), (IH false ("" +:+ String c0 "")).
    destruct (re_split_from false "" s0) as [|h t]; [done|].
    rewrite append_nil_l, append_assoc. done. }
  destruct s0 as [|c1 [|c2 [|c3 [|c4 s4]]]]; try exact Hstep.
  destruct (is_dot_pdf c0 c1 c2 c3 && PyStr.isspace c4); [|exact Hstep].
  by rewrite append_nil_r.
Qed.

Lemma re_split_from_nonempty skipping cur s : re_split_from skipping cur s ≠ [].
Proof.
  revert skipping cur. induction s as [|c0 s0 IH]; intros skipping cur; [done|].
  cbn [re_split_from].
  destruct (skipping && PyStr.isspace c0); [apply IH|].
  destruct s0 as [|c1 [|c2 [|c3 [|c4 s4]]]]; try apply IH.
  destruct (is_dot_pdf c0 c1 c2 c3 && PyStr.isspace c4); [done|apply IH].
Qed.

(** A text whose lower case is [.pdf] has four characters. *)
Lemma extension_chars e :
  PyStr.lower e = ".pdf" →
  ∃ e0 e1 e2 e3,
    e = String e0 (String e1 (String e2 (String e3 ""))) ∧
    is_dot_pdf e0 e1 e2 e3 = true.
Proof.
  intros He. destruct e as [|e0 [|e1 [|e2 [|e3 [|e4 e']]]]]; try discriminate.
  exists e0, e1, e2, e3. split; [done|]. unfold is_dot_pdf.
  by rewrite bool_decide_eq_true_2.
Qed.

(** The first four characters of a text that ends in an extension. *)
Lemma first_four q e :
  PyStr.lower e = ".pdf" →
  ∃ c1 c2 c3 c4 s4,
    q +:+ e = String c1 (String c2 (String c3 (String c4 s4))) ∧
    ∀ t, q +:+ e +:+ t = String c1 (String c2 (String c3 (String c4 (s4 +:+ t)))).
Proof.
  intros (e0 & e1 & e2 & e3 & -> & _)%extension_chars.
  destruct q as [|a1 [|a2 [|a3 [|a4 q']]]].
  - by exists e0, e1, e2, e3, "".
  - by exists a1, e0, e1, e2, (String e3 "").
  - by exists a1, a2, e0, e1, (String e2 (String e3 "")).
  - by exists a1, a2, a3, e0, (String e1 (String e2 (String e3 ""))).
  - exists a1, a2, a3, a4, (q' +:+ String e0 (String e1 (String e2 (String e3 "")))).
    split; [done|]. intros t. rewrite append_assoc. by rewrite !append_cons.
Qed.

Lemma re_split_from_step cur c0 c1 c2 c3 c4 s4 :
  re_split_from false cur (String c0 (String c1 (String c2 (String c3 (String c4 s4))))) =
  if is_dot_pdf c0 c1 c2 c3 && PyStr.isspace c4
  then cur :: String c0 (String c1 (String c2 (String c3 "")))
           :: re_split_from true "" (String c4 s4)
  else re_split_from false (cur +:+ String c0 "")
         (String c1 (String c2 (String c3 (String c4 s4)))).
Proof. reflexivity. Qed.

(** A path that splitting leaves whole is split off at its extension when
    white space follows. *)
Lemma re_split_at_extension q e c rest :
  PyStr.lower e = ".pdf" →
  PyStr.isspace c = true →
  re_split_from false "" (q +:+ e) = [q +:+ e] →
  re_split_from false "" (q +:+ e +:+ String c rest) =
  q :: e :: re_split_from true "" (String c rest).
Proof.
  intros He Hc. induction q as [|x q IH]; intros Halone.
  - rewrite !append_nil_l.
    destruct (extension_chars e He) as (e0 & e1 & e2 & e3 & -> & Hdot).
    rewrite !append_cons, append_nil_l. rewrite re_split_from_step.
    by rewrite Hdot, Hc.
  - rewrite append_cons in Halone. rewrite append_cons.
    destruct (first_four q e He) as (c1 & c2 & c3 & c4 & s4 & Hfour & Hfour').
    rewrite (Hfour' (String c rest)). rewrite Hfour in Halone.
    rewrite re_split_from_step in Halone. rewrite re_split_from_step.
    destruct (is_dot_pdf x c1 c2 c3 && PyStr.isspace c4); [done|].
    rewrite <-Hfour in Halone. rewrite <-(Hfour' (String c rest)).
    rewrite re_split_from_cur in Halone. rewrite re_split_from_cur.
    destruct (re_split_from false "" (q +:+ e)) as [|h t] eqn:Hq;
      [done|]. injection Halone as Hh ->.
    rewrite append_nil_l in Hh. subst h.
    rewrite (IH eq_refl). by rewrite append_nil_l.
Qed.

Lemma lstrip_length s : (String.length (PyStr.lstrip s) ≤ String.length s)%nat.
Proof.
  induction s as [|a s IH]; simpl; [lia|].
  destruct (PyStr.isspace a); simpl; lia.
Qed.

Lemma lstrip_head c s :
  PyStr.lstrip (String c s) = String c s → PyStr.isspace c = false.
Proof.
  simpl. destruct (PyStr.isspace c); [|done].
  intros Hs%(f_equal String.length). simpl in Hs.
  pose proof (lstrip_length s). lia.
Qed.

Lemma re_split_from_resume cur c s :
  PyStr.isspace c = false →
  re_split_from true cur (String c s) = re_split_from false cur (String c s).
Proof. intros Hc. cbn [re_split_from]. by rewrite Hc. Qed.

Lemma re_split_from_skip cur c s :
  PyStr.isspace c = true →
  re_split_from true cur (String c s) = re_split_from true cur s.
Proof. intros Hc. cbn [re_split_from]. by rewrite Hc. Qed.

Lemma lower_app a b : PyStr.lower (a +:+ b) = PyStr.lower a +:+ PyStr.lower b.
Proof. induction a as [|x a IH]; [done|]. simpl. by rewrite !append_cons, IH. Qed.

Lemma length_app a b :
  String.length (a +:+ b) = (String.length a + String.length b)%nat.
Proof. induction a as [|x a IH]; [done|]. rewrite append_cons. simpl. by rewrite IH. Qed.

Lemma endswith_pdf_app a : endswith_pdf (a +:+ ".pdf") = true.
Proof.
  unfold endswith_pdf. rewrite length_app. simpl String.length.
  replace (String.length a + 4 - 4)%nat with (String.length a) by lia.
  replace (4 <=? String.length a + 4)%nat with true
    by (symmetry; apply Nat.leb_le; lia).
  apply bool_decide_eq_true_2.
  induction a as [|x a IH]; [done|]. by rewrite append_cons.
Qed.

Lemma join_paths_cons p p' rest :
  join_paths (p :: p' :: rest) = p +:+ String " " (join_paths (p' :: rest)).
Proof. done. Qed.

Lemma join_paths_head p rest : ∃ t, join_paths (p :: rest) = p +:+ t.
Proof.
  destruct rest as [|p' rest]; [exists ""; by rewrite append_nil_r|].
  by exists (String " " (join_paths (p' :: rest))).
Qed.

Lemma splittable_head p :
  splittable p → ∃ c s, p = String c s ∧ PyStr.isspace c = false.
Proof.
  intros ((q & e & -> & He) & _ & Hstrip).
  destruct (extension_chars e He) as (e0 & e1 & e2 & e3 & -> & _).
  destruct q as [|c q]; rewrite ?append_nil_l, ?append_cons in Hstrip |- *;
    eauto using lstrip_head.
Qed.

(** The heuristic finds the paths of a joined token again. *)
Lemma potential_paths_join paths :
  paths ≠ [] → Forall splittable paths →
  potential_paths (re_split (join_paths paths)) = paths.
Proof.
  intros Hne Hall. induction Hall as [|p rest Hp Hrest IH]; [done|]. clear Hne.
  pose proof Hp as ((q & e & -> & He) & Halone & _).
  destruct rest as [|p' rest].
  - simpl join_paths. rewrite Halone. simpl.
    rewrite lower_app, He, endswith_pdf_app. done.
  - rewrite join_paths_cons. unfold re_split in *.
    rewrite append_assoc, re_split_at_extension by done.
    rewrite re_split_from_skip by done.
    apply Forall_inv in Hrest as Hp'.
    destruct (splittable_head p' Hp') as (c & s & -> & Hc).
    destruct (join_paths_head (String c s) rest) as (t & Ht).
    rewrite Ht, append_cons, re_split_from_resume, <-append_cons, <-Ht by done.
    cbn [potential_paths]. rewrite bool_decide_eq_true_2 by done.
    f_equal. by apply IH.
Qed.

Lemma prefix_app p s t : String.prefix p s = true → String.prefix p (s +:+ t) = true.
Proof.
  revert s. induction p as [|a p IH]; intros s; [by destruct (s +:+ t)|].
  destruct s as [|b s]; [done|]. rewrite append_cons. simpl.
  destruct (ascii_dec a b); [apply IH|done].
Qed.

Lemma count_pdf_app a b : (count_pdf a + count_pdf b ≤ count_pdf (a +:+ b))%nat.
Proof.
  induction a as [|x a IH]; [rewrite append_nil_l; simpl; lia|].
  rewrite append_cons. cbn [count_pdf]. rewrite <-append_cons.
  destruct (String.prefix ".pdf" (String x a)) eqn:Hp.
  - rewrite prefix_app by done. lia.
  - destruct (String.prefix ".pdf" (String x a +:+ b)); lia.
Qed.

Lemma count_pdf_extension a : (1 ≤ count_pdf (a +:+ ".pdf"))%nat.
Proof.
  induction a as [|x a IH]; [simpl; lia|].
  rewrite append_cons. cbn [count_pdf]. lia.
Qed.

Lemma count_pdf_splittable p : splittable p → (1 ≤ count_pdf (PyStr.lower p))%nat.
Proof.
  intros ((q & e & -> & He) & _). rewrite lower_app, He. apply count_pdf_extension.
Qed.

Lemma count_pdf_join paths :
  Forall splittable paths →
  (length paths ≤ count_pdf (PyStr.lower (join_paths paths)))%nat.
Proof.
  induction 1 as [|p rest Hp Hrest IH]; [simpl; lia|].
  destruct rest as [|p' rest].
  - simpl. by apply count_pdf_splittable.
  - rewrite join_paths_cons, lower_app.
    etrans; [|apply count_pdf_app].
    apply count_pdf_splittable in Hp.
    change (PyStr.lower (String " " ?s)) with (String " " (PyStr.lower s)).
    cbn [count_pdf]. simpl length in *. simpl String.prefix. cbv iota. lia.
Qed.

Lemma any_app f a b : PyStr.any f (a +:+ b) = PyStr.any f a || PyStr.any f b.
Proof.
  induction a as [|x a IH]; [done|]. rewrite append_cons. simpl.
  by rewrite IH, orb_assoc.
Qed.

Lemma any_space_join p p' rest :
  PyStr.any (λ c, bool_decide (c = " "%char)) (join_paths (p :: p' :: rest)) = true.
Proof.
  rewrite join_paths_cons, any_app. simpl. apply orb_true_r.
Qed.

Lemma expanduser_no_tilde p : String.prefix "~" p = false → expanduser p = Some p.
Proof.
  destruct p as [|c rest]; [done|]. simpl.
  destruct (ascii_dec "~" c) as [<-|Hc]; [by destruct rest|]. intros _.
  destruct (nat_of_ascii c =? 126)%nat eqn:Hn; [|done].
  apply Nat.eqb_eq in Hn. exfalso. apply Hc.
  by rewrite <-(ascii_nat_embedding c), Hn.
Qed.

Lemma expand_all_no_tilde paths :
  Forall (λ p, String.prefix "~" p = false) paths → expand_all paths = Some paths.
Proof.
  induction 1 as [|p rest Hp _ IH]; [done|]. simpl.
  by rewrite expanduser_no_tilde, IH.
Qed.

Lemma prefix_tilde_app p t :
  p ≠ "" → String.prefix "~" (p +:+ t) = String.prefix "~" p.
Proof.
  destruct p as [|c p]; [done|]. intros _. rewrite append_cons.
  cbn [String.prefix]. destruct (ascii_dec "~" c); [|done].
  transitivity true; [by destruct (p +:+ t)|by destruct p].
Qed.

End Split.

Section Inputs.
Import MergePdfs.
Context `{Engine}.

Lemma first_by_key_app a b : ∃ k, first_by_key (a ++ b) = (first_by_key a ++ k)%list.
Proof.
  induction b as [|x b IH] using rev_ind.
  - exists []. by rewrite !app_nil_r.
  - destruct IH as (k & Hk). rewrite app_assoc, first_by_key_snoc, Hk.
    case_decide; [by exists k|]. exists (k ++ [x])%list. by rewrite app_assoc.
Qed.

(** Induction that follows [parse_from], which reads one token or two. *)
Lemma two_step_ind {A} (P : list A → Prop) :
  P [] → (∀ x, P [x]) → (∀ x y l, P l → P (y :: l) → P (x :: y :: l)) →
  ∀ l, P l.
Proof.
  intros Hnil Hone Htwo l.
  cut (P l ∧ ∀ x, P (x :: l)); [tauto|].
  induction l as [|y l [IH1 IH2]]; [by split|].
  split; [apply IH2|]. intros x. by apply Htwo.
Qed.

Lemma expand_all_Forall2 l ps :
  expand_all l = Some ps → Forall2 (λ q p, expanduser q = Some p) l ps.
Proof.
  revert ps. induction l as [|x l IH]; intros ps; simpl.
  - intros [= <-]. constructor.
  - destruct (expanduser x) as [y|] eqn:Hx; [|done].
    destruct (expand_all l) as [ps'|]; [|done]. intros [= <-].
    constructor; [done|by apply IH].
Qed.

Lemma from_argv_mono fs a b p : a ⊆ b → from_argv fs a p → from_argv fs b p.
Proof.
  intros Hab [(t & Ht & Hp)|(t & q & Ht & Hq)];
    [left; exists t; split; auto|right; exists t, q; split; auto].
Qed.

Lemma parse_from_sound fs argv :
  ∀ pdfs output pdfs' output',
    parse_from fs argv pdfs output = inr (pdfs', output') →
    ∃ new, pdfs' = (pdfs ++ new)%list ∧ Forall (from_argv fs argv) new.
Proof.
  induction argv as [|x|x y l IH1 IH2] using two_step_ind;
    intros pdfs output pdfs' output'.
  - intros [= <- <-]. exists []. by rewrite app_nil_r.
  - destruct (decide (is_option x)) as [Hopt|Hopt].
    { by rewrite parse_from_option. }
    rewrite parse_from_input by done.
    destruct (expanduser x) as [path|] eqn:Hx; [|done]. cbv zeta.
    assert (Forall (from_argv fs [x]) [path]) as Hpath.
    { constructor; [|done]. left. exists x. split; [apply list_elem_of_here|done]. }
    repeat case_match; try done; simpl; intros [= <- <-]; eauto.
    eexists; split; [done|].
    match goal with Hps : expand_all _ = Some _ |- _ =>
      apply expand_all_Forall2 in Hps; rename Hps into Hall end.
    match goal with Hb : _ && forallb _ _ = true |- _ =>
      apply andb_prop in Hb as [_ Hex] end.
    rewrite forallb_forall in Hex.
    apply Forall_forall. intros p Hp.
    apply (list_elem_of_lookup_1) in Hp as (i & Hi).
    destruct (Forall2_lookup_r _ _ _ _ _ Hall Hi) as (q & Hq & Hqp).
    apply list_elem_of_lookup_2 in Hq.
    right. exists x, q. split_and!; [apply list_elem_of_here|done| |done].
    apply list_elem_of_In, Hex in Hq.
    unfold exists_in in Hq. by apply bool_decide_eq_true in Hq.
  - destruct (decide (is_option x)) as [Hopt|Hopt].
    { rewrite parse_from_option by done.
      destruct (expanduser y); [|done]. intros (new & -> & Hnew)%IH1.
      exists new. split; [done|].
      eapply Forall_impl; [done|]. intros p. apply from_argv_mono.
      intros z Hz. by do 2 apply list_elem_of_further. }
    rewrite parse_from_input by done.
    destruct (expanduser x) as [path|] eqn:Hx; [|done]. cbv zeta.
    assert (∀ mid, Forall (from_argv fs (x :: y :: l)) mid →
      parse_from fs (y :: l) (pdfs ++ mid)%list output = inr (pdfs', output') →
      ∃ new, pdfs' = (pdfs ++ new)%list ∧ Forall (from_argv fs (x :: y :: l)) new)
      as Hrest.
    { intros mid Hmid (new & -> & Hnew)%IH2. exists (mid ++ new)%list.
      split; [by rewrite app_assoc|]. apply Forall_app. split; [done|].
      eapply Forall_impl; [done|]. intros p. apply from_argv_mono.
      intros z Hz. by apply list_elem_of_further. }
    assert (Forall (from_argv fs (x :: y :: l)) [path]) as Hpath.
    { constructor; [|done]. left. exists x. split; [apply list_elem_of_here|done]. }
    repeat case_match; try done; try (by apply Hrest).
    apply Hrest.
    match goal with Hps : expand_all _ = Some _ |- _ =>
      apply expand_all_Forall2 in Hps; rename Hps into Hall end.
    match goal with Hb : _ && forallb _ _ = true |- _ =>
      apply andb_prop in Hb as [_ Hex] end.
    rewrite forallb_forall in Hex.
    apply Forall_forall. intros p Hp.
    apply (list_elem_of_lookup_1) in Hp as (i & Hi).
    destruct (Forall2_lookup_r _ _ _ _ _ Hall Hi) as (q & Hq & Hqp).
    apply list_elem_of_lookup_2 in Hq.
    right. exists x, q. split_and!; [apply list_elem_of_here|done| |done].
    apply list_elem_of_In, Hex in Hq.
    unfold exists_in in Hq. by apply bool_decide_eq_true in Hq.
Qed.

Lemma parse_from_errors fs argv :
  ∀ pdfs output e,
    parse_from fs argv pdfs output = inl e →
    e = ValueError ∨ e = RuntimeError NoHomeDirectory.
Proof.
  induction argv as [|x|x y l IH1 IH2] using two_step_ind;
    intros pdfs output e; [done| |].
  - destruct (decide (is_option x)) as [Hopt|Hopt].
    { rewrite parse_from_option by done. intros [= <-]. by left. }
    rewrite parse_from_input by done.
    destruct (expanduser x) as [path|] eqn:Hx; [|intros [= <-]; by right].
    cbv zeta. repeat case_match; try done; intros [= <-]; by right.
  - destruct (decide (is_option x)) as [Hopt|Hopt].
    { rewrite parse_from_option by done.
      destruct (expanduser y); [apply IH1|intros [= <-]; by right]. }
    rewrite parse_from_input by done.
    destruct (expanduser x) as [path|] eqn:Hx; [|intros [= <-]; by right].
    cbv zeta. repeat case_match; try done; try apply IH2.
    intros [= <-]; by right.
Qed.

End Inputs.

Section Merging.
Import MergePdfs.
Context `{Engine}.

Lemma add_pages_readable pdfs pss written :
  Forall2 (λ pdf ps, PdfReader pdf = Pages ps) pdfs pss →
  add_pages pdfs written = inr (written ++ concat pss)%list.
Proof.
  intros Hall. revert written.
  induction Hall as [|pdf ps pdfs pss Hpdf _ IH]; intros written; simpl.
  - by rewrite app_nil_r.
  - by rewrite Hpdf, IH, app_assoc.
Qed.

Lemma add_pages_inv pdfs written pages :
  add_pages pdfs written = inr pages →
  ∃ pss, Forall2 (λ pdf ps, PdfReader pdf = Pages ps) pdfs pss ∧
         pages = (written ++ concat pss)%list.
Proof.
  revert written. induction pdfs as [|pdf pdfs IH]; intros written; simpl.
  - intros [= <-]. exists []. split; [constructor|by rewrite app_nil_r].
  - destruct (PdfReader pdf) as [| |ps] eqn:Hpdf; [done..|].
    intros (pss & Hall & ->)%IH. exists (ps :: pss). split; [by constructor|].
    by rewrite <-app_assoc.
Qed.

Lemma add_pages_first_bad l1 pdf l2 written :
  Forall readable l1 →
  (∀ ps, PdfReader pdf ≠ Pages ps) →
  add_pages (l1 ++ pdf :: l2) written =
  inl (RuntimeError (match PdfReader pdf with
                     | MergeFails => FailedToMerge pdf
                     | _ => FailedToRead pdf
                     end)).
Proof.
  intros Hl1 Hbad. revert written.
  induction Hl1 as [|x l1 (ps & Hx) _ IH]; intros written; simpl.
  - destruct (PdfReader pdf) as [| |ps]; [done..|]. by destruct (Hbad ps).
  - by rewrite Hx.
Qed.

Lemma merge_pdfs_ok pdfs destination pss :
  backend = true →
  Forall2 (λ pdf ps, PdfReader pdf = Pages ps) pdfs pss →
  mkdir_ok (parent destination) = true →
  write_ok destination = true →
  merge_pdfs pdfs destination =
  ([EvMkdir (parent destination); EvWritePdf destination (concat pss)], None).
Proof.
  intros Hb Hpss Hmk Hwr. unfold merge_pdfs.
  by rewrite Hb, (add_pages_readable _ _ _ Hpss), Hmk, Hwr.
Qed.

Lemma try_body_result fs pdfs explicit_output :
  body_result fs pdfs (try_body fs pdfs explicit_output).
Proof.
  assert (∀ destination,
    (2 ≤ length pdfs)%nat → Forall (λ p, is_Some (fs !! p)) pdfs →
    body_result fs pdfs (merge_to pdfs destination)) as Hmerge.
  { intros destination Hlen Hall. unfold merge_to.
    destruct (expanduser destination) as [d|]; [|by apply body_failed].
    assert (∀ d', (PyStr.lower (suffix d') = ".pdf" ∨
                   ∃ d0, with_suffix d0 ".pdf" = Some d') →
      body_result fs pdfs
        match merge_pdfs pdfs d' with
        | (evs, Some e) => (evs, inl e)
        | (evs, None) =>
            ((evs ++ [EvLog (LogMerged (length pdfs) d');
                      EvShow KInfo (Merged (length pdfs) (PyPath.name d'))])%list,
             inr 0)
        end) as Hd.
    { intros d' Hsuffix. unfold merge_pdfs.
      destruct backend; simpl; [|by apply body_failed].
      destruct (add_pages pdfs []) as [e|pages] eqn:Hpages; [by apply body_failed|].
      apply add_pages_inv in Hpages as (pss & Hpss & ->).
      destruct (mkdir_ok (parent d')); simpl; [|by apply body_failed].
      destruct (write_ok d'); simpl; [|by apply body_failed].
      by apply body_merged. }
    case_bool_decide as Hsuf.
    - destruct (with_suffix d ".pdf") as [d'|] eqn:Hd'; [|by apply body_failed].
      apply Hd. right. by exists d.
    - apply Hd. by left. }
  unfold try_body. destruct pdfs as [|first_pdf rest]; [by apply body_refused|].
  case_bool_decide as Hmissing; [by apply body_refused|].
  destruct (length (first_pdf :: rest) <? 2)%nat eqn:Hlen; [by apply body_refused|].
  apply Nat.ltb_ge in Hlen.
  assert (Forall (λ p, is_Some (fs !! p)) (first_pdf :: rest)) as Hall.
  { apply Forall_forall. intros p Hp.
    destruct (decide (is_Some (fs !! p))) as [|Hno]; [done|].
    assert (p ∈ filter (λ p, ¬ is_Some (fs !! p)) (first_pdf :: rest)) as Hin
      by by apply list_elem_of_filter.
    rewrite Hmissing in Hin. by apply elem_of_nil in Hin. }
  destruct explicit_output as [destination|]; [by apply Hmerge|].
  destruct tk; [by apply body_refused| |];
    (destruct (_choose_output_path first_pdf);
       [by apply Hmerge|apply body_cancelled]).
Qed.

End Merging.

Section MergeEngine.
Import MergePdfs.
Context `{Engine}.

Lemma main_parsed fs argv pdfs out :
  _parse_args fs argv = inr (pdfs, out) → tk ≠ TkBroken →
  main fs argv =
  let (evs, r) := try_body fs (_deduplicate pdfs) out in
  let (shown, e) :=
    match r with
    | inr code => ([], Exit code)
    | inl (RuntimeError f) => ([EvShow KError (Failed f)], Exit 1)
    | inl e => ([], Uncaught e)
    end in
  (([EvLog (LogArgv argv); EvLog (LogDeduplicated (_deduplicate pdfs))] ++
    evs ++ shown ++ [EvLog LogFinished])%list, e).
Proof. intros Hp Htk. unfold main. rewrite Hp. by destruct tk. Qed.

Lemma main_not_parsed fs argv e :
  _parse_args fs argv = inl e →
  main fs argv = ([EvLog (LogArgv argv)], Uncaught e).
Proof. intros Hp. unfold main. by rewrite Hp. Qed.

Lemma main_tk_broken fs argv pdfs out :
  _parse_args fs argv = inr (pdfs, out) → tk = TkBroken →
  main fs argv =
  ([EvLog (LogArgv argv); EvLog (LogDeduplicated (_deduplicate pdfs))],
   Uncaught TclError).
Proof. intros Hp Htk. unfold main. by rewrite Hp, Htk. Qed.

Lemma writes_app a b : writes (a ++ b) = (writes a ++ writes b)%list.
Proof. apply omap_app. Qed.

Lemma shown_app a b : shown (a ++ b) = (shown a ++ shown b)%list.
Proof. apply omap_app. Qed.

(** The result of [main] when the body of its [try] is entered. *)
Lemma main_result fs argv pdfs out :
  _parse_args fs argv = inr (pdfs, out) → tk ≠ TkBroken →
  let ds := _deduplicate pdfs in
  let head := [EvLog (LogArgv argv); EvLog (LogDeduplicated ds)] in
  (∃ k m, k ≠ KInfo ∧
     main fs argv = ((head ++ [EvShow k m; EvLog LogFinished])%list, Exit 1)) ∨
  main fs argv = ((head ++ [EvLog LogFinished])%list, Exit 0) ∨
  (∃ destination pss,
     (2 ≤ length ds)%nat ∧
     Forall (λ p, is_Some (fs !! p)) ds ∧
     Forall2 (λ pdf ps, PdfReader pdf = Pages ps) ds pss ∧
     (PyStr.lower (suffix destination) = ".pdf" ∨
      ∃ d, with_suffix d ".pdf" = Some destination) ∧
     main fs argv =
     ((head ++ [EvMkdir (parent destination);
                EvWritePdf destination (concat pss);
                EvLog (LogMerged (length ds) destination);
                EvShow KInfo (Merged (length ds) (PyPath.name destination));
                EvLog LogFinished])%list, Exit 0)) ∨
  (∃ evs f, writes evs = [] ∧ shown evs = [] ∧
     main fs argv =
     ((head ++ evs ++ [EvShow KError (Failed f); EvLog LogFinished])%list, Exit 1)) ∨
  (∃ evs e, writes evs = [] ∧
     main fs argv = ((head ++ evs ++ [EvLog LogFinished])%list, Uncaught e)).
Proof.
  intros Hp Htk ds head. rewrite (main_parsed _ _ _ _ Hp Htk). fold ds.
  destruct (try_body_result fs ds out)
    as [k m Hk| |destination pss Hlen Hall Hpss Hsuf|evs e Hw Hs].
  - left. by exists k, m.
  - right; left. done.
  - do 2 right; left. by exists destination, pss.
  - destruct e as [|f| |]; [do 4 right; by exists evs, ValueError|
      |do 4 right; by exists evs, OSError|do 4 right; by exists evs, TclError].
    do 3 right; left. by exists evs, f.
Qed.

Lemma tk_cases : tk = TkBroken ∨ tk ≠ TkBroken.
Proof. destruct tk; auto; by right. Qed.

Lemma missing_nil (fs : gmap string file_data) (l : list string) :
  Forall (λ p, is_Some (fs !! p)) l → filter (λ p, ¬ is_Some (fs !! p)) l = [].
Proof.
  induction 1 as [|p l Hp _ IH]; [done|].
  rewrite filter_cons, decide_False by (intros Hn; by apply Hn). done.
Qed.

(** The body of the [try] on two or more inputs that all exist. *)
Lemma try_body_ready fs first_pdf rest out :
  rest ≠ [] →
  Forall (λ p, is_Some (fs !! p)) (first_pdf :: rest) →
  try_body fs (first_pdf :: rest) out =
  match out with
  | Some destination => merge_to (first_pdf :: rest) destination
  | None =>
      match tk with
      | TkMissing => ([EvShow KError NoSaveDialog], inr 1)
      | _ =>
          match _choose_output_path first_pdf with
          | None => ([], inr 0)
          | Some destination => merge_to (first_pdf :: rest) destination
          end
      end
  end.
Proof.
  intros Hrest Hall. unfold try_body.
  rewrite missing_nil by done. rewrite bool_decide_eq_false_2 by (intros Hn; by apply Hn).
  replace (length (first_pdf :: rest) <? 2)%nat with false; [done|].
  symmetry; apply Nat.ltb_ge. destruct rest; [done|simpl; lia].
Qed.

(** One input that exists is not enough. *)
Lemma main_one_input fs path :
  ¬ is_option path → expanduser path = Some path → is_Some (fs !! path) →
  tk ≠ TkBroken →
  main fs [path] =
  ([EvLog (LogArgv [path]); EvLog (LogDeduplicated [path]);
    EvShow KWarning SelectTwoOrMore; EvLog LogFinished], Exit 1).
Proof.
  intros Hopt Hexp Hex Htk.
  assert (_parse_args fs [path] = inr ([path], None)) as Hp.
  { unfold _parse_args. rewrite parse_from_existing; [done|]. by constructor. }
  rewrite (main_parsed _ _ _ _ Hp Htk). unfold _deduplicate. simpl.
  unfold deduplicate_step. simpl. rewrite decide_False by set_solver. simpl.
  rewrite filter_cons, decide_False by (intros Hn; by apply Hn).
  by rewrite filter_nil.
Qed.

End MergeEngine.

(** * The merge engine: what its functions guarantee *)

Section MergeEngineProperties.
Import MergePdfs.
Context `{Engine}.

(** X8. [_deduplicate] keeps the first path of every key and nothing else:
    its result is a sub-list of the input in the input's order, no two of
    its paths have the same key, every input path has its key among them,
    and a path that no earlier path shares its key with is kept as it was
    passed. *)
Theorem deduplicate_first_of_each_key (paths : list string) :
  _deduplicate paths `sublist_of` paths ∧
  NoDup (path_key <$> _deduplicate paths) ∧
  (∀ p, p ∈ paths → path_key p ∈ path_key <$> _deduplicate paths) ∧
  (∀ l1 p l2, paths = (l1 ++ p :: l2)%list →
     path_key p ∉ path_key <$> l1 → p ∈ _deduplicate paths).
Proof.
  rewrite deduplicate_first_by_key. split_and!.
  - apply first_by_key_sublist.
  - apply first_by_key_NoDup.
  - intros p Hp. by apply first_by_key_keys.
  - intros l1 p l2 -> Hp. rewrite cons_middle, app_assoc.
    destruct (first_by_key_app (l1 ++ [p]) l2) as (k & ->).
    rewrite first_by_key_snoc, decide_False by done.
    rewrite !elem_of_app, list_elem_of_singleton. tauto.
Qed.

(** X9. Paths with pairwise different keys pass [_deduplicate]
    unchanged. *)
Theorem deduplicate_distinct_unchanged (paths : list string) :
  NoDup (path_key <$> paths) → _deduplicate paths = paths.
Proof. intros Hnd. rewrite deduplicate_first_by_key. by apply first_by_key_fixed. Qed.

(** X10. Tokens that each name an existing file (and are neither an option
    nor a path into a home directory) are the inputs, in their order and
    unsplit, whatever spaces and [.pdf] they hold; no output is set. *)
Theorem parse_args_existing_files (fs : gmap string file_data)
    (argv : list string) :
  Forall (λ t, ¬ is_option t ∧ expanduser t = Some t ∧ is_Some (fs !! t)) argv →
  _parse_args fs argv = inr (argv, None).
Proof. intros Hargv. unfold _parse_args. by rewrite parse_from_existing. Qed.

(** X11. The output option may stand anywhere among the inputs: it leaves
    the parsed inputs as they are without it and sets the output to its
    value, which is taken as it is even when it reads like an option. *)
Theorem parse_args_output_anywhere (fs : gmap string file_data)
    (a b : list string) (opt o o' : string) :
  Forall (λ t, ¬ is_option t) a →
  Forall (λ t, ¬ is_option t) b →
  is_option opt →
  expanduser o = Some o' →
  _parse_args fs (a ++ opt :: o :: b) =
  match _parse_args fs (a ++ b) with
  | inl e => inl e
  | inr (pdfs, _) => inr (pdfs, Some o')
  end.
Proof.
  intros Ha Hb Hopt Ho. unfold _parse_args.
  rewrite !parse_from_app by done.
  rewrite (parse_from_output _ a) by done.
  destruct (parse_from fs a [] None) as [e|[pdfs ?]]; [done|].
  rewrite parse_from_option, Ho by done.
  rewrite (parse_from_output _ b _ (Some o')) by done.
  by destruct (parse_from fs b pdfs None) as [e|[pdfs' ?]].
Qed.

(** X12. An option as the last token, after inputs only, ends [main] with
    an exception that nothing catches, before the [try]: only the
    arguments are logged, no message is shown and the end of [main] is not
    logged. *)
Theorem main_option_without_value (fs : gmap string file_data)
    (a : list string) (opt : string) :
  Forall (λ t, ¬ is_option t) a →
  is_option opt →
  ∃ e, (e = ValueError ∨ e = RuntimeError NoHomeDirectory) ∧
       main fs (a ++ [opt]) = ([EvLog (LogArgv (a ++ [opt]))], Uncaught e).
Proof.
  intros Ha Hopt.
  destruct (_parse_args fs (a ++ [opt])) as [e|[pdfs out]] eqn:Hp.
  - exists e. split; [by eapply parse_from_errors|by apply main_not_parsed].
  - exfalso. unfold _parse_args in Hp. rewrite parse_from_app in Hp by done.
    destruct (parse_from fs a [] None) as [e|[pdfs' out']]; [done|].
    by rewrite parse_from_option in Hp.
Qed.

(** X13. Every input that [_parse_args] returns comes from the command
    line: it is a token with its home directory expanded, or it is such an
    expansion of a piece that the split found in a token and that names a
    file that exists. The piece is tested as it stands and expanded
    afterwards (lines 73 and 76), so an input that is no whole token is
    known to exist when its piece needed no expansion. *)
Theorem parse_args_inputs_from_argv (fs : gmap string file_data)
    (argv pdfs : list string) (output : option string) :
  _parse_args fs argv = inr (pdfs, output) →
  Forall (from_argv fs argv) pdfs ∧
  Forall (λ p, (∃ t, t ∈ argv ∧ expanduser t = Some p) ∨
               is_Some (fs !! p) ∨
               ∃ t q, t ∈ argv ∧ q ∈ potential_paths (re_split t) ∧
                      q ≠ p ∧ expanduser q = Some p) pdfs.
Proof.
  intros (new & -> & Hnew)%parse_from_sound. split; [done|].
  eapply Forall_impl; [done|].
  intros p [Htoken|(t & q & Ht & Hq & Hex & Hexp)]; [by left|right].
  destruct (decide (q = p)) as [<-|Hne]; [by left|right]. by exists t, q.
Qed.

(** X14. Two or more existing paths that Explorer passes as one token,
    joined by single spaces, are found again: when each of them ends in
    [.pdf], is left whole by the split and begins with no white space or
    tilde, and the token itself names no file, the inputs are these
    paths. *)
Theorem parse_args_splits_joined_token (fs : gmap string file_data)
    (paths : list string) :
  (2 ≤ length paths)%nat →
  Forall splittable paths →
  Forall (λ p, String.prefix "~" p = false) paths →
  Forall (λ p, is_Some (fs !! p)) paths →
  fs !! join_paths paths = None →
  _parse_args fs [join_paths paths] = inr (paths, None).
Proof.
  intros Hlen Hsplit Htilde Hex Hnone.
  destruct paths as [|p [|p' rest]]; [simpl in Hlen; lia..|].
  set (token := join_paths (p :: p' :: rest)) in *.
  assert (PyStr.any (λ c, bool_decide (c = " "%char)) token = true) as Hspace
    by apply any_space_join.
  assert (¬ is_option token) as Hopt.
  { intros [Ho|Ho]; by rewrite Ho in Hspace. }
  assert (expanduser token = Some token) as Hexp.
  { apply expanduser_no_tilde. destruct (join_paths_head p (p' :: rest)) as (t & Ht).
    fold token in Ht. rewrite Ht, prefix_tilde_app; [by apply Forall_inv in Htilde|].
    apply Forall_inv in Hsplit. by destruct (splittable_head p Hsplit) as (c & s & -> & _). }
  unfold _parse_args. rewrite parse_from_input, Hexp by done. cbv zeta.
  unfold exists_in at 1. rewrite bool_decide_eq_false_2
    by (rewrite Hnone; by intros [? ?]).
  rewrite Hspace.
  pose proof (count_pdf_join _ Hsplit) as Hcount. fold token in Hcount.
  simpl length in Hcount.
  replace (1 <? count_pdf (PyStr.lower token))%nat with true
    by (symmetry; apply Nat.ltb_lt; lia).
  cbn [negb andb]. unfold token. rewrite potential_paths_join by done.
  replace (1 <? length (p :: p' :: rest))%nat with true
    by (symmetry; apply Nat.ltb_lt; simpl; lia).
  replace (forallb (exists_in fs) (p :: p' :: rest)) with true.
  - cbn [andb]. by rewrite expand_all_no_tilde.
  - symmetry. apply forallb_forall. intros x Hx%list_elem_of_In.
    rewrite Forall_forall in Hex. unfold exists_in. apply bool_decide_eq_true_2; auto.
Qed.

(** X15. When a backend is there, every input can be read, and the
    directory and the file of the destination can be written,
    [merge_pdfs] writes one document: the pages of the inputs, input after
    input in the order given, after making the directory; nothing is
    raised. *)
Theorem merge_pdfs_writes_all_pages (pdfs : list string) (destination : string)
    (pss : list (list page)) :
  backend = true →
  Forall2 (λ pdf ps, PdfReader pdf = Pages ps) pdfs pss →
  mkdir_ok (parent destination) = true →
  write_ok destination = true →
  merge_pdfs pdfs destination =
  ([EvMkdir (parent destination); EvWritePdf destination (concat pss)], None).
Proof. apply merge_pdfs_ok. Qed.

(** X16. The first input that cannot be read or added stops [merge_pdfs]:
    it raises the error that names this input, later inputs are not
    looked at, and neither the directory nor the document is written. *)
Theorem merge_pdfs_stops_at_first_bad_input (l1 l2 : list string)
    (pdf destination : string) :
  backend = true →
  Forall readable l1 →
  (∀ ps, PdfReader pdf ≠ Pages ps) →
  merge_pdfs (l1 ++ pdf :: l2) destination =
  ([], Some (RuntimeError (match PdfReader pdf with
                           | MergeFails => FailedToMerge pdf
                           | _ => FailedToRead pdf
                           end))).
Proof.
  intros Hb Hl1 Hbad. unfold merge_pdfs.
  by rewrite Hb, add_pages_first_bad.
Qed.

(** X17. With fewer than two different inputs, or with an input that does
    not exist, [main] merges nothing: it shows one message that tells
    which of the three refusals it is, and returns 1. *)
Theorem main_refuses (fs : gmap string file_data) (argv pdfs : list string)
    (out : option string) :
  _parse_args fs argv = inr (pdfs, out) →
  tk ≠ TkBroken →
  let ds := _deduplicate pdfs in
  let missing := filter (λ p, ¬ is_Some (fs !! p)) ds in
  (length ds < 2)%nat ∨ (∃ p, p ∈ ds ∧ fs !! p = None) →
  main fs argv =
  ([EvLog (LogArgv argv); EvLog (LogDeduplicated ds);
    match ds with
    | [] => EvShow KError SelectAtLeastTwo
    | _ => if decide (missing = []) then EvShow KWarning SelectTwoOrMore
           else EvShow KError (FilesNotFound missing)
    end;
    EvLog LogFinished], Exit 1).
Proof.
  intros Hp Htk ds missing Hfew. rewrite (main_parsed _ _ _ _ Hp Htk). fold ds.
  unfold try_body. destruct ds as [|first_pdf rest] eqn:Hds; [done|].
  fold missing. case_bool_decide as Hmissing.
  { by rewrite decide_False. }
  rewrite decide_True by done.
  destruct Hfew as [Hlen|(p & Hin & Hnone)].
  - apply Nat.ltb_lt in Hlen. by rewrite Hlen.
  - exfalso. assert (p ∈ missing) as Hpm.
    { apply list_elem_of_filter. split; [|done]. rewrite Hnone. by intros [? ?]. }
    rewrite Hmissing in Hpm. by apply elem_of_nil in Hpm.
Qed.

(** X18. A document that [main] writes is a complete merge: the command
    line was parsed, the inputs without duplicates are at least two, all
    of them exist and were read, the document holds their pages in their
    order, its name ends in [.pdf] (as given, or by [with_suffix]), and
    [main] reports the merge and returns 0. *)
Theorem main_write_is_complete (fs : gmap string file_data) (argv : list string)
    (destination : string) (pages : list page) :
  EvWritePdf destination pages ∈ (main fs argv).1 →
  ∃ pdfs out pss,
    _parse_args fs argv = inr (pdfs, out) ∧
    let ds := _deduplicate pdfs in
    (2 ≤ length ds)%nat ∧
    Forall (λ p, is_Some (fs !! p)) ds ∧
    Forall2 (λ pdf ps, PdfReader pdf = Pages ps) ds pss ∧
    pages = concat pss ∧
    (PyStr.lower (suffix destination) = ".pdf" ∨
     ∃ d, with_suffix d ".pdf" = Some destination) ∧
    main fs argv =
    ([EvLog (LogArgv argv); EvLog (LogDeduplicated ds);
      EvMkdir (parent destination);
      EvWritePdf destination pages;
      EvLog (LogMerged (length ds) destination);
      EvShow KInfo (Merged (length ds) (PyPath.name destination));
      EvLog LogFinished], Exit 0).
Proof.
  intros Hin.
  assert (∀ evs, EvWritePdf destination pages ∈ evs → writes evs ≠ []) as Hwrites.
  { intros evs Hevs Hnil.
    assert ((destination, pages) ∈ writes evs) as Hw.
    { apply list_elem_of_omap. by exists (EvWritePdf destination pages). }
    rewrite Hnil in Hw. by apply elem_of_nil in Hw. }
  destruct (_parse_args fs argv) as [e|[pdfs out]] eqn:Hp.
  { rewrite (main_not_parsed _ _ _ Hp) in Hin. by apply Hwrites in Hin. }
  destruct tk_cases as [Htk|Htk].
  { rewrite (main_tk_broken _ _ _ _ Hp Htk) in Hin. by apply Hwrites in Hin. }
  exists pdfs, out.
  destruct (main_result _ _ _ _ Hp Htk)
    as [(k & m & _ & Hm)|[Hm|[(d & pss & Hlen & Hall & Hpss & Hsuf & Hm)|
        [(evs & f & Hw & _ & Hm)|(evs & e & Hm)]]]];
    [..|destruct Hm as [Hw Hm]];
    rewrite Hm in Hin |- *; cbn [fst] in Hin.
  - by apply Hwrites in Hin.
  - by apply Hwrites in Hin.
  - exists pss.
    assert (destination = d ∧ pages = concat pss) as [-> ->].
    { apply Hwrites in Hin as Hne. clear Hne.
      repeat (apply elem_of_cons in Hin as [Hin|Hin]; [try done|]).
      - by injection Hin as -> ->.
      - by apply elem_of_nil in Hin. }
    done.
  - exfalso. apply Hwrites in Hin. apply Hin.
    rewrite !writes_app, Hw. done.
  - exfalso. apply Hwrites in Hin. apply Hin.
    rewrite !writes_app, Hw. done.
Qed.

(** X19. When [main] returns, it returns 0 or 1 and its last log line is
    the end of [main]. With 0 it has shown nothing and written nothing
    (the dialog was cancelled), or has written one document and shown its
    success; with 1 it has written no document and shown exactly one
    message, an error or a warning. *)
Theorem main_exit_code (fs : gmap string file_data) (argv : list string)
    (code : Z) :
  (main fs argv).2 = Exit code →
  let evs := (main fs argv).1 in
  last evs = Some (EvLog LogFinished) ∧
  (code = 0 ∧
     (writes evs = [] ∧ shown evs = [] ∨
      ∃ d ps n name, writes evs = [(d, ps)] ∧ shown evs = [(KInfo, Merged n name)])
   ∨
   code = 1 ∧ writes evs = [] ∧ ∃ k m, k ≠ KInfo ∧ shown evs = [(k, m)]).
Proof.
  intros Hexit evs. subst evs.
  destruct (_parse_args fs argv) as [e|[pdfs out]] eqn:Hp.
  { by rewrite (main_not_parsed _ _ _ Hp) in Hexit. }
  destruct tk_cases as [Htk|Htk].
  { by rewrite (main_tk_broken _ _ _ _ Hp Htk) in Hexit. }
  destruct (main_result _ _ _ _ Hp Htk)
    as [(k & m & Hk & Hm)|[Hm|[(d & pss & Hlen & Hall & Hpss & Hsuf & Hm)|
        [(evs & f & Hw & Hs & Hm)|(evs & e & Hw & Hm)]]]];
    rewrite Hm in Hexit |- *; cbn [fst snd] in Hexit |- *;
    try injection Hexit as <-; try done.
  - split; [done|]. right. split_and!; [done..|]. by exists k, m.
  - split; [done|]. left. split; [done|]. by left.
  - split; [done|]. left. split; [done|]. right. by eexists _, _, _, _.
  - split.
    { change [EvShow KError (Failed f); EvLog LogFinished]
        with ([EvShow KError (Failed f)] ++ [EvLog LogFinished])%list.
      rewrite !app_assoc. apply last_snoc. }
    right. split; [done|]. rewrite !writes_app, !shown_app, Hw, Hs.
    split; [done|]. by exists KError, (Failed f).
Qed.

(** X20. A run on existing inputs with different keys, with the output
    option after them and a destination that ends in [.pdf], merges them:
    when the backend reads every input and the destination can be
    written, [main] writes the pages of the inputs in the order of the
    command line, reports it, and returns 0. *)
Theorem main_merges_to_output (fs : gmap string file_data)
    (inputs : list string) (opt destination : string)
    (pss : list (list page)) :
  (2 ≤ length inputs)%nat →
  Forall (λ t, ¬ is_option t ∧ expanduser t = Some t ∧ is_Some (fs !! t)) inputs →
  NoDup (path_key <$> inputs) →
  is_option opt →
  expanduser destination = Some destination →
  PyStr.lower (suffix destination) = ".pdf" →
  tk ≠ TkBroken →
  backend = true →
  Forall2 (λ pdf ps, PdfReader pdf = Pages ps) inputs pss →
  mkdir_ok (parent destination) = true →
  write_ok destination = true →
  main fs (inputs ++ [opt; destination]) =
  ([EvLog (LogArgv (inputs ++ [opt; destination]));
    EvLog (LogDeduplicated inputs);
    EvMkdir (parent destination);
    EvWritePdf destination (concat pss);
    EvLog (LogMerged (length inputs) destination);
    EvShow KInfo (Merged (length inputs) (PyPath.name destination));
    EvLog LogFinished], Exit 0).
Proof.
  intros Hlen Hin Hnd Hopt Hexp Hsuf Htk Hb Hpss Hmk Hwr.
  assert (_parse_args fs (inputs ++ [opt; destination]) =
          inr (inputs, Some destination)) as Hp.
  { unfold _parse_args. rewrite parse_from_app
      by (eapply Forall_impl; [done|]; by intros t (? & _)).
    rewrite parse_from_existing by done.
    by rewrite parse_from_option, Hexp by done. }
  assert (Forall (λ p, is_Some (fs !! p)) inputs) as Hex
    by (eapply Forall_impl; [done|]; by intros t (_ & _ & ?)).
  rewrite (main_parsed _ _ _ _ Hp Htk).
  rewrite deduplicate_first_by_key, first_by_key_fixed by done.
  destruct inputs as [|first_pdf [|second_pdf rest]]; [simpl in Hlen; lia..|].
  rewrite try_body_ready by done. unfold merge_to. rewrite Hexp.
  rewrite bool_decide_eq_false_2 by (intros Hn; by apply Hn).
  by rewrite (merge_pdfs_ok _ _ _ Hb Hpss Hmk Hwr).
Qed.

(** X21. Without the output option, [main] asks for the destination in a
    save dialog that opens in the directory of the first input and
    proposes its stem with [_merged.pdf], and what it does rests on the
    answer to this question. When the user cancels, nothing is written, no
    message is shown and [main] returns 0. When the user gives a name that
    ends in [.pdf], and the backend reads every input and the destination
    can be written, [main] merges the inputs into the file of this name,
    reports it, and returns 0. *)
Theorem main_save_dialog (fs : gmap string file_data)
    (first_pdf : string) (rest : list string) :
  rest ≠ [] →
  Forall (λ t, ¬ is_option t ∧ expanduser t = Some t ∧ is_Some (fs !! t))
         (first_pdf :: rest) →
  NoDup (path_key <$> first_pdf :: rest) →
  tk = TkReady →
  let inputs := first_pdf :: rest in
  let answer :=
    asksaveasfilename (parent first_pdf) (stem first_pdf +:+ "_merged.pdf") in
  (answer = "" →
   main fs inputs =
   ([EvLog (LogArgv inputs); EvLog (LogDeduplicated inputs);
     EvLog LogFinished], Exit 0)) ∧
  (∀ pss,
     answer ≠ "" →
     expanduser answer = Some answer →
     PyStr.lower (suffix answer) = ".pdf" →
     backend = true →
     Forall2 (λ pdf ps, PdfReader pdf = Pages ps) inputs pss →
     mkdir_ok (parent answer) = true →
     write_ok answer = true →
     main fs inputs =
     ([EvLog (LogArgv inputs); EvLog (LogDeduplicated inputs);
       EvMkdir (parent answer);
       EvWritePdf answer (concat pss);
       EvLog (LogMerged (length inputs) answer);
       EvShow KInfo (Merged (length inputs) (PyPath.name answer));
       EvLog LogFinished], Exit 0)).
Proof.
  intros Hrest Hin Hnd Htk inputs answer.
  assert (Forall (λ p, is_Some (fs !! p)) inputs) as Hex
    by (eapply Forall_impl; [done|]; by intros t (_ & _ & ?)).
  assert (_parse_args fs inputs = inr (inputs, None)) as Hp
    by (unfold _parse_args; by rewrite parse_from_existing).
  assert (main fs inputs =
    let (evs, r) :=
      match (if bool_decide (answer = "") then None else Some answer) with
      | None => ([], inr 0)
      | Some destination => merge_to inputs destination
      end in
    let (shown, e) :=
      match r with
      | inr code => ([], Exit code)
      | inl (RuntimeError f) => ([EvShow KError (Failed f)], Exit 1)
      | inl e => ([], Uncaught e)
      end in
    (([EvLog (LogArgv inputs); EvLog (LogDeduplicated inputs)] ++
      evs ++ shown ++ [EvLog LogFinished])%list, e)) as Hmain.
  { rewrite (main_parsed _ _ _ _ Hp) by (by rewrite Htk).
    rewrite deduplicate_first_by_key, first_by_key_fixed by done.
    unfold inputs. rewrite try_body_ready by done.
    by rewrite Htk. }
  split.
  - intros Hcancel. rewrite Hmain.
    by rewrite bool_decide_eq_true_2.
  - intros pss Hanswer Hexp Hsuf Hb Hpss Hmk Hwr. rewrite Hmain.
    rewrite bool_decide_eq_false_2 by done.
    unfold merge_to. rewrite Hexp.
    rewrite bool_decide_eq_false_2 by (intros Hn; by apply Hn).
    by rewrite (merge_pdfs_ok _ _ _ Hb Hpss Hmk Hwr).
Qed.

End MergeEngineProperties.

(** * The handler and the engine together *)

(** X22. A selection of one document ends in a refusal: the handler that
    runs alone starts the engine with this path as its only argument, and
    the engine, on the files the handler leaves, finds one input, shows
    the warning that two or more are needed, and returns 1 without
    writing. *)
Theorem single_selection_is_refused `{Platform} `{MergePdfs.Engine}
    (prog path : string) (t1 t2 : Z) (w : world) :
  float_round_trip →
  is_Some (w_fs w !! path) →
  plain_path path →
  path ∉ session_paths →
  w_fs w !! collection get_session_files = None →
  t1 + sleep_ms ≤ t2 →
  is_Some (w_fs w !! pyw_exe) →
  is_Some (w_fs w !! merge_script) →
  ¬ MergePdfs.is_option path →
  MergePdfs.expanduser path = Some path →
  MergePdfs.tk ≠ MergePdfs.TkBroken →
  let handler := main [prog; path] true t1 true t2 in
  popens (events_of handler w) = [[pyw_exe; merge_script; path]] ∧
  MergePdfs.main (w_fs (exec handler w)) [path] =
  ([MergePdfs.EvLog (MergePdfs.LogArgv [path]);
    MergePdfs.EvLog (MergePdfs.LogDeduplicated [path]);
    MergePdfs.EvShow MergePdfs.KWarning MergePdfs.SelectTwoOrMore;
    MergePdfs.EvLog MergePdfs.LogFinished], MergePdfs.Exit 1).
Proof.
  intros Hfloat Hex Hplain Hout Hnone Hsleep Hpyw Hscript Hopt Hexp Htk handler.
  pose proof (main_alone Hfloat prog path t1 t2 w Hex Hplain Hnone Hsleep Hpyw Hscript)
    as Hrun.
  fold handler in Hrun. split.
  - erewrite events_of_app; [|exact Hrun|reflexivity].
    rewrite !popens_app, popens_registration. done.
  - unfold exec. rewrite Hrun. cbn [snd w_fs].
    apply main_one_input; try done. by rewrite cleaned_fs_frame.
Qed.

(** * The further properties on the concrete host *)

Section HandlerConcrete.
#[local] Existing Instance windows_host.
Import Scenario MergeScenario Corner.

Ltac evaluate := vm_compute; repeat first [reflexivity | exact I | constructor | eexists].

Ltac outside := apply (bool_decide_unpack _); vm_compute; exact I.

Lemma main_never_raises_witness :
  let argv := ["merge_pdf_handler.py"; report] in
  let w := start sel_fs in
  (handler_body w = (Raised OSError, failed_world) ∧ OSError ≠ Timeout) ∧
  Faulty.guarded write_fails handler_body w =
    (Normal tt,
     {| w_fs := <[error_log := Text "Error"]> (w_fs failed_world);
        w_trace := w_trace failed_world ++ [EvAppend error_log "Error"] |}) ∧
  Faulty.main write_fails argv true 0 true 600 w =
    Faulty.guarded write_fails handler_body w.
Proof.
  intros argv w.
  assert (handler_body w = (Raised OSError, failed_world)) as H1
    by (vm_compute; reflexivity).
  assert (OSError ≠ Timeout) as H2 by discriminate.
  destruct (main_never_raises write_fails argv true true 0 600 w)
    as (_ & _ & _ & Hlog & _).
  exact (conj (conj H1 H2) (conj (Hlog handler_body w failed_world OSError H1 H2)
                                 eq_refl)).
Defined.

Lemma main_touches_session_files_only_witness :
  let argv := ["merge_pdf_handler.py"; report] in
  let w := start sel_fs in
  ((report ∉ session_paths) ∧ report ≠ error_log ∧ report ≠ lock get_session_files) ∧
  w_fs (exec (Faulty.main write_fails argv true 0 true 600) w) !! report =
    w_fs w !! report ∧
  (length (popens (events_of (Faulty.main write_fails argv true 0 true 600) w)) ≤ 1)%nat.
Proof.
  intros argv w.
  assert (report ∉ session_paths) as H1 by outside.
  assert (report ≠ error_log) as H2 by discriminate.
  assert (report ≠ lock get_session_files) as H3 by discriminate.
  destruct (main_touches_session_files_only write_fails argv true true 0 600 w)
    as (Hframe & Hone & _).
  exact (conj (conj H1 (conj H2 H3)) (conj (Hframe report H1 H2 H3) Hone)).
Defined.

Lemma popen_is_well_formed_witness :
  let w := nested_world in
  let cmd := [pyw_exe; merge_script; alpha; beta; gamma] in
  let w' := exec (main_after_sleep true 620) w in
  (cmd ∈ popens (events_of (main_after_sleep true 620) w) ∧ lower_on_ascii ∧
   Forall (λ x, PyStr.any (λ c, negb (PyStr.is_ascii c)) (PyPath.name x) = false)
          [alpha; beta; gamma] ∧
   "C:\y" ≠ "" ∧ "C:\x" ≠ "" ∧ file_name "a.pdf" ∧ file_name "C.pdf") ∧
  w_fs w !! collection get_session_files =
    Some (Text (collection_text [beta; alpha; gamma])) ∧
  ∃ unique,
    cmd = ([pyw_exe; merge_script] ++ unique)%list ∧
    unique ≠ [] ∧ NoDup unique ∧ Sorted name_le unique ∧
    String.le (str_lower "a.pdf") (str_lower "C.pdf") ∧
    Sorted (λ x y, String.le (PyStr.lower (PyPath.name x))
                             (PyStr.lower (PyPath.name y))) unique ∧
    is_Some (w_fs w' !! pyw_exe) ∧ is_Some (w_fs w' !! merge_script) ∧
    fresh (w_fs w') ∧
    Forall (λ x, x ∈ session_paths ∨ is_Some (w_fs w' !! x)) unique.
Proof.
  intros w cmd w'.
  assert (cmd ∈ popens (events_of (main_after_sleep true 620) w)) as H1 by evaluate.
  assert (lower_on_ascii) as H2 by exact latin1_lower_on_ascii.
  assert (Forall (λ x, PyStr.any (λ c, negb (PyStr.is_ascii c)) (PyPath.name x) = false)
                 [alpha; beta; gamma]) as H3 by (repeat constructor).
  assert (w_fs w !! collection get_session_files =
          Some (Text (collection_text [beta; alpha; gamma]))) as H4
    by (vm_compute; reflexivity).
  assert ("C:\y" ≠ "") as H5 by discriminate.
  assert ("C:\x" ≠ "") as H6 by discriminate.
  assert (file_name "a.pdf") as H7
    by (split; [discriminate|split; [discriminate|reflexivity]]).
  assert (file_name "C.pdf") as H8
    by (split; [discriminate|split; [discriminate|reflexivity]]).
  destruct (popen_is_well_formed true 620 w cmd H1)
    as (unique & Hcmd & Hne & Hnd & Hs & Hnames & Hascii & Hpyw & Hscript &
        Hfresh & Hex).
  assert (unique = [alpha; beta; gamma]) as Hu by (by injection Hcmd as <-).
  assert (unique !! 0%nat = Some (PyPath.joinpath "C:\y" "a.pdf")) as Hfirst
    by (rewrite Hu; reflexivity).
  assert (unique !! 2%nat = Some (PyPath.joinpath "C:\x" "C.pdf")) as Hlast
    by (rewrite Hu; reflexivity).
  assert (0 ≤ 2)%nat as Hle by lia.
  refine (conj (conj H1 (conj H2 (conj H3 (conj H5 (conj H6 (conj H7 H8))))))
               (conj H4 _)).
  exists unique.
  refine (conj Hcmd (conj Hne (conj Hnd (conj Hs
           (conj (Hnames _ _ _ _ _ _ Hle Hfirst Hlast H5 H6 H7 H8)
             (conj (Hascii H2 _)
               (conj Hpyw (conj Hscript (conj Hfresh Hex))))))))).
  rewrite Hu. exact H3.
Defined.

Lemma lone_run_launches_its_path_witness :
  let w := start stale_fs in
  (float_round_trip ∧ is_Some (w_fs w !! report) ∧ plain_path report ∧
   w_fs w !! collection get_session_files = None ∧ 0 + sleep_ms ≤ 600 ∧
   is_Some (w_fs w !! pyw_exe) ∧ is_Some (w_fs w !! merge_script)) ∧
  main ["merge_pdf_handler.py"; report] true 0 true 600 w =
  (Normal tt,
   {| w_fs := cleaned_fs (w_fs w);
      w_trace := w_trace w ++ registration_events (report, 0) ++
                 [EvWrite (launcher_flag get_session_files) "1"] ++ cleanup_events ++
                 [EvPopen [pyw_exe; merge_script; report]] |}).
Proof.
  intros w.
  assert (float_round_trip) as H1 by exact decimal_round_trip.
  assert (is_Some (w_fs w !! report)) as H2 by evaluate.
  assert (plain_path report) as H3 by (split; [discriminate|vm_compute; split; reflexivity]).
  assert (w_fs w !! collection get_session_files = None) as H4 by (vm_compute; reflexivity).
  assert (0 + sleep_ms ≤ 600) as H5 by (unfold sleep_ms; lia).
  assert (is_Some (w_fs w !! pyw_exe)) as H6 by evaluate.
  assert (is_Some (w_fs w !! merge_script)) as H7 by evaluate.
  split; [exact (conj H1 (conj H2 (conj H3 (conj H4 (conj H5 (conj H6 H7))))))|].
  exact (lone_run_launches_its_path "merge_pdf_handler.py" report 0 600 w
           H1 H2 H3 H4 H5 H6 H7).
Defined.

Lemma undecodable_collection_blocks_witness :
  let s := boot garbled_fs in
  let s' := after three_files s in
  (w_fs (sys_world s) !! collection get_session_files = Some Undecodable ∧
   run three_files s = Some s') ∧
  w_fs (sys_world s') !! collection get_session_files = Some Undecodable ∧
  popens (w_trace (sys_world s')) = popens (w_trace (sys_world s)).
Proof.
  intros s s'.
  assert (w_fs (sys_world s) !! collection get_session_files = Some Undecodable) as H1
    by (vm_compute; reflexivity).
  assert (run three_files s = Some s') as H2 by (vm_compute; reflexivity).
  exact (conj (conj H1 H2) (undecodable_collection_blocks three_files s s' H1 H2)).
Defined.

Lemma successive_waves_are_independent_witness :
  let s0 := boot sel_fs in
  let sA := after three_files s0 in
  let s := after second_wave sA in
  (float_round_trip ∧ fresh (w_fs (sys_world s0)) ∧ sys_sleeping s0 = ∅ ∧
   run three_files s0 = Some sA ∧ run second_wave sA = Some s ∧
   Forall lock_granted (three_files ++ second_wave) ∧
   one_wave three_files ∧ one_wave second_wave ∧
   registered three_files ≠ [] ∧ registered second_wave ≠ [] ∧
   sys_sleeping sA = ∅ ∧ sys_sleeping s = ∅) ∧
  run (three_files ++ second_wave) s0 = Some s ∧
  fresh (w_fs (sys_world sA)) ∧
  fresh (w_fs (sys_world s)) ∧
  ∃ fsA fsB,
    w_trace (sys_world s) =
    (w_trace (sys_world s0) ++
     wave_events (registered three_files) ++ leader_events fsA (registered three_files) ++
     wave_events (registered second_wave) ++ leader_events fsB (registered second_wave))%list.
Proof.
  intros s0 sA s.
  assert (float_round_trip) as H1 by exact decimal_round_trip.
  assert (fresh (w_fs (sys_world s0))) as H2 by evaluate.
  assert (sys_sleeping s0 = ∅) as H3 by reflexivity.
  assert (run three_files s0 = Some sA) as H4 by (vm_compute; reflexivity).
  assert (run second_wave sA = Some s) as H5 by (vm_compute; reflexivity).
  assert (Forall lock_granted (three_files ++ second_wave)) as H6 by evaluate.
  assert (one_wave three_files) as H7 by (apply one_wave_Forall; evaluate).
  assert (one_wave second_wave) as H8 by (apply one_wave_Forall; evaluate).
  assert (registered three_files ≠ []) as H9 by discriminate.
  assert (registered second_wave ≠ []) as H10 by discriminate.
  assert (sys_sleeping sA = ∅) as H11 by (vm_compute; reflexivity).
  assert (sys_sleeping s = ∅) as H12 by (vm_compute; reflexivity).
  split; [exact (conj H1 (conj H2 (conj H3 (conj H4 (conj H5 (conj H6 (conj H7
            (conj H8 (conj H9 (conj H10 (conj H11 H12)))))))))))|].
  exact (successive_waves_are_independent s0 sA s three_files second_wave
           H1 H2 H3 H4 H5 H6 H7 H8 H9 H10 H11 H12).
Defined.

Lemma no_leader_soon_after_registration_witness :
  let w := start stale_fs in
  let w1 := exec (main_before_sleep ["merge_pdf_handler.py"; report] true 0) w in
  (float_round_trip ∧ is_Some (w_fs w !! report) ∧ 499 < 0 + 500) ∧
  exec (main_after_sleep true 499) w1 = w1 ∧
  events_of (main_after_sleep true 499) w1 = [].
Proof.
  intros w w1.
  assert (float_round_trip) as H1 by exact decimal_round_trip.
  assert (is_Some (w_fs w !! report)) as H2 by evaluate.
  assert (499 < 0 + 500) as H3 by lia.
  exact (conj (conj H1 (conj H2 H3))
           (no_leader_soon_after_registration "merge_pdf_handler.py" report 0 499 true w
              H1 H2 H3)).
Defined.

End HandlerConcrete.

Section EngineConcrete.
#[local] Existing Instance windows_host.
#[local] Existing Instance MergeScenario.desk.
Import Scenario MergeScenario MergePdfs.

Ltac evaluate := vm_compute; repeat first [reflexivity | exact I | constructor | eexists].

Ltac decided := apply (bool_decide_unpack _); vm_compute; exact I.

Ltac no_option := intros [Ho|Ho]; discriminate Ho.

(** A token that is an input as it stands and names a file of [desk_fs]. *)
Ltac input := split; [no_option|split; [vm_compute; reflexivity|evaluate]].

Lemma deduplicate_first_of_each_key_witness :
  let upper := "C:\SEL\REPORT.PDF" in
  let paths := [report; upper; cover] in
  (upper ∈ paths ∧ paths = ([report; upper] ++ cover :: [])%list ∧
   path_key cover ∉ path_key <$> [report; upper]) ∧
  _deduplicate paths `sublist_of` paths ∧
  NoDup (path_key <$> _deduplicate paths) ∧
  path_key upper ∈ path_key <$> _deduplicate paths ∧
  cover ∈ _deduplicate paths.
Proof.
  intros upper paths.
  assert (upper ∈ paths) as H1 by evaluate.
  assert (paths = ([report; upper] ++ cover :: [])%list) as H2 by reflexivity.
  assert (path_key cover ∉ path_key <$> [report; upper]) as H3 by decided.
  destruct (deduplicate_first_of_each_key paths) as (Hsub & Hnd & Hkeys & Hfirst).
  exact (conj (conj H1 (conj H2 H3))
           (conj Hsub (conj Hnd (conj (Hkeys upper H1)
              (Hfirst [report; upper] cover [] H2 H3))))).
Defined.

Lemma deduplicate_distinct_unchanged_witness :
  let paths := [report; cover; appendix] in
  NoDup (path_key <$> paths) ∧ _deduplicate paths = paths.
Proof.
  intros paths.
  assert (NoDup (path_key <$> paths)) as H1 by decided.
  exact (conj H1 (deduplicate_distinct_unchanged paths H1)).
Defined.

Lemma parse_args_existing_files_witness :
  let argv := [memo; notes; report] in
  Forall (λ t, ¬ is_option t ∧ expanduser t = Some t ∧ is_Some (desk_fs !! t)) argv ∧
  _parse_args desk_fs argv = inr (argv, None).
Proof.
  intros argv.
  assert (Forall (λ t, ¬ is_option t ∧ expanduser t = Some t ∧
                       is_Some (desk_fs !! t)) argv) as H1
    by (repeat (constructor; [input|]); constructor).
  exact (conj H1 (parse_args_existing_files desk_fs argv H1)).
Defined.

Lemma parse_args_output_anywhere_witness :
  let a := [report] in
  let b := [cover] in
  (Forall (λ t, ¬ is_option t) a ∧ Forall (λ t, ¬ is_option t) b ∧
   is_option "-o" ∧ expanduser "--output" = Some "--output") ∧
  _parse_args desk_fs (a ++ "-o" :: "--output" :: b) =
  match _parse_args desk_fs (a ++ b) with
  | inl e => inl e
  | inr (pdfs, _) => inr (pdfs, Some "--output")
  end.
Proof.
  intros a b.
  assert (Forall (λ t, ¬ is_option t) a) as H1 by (constructor; [no_option|constructor]).
  assert (Forall (λ t, ¬ is_option t) b) as H2 by (constructor; [no_option|constructor]).
  assert (is_option "-o") as H3 by (by left).
  assert (expanduser "--output" = Some "--output") as H4 by reflexivity.
  exact (conj (conj H1 (conj H2 (conj H3 H4)))
           (parse_args_output_anywhere desk_fs a b "-o" "--output" "--output"
              H1 H2 H3 H4)).
Defined.

Lemma main_option_without_value_witness :
  let a := [report; cover] in
  (Forall (λ t, ¬ is_option t) a ∧ is_option "--output") ∧
  ∃ e, (e = ValueError ∨ e = RuntimeError NoHomeDirectory) ∧
       main desk_fs (a ++ ["--output"]) =
       ([EvLog (LogArgv (a ++ ["--output"]))], Uncaught e).
Proof.
  intros a.
  assert (Forall (λ t, ¬ is_option t) a) as H1
    by (repeat (constructor; [no_option|]); constructor).
  assert (is_option "--output") as H2 by (by right).
  exact (conj (conj H1 H2) (main_option_without_value desk_fs a "--output" H1 H2)).
Defined.

Lemma parse_args_inputs_from_argv_witness :
  let argv := [joined; "-o"; merged] in
  _parse_args desk_fs argv = inr ([memo; notes], Some merged) ∧
  Forall (from_argv desk_fs argv) [memo; notes] ∧
  Forall (λ p, (∃ t, t ∈ argv ∧ expanduser t = Some p) ∨
               is_Some (desk_fs !! p) ∨
               ∃ t q, t ∈ argv ∧ q ∈ potential_paths (re_split t) ∧
                      q ≠ p ∧ expanduser q = Some p) [memo; notes].
Proof.
  intros argv.
  assert (_parse_args desk_fs argv = inr ([memo; notes], Some merged)) as H1
    by (vm_compute; reflexivity).
  exact (conj H1 (parse_args_inputs_from_argv desk_fs argv [memo; notes] (Some merged) H1)).
Defined.

Lemma parse_args_splits_joined_token_witness :
  let paths := [memo; notes] in
  ((2 ≤ length paths)%nat ∧ Forall splittable paths ∧
   Forall (λ p, String.prefix "~" p = false) paths ∧
   Forall (λ p, is_Some (desk_fs !! p)) paths ∧
   desk_fs !! join_paths paths = None) ∧
  _parse_args desk_fs [join_paths paths] = inr (paths, None).
Proof.
  intros paths.
  assert ((2 ≤ length paths)%nat) as H1 by (simpl; lia).
  assert (Forall splittable paths) as H2.
  { constructor; [|constructor; [|constructor]].
    - split; [exists "C:\sel\my memo", ".pdf"; split; reflexivity|].
      split; vm_compute; reflexivity.
    - split; [exists "C:\sel\notes v2", ".PDF"; split; reflexivity|].
      split; vm_compute; reflexivity. }
  assert (Forall (λ p, String.prefix "~" p = false) paths) as H3
    by (repeat (constructor; [reflexivity|]); constructor).
  assert (Forall (λ p, is_Some (desk_fs !! p)) paths) as H4
    by (repeat (constructor; [evaluate|]); constructor).
  assert (desk_fs !! join_paths paths = None) as H5 by (vm_compute; reflexivity).
  exact (conj (conj H1 (conj H2 (conj H3 (conj H4 H5))))
           (parse_args_splits_joined_token desk_fs paths H1 H2 H3 H4 H5)).
Defined.

Lemma merge_pdfs_writes_all_pages_witness :
  let pdfs := [report; cover] in
  let pss := [["report 1"; "report 2"]; ["cover 1"]] in
  (backend = true ∧ Forall2 (λ pdf ps, PdfReader pdf = Pages ps) pdfs pss ∧
   mkdir_ok (parent merged) = true ∧ write_ok merged = true) ∧
  merge_pdfs pdfs merged =
  ([EvMkdir (parent merged); EvWritePdf merged (concat pss)], None).
Proof.
  intros pdfs pss.
  assert (backend = true) as H1 by reflexivity.
  assert (Forall2 (λ pdf ps, PdfReader pdf = Pages ps) pdfs pss) as H2
    by (repeat (constructor; [vm_compute; reflexivity|]); constructor).
  assert (mkdir_ok (parent merged) = true) as H3 by reflexivity.
  assert (write_ok merged = true) as H4 by reflexivity.
  exact (conj (conj H1 (conj H2 (conj H3 H4)))
           (merge_pdfs_writes_all_pages pdfs merged pss H1 H2 H3 H4)).
Defined.

Lemma merge_pdfs_stops_at_first_bad_input_witness :
  (backend = true ∧ Forall readable [report] ∧ ∀ ps, PdfReader broken ≠ Pages ps) ∧
  merge_pdfs ([report] ++ broken :: [cover]) merged =
  ([], Some (RuntimeError (match PdfReader broken with
                           | MergeFails => FailedToMerge broken
                           | _ => FailedToRead broken
                           end))).
Proof.
  assert (backend = true) as H1 by reflexivity.
  assert (Forall readable [report]) as H2
    by (constructor; [eexists; vm_compute; reflexivity|constructor]).
  assert (∀ ps, PdfReader broken ≠ Pages ps) as H3 by (intros ps; vm_compute; discriminate).
  exact (conj (conj H1 (conj H2 H3))
           (merge_pdfs_stops_at_first_bad_input [report] [cover] broken merged H1 H2 H3)).
Defined.

Lemma main_refuses_witness :
  let argv := [report; missing] in
  let ds := _deduplicate argv in
  let missing_files := filter (λ p, ¬ is_Some (desk_fs !! p)) ds in
  (_parse_args desk_fs argv = inr (argv, None) ∧ tk ≠ TkBroken ∧
   ((length ds < 2)%nat ∨ ∃ p, p ∈ ds ∧ desk_fs !! p = None)) ∧
  main desk_fs argv =
  ([EvLog (LogArgv argv); EvLog (LogDeduplicated ds);
    match ds with
    | [] => EvShow KError SelectAtLeastTwo
    | _ => if decide (missing_files = []) then EvShow KWarning SelectTwoOrMore
           else EvShow KError (FilesNotFound missing_files)
    end;
    EvLog LogFinished], Exit 1).
Proof.
  intros argv ds missing_files.
  assert (_parse_args desk_fs argv = inr (argv, None)) as H1 by (vm_compute; reflexivity).
  assert (tk ≠ TkBroken) as H2 by discriminate.
  assert ((length ds < 2)%nat ∨ ∃ p, p ∈ ds ∧ desk_fs !! p = None) as H3
    by (right; exists missing; split; evaluate).
  exact (conj (conj H1 (conj H2 H3)) (main_refuses desk_fs argv argv None H1 H2 H3)).
Defined.

Lemma main_write_is_complete_witness :
  let argv := [report; cover; "-o"; merged] in
  let pages := ["report 1"; "report 2"; "cover 1"] in
  EvWritePdf merged pages ∈ (main desk_fs argv).1 ∧
  ∃ pdfs out pss,
    _parse_args desk_fs argv = inr (pdfs, out) ∧
    let ds := _deduplicate pdfs in
    (2 ≤ length ds)%nat ∧
    Forall (λ p, is_Some (desk_fs !! p)) ds ∧
    Forall2 (λ pdf ps, PdfReader pdf = Pages ps) ds pss ∧
    pages = concat pss ∧
    (PyStr.lower (suffix merged) = ".pdf" ∨
     ∃ d, with_suffix d ".pdf" = Some merged) ∧
    main desk_fs argv =
    ([EvLog (LogArgv argv); EvLog (LogDeduplicated ds);
      EvMkdir (parent merged);
      EvWritePdf merged pages;
      EvLog (LogMerged (length ds) merged);
      EvShow KInfo (Merged (length ds) (PyPath.name merged));
      EvLog LogFinished], Exit 0).
Proof.
  intros argv pages.
  assert (EvWritePdf merged pages ∈ (main desk_fs argv).1) as H1
    by (do 3 apply list_elem_of_further; apply list_elem_of_here).
  exact (conj H1 (main_write_is_complete desk_fs argv merged pages H1)).
Defined.

Lemma main_exit_code_witness :
  let argv := [report] in
  let evs := (main desk_fs argv).1 in
  (main desk_fs argv).2 = Exit 1 ∧
  last evs = Some (EvLog LogFinished) ∧
  (1 = 0 ∧
     (writes evs = [] ∧ shown evs = [] ∨
      ∃ d ps n name, writes evs = [(d, ps)] ∧ shown evs = [(KInfo, Merged n name)])
   ∨
   1 = 1 ∧ writes evs = [] ∧ ∃ k m, k ≠ KInfo ∧ shown evs = [(k, m)]).
Proof.
  intros argv evs.
  assert ((main desk_fs argv).2 = Exit 1) as H1 by (vm_compute; reflexivity).
  exact (conj H1 (main_exit_code desk_fs argv 1 H1)).
Defined.

Lemma main_merges_to_output_witness :
  let inputs := [report; cover] in
  let pss := [["report 1"; "report 2"]; ["cover 1"]] in
  ((2 ≤ length inputs)%nat ∧
   Forall (λ t, ¬ is_option t ∧ expanduser t = Some t ∧ is_Some (desk_fs !! t)) inputs ∧
   NoDup (path_key <$> inputs) ∧ is_option "-o" ∧
   expanduser merged = Some merged ∧ PyStr.lower (suffix merged) = ".pdf" ∧
   tk ≠ TkBroken ∧ backend = true ∧
   Forall2 (λ pdf ps, PdfReader pdf = Pages ps) inputs pss ∧
   mkdir_ok (parent merged) = true ∧ write_ok merged = true) ∧
  main desk_fs (inputs ++ ["-o"; merged]) =
  ([EvLog (LogArgv (inputs ++ ["-o"; merged]));
    EvLog (LogDeduplicated inputs);
    EvMkdir (parent merged);
    EvWritePdf merged (concat pss);
    EvLog (LogMerged (length inputs) merged);
    EvShow KInfo (Merged (length inputs) (PyPath.name merged));
    EvLog LogFinished], Exit 0).
Proof.
  intros inputs pss.
  assert ((2 ≤ length inputs)%nat) as H1 by (simpl; lia).
  assert (Forall (λ t, ¬ is_option t ∧ expanduser t = Some t ∧
                       is_Some (desk_fs !! t)) inputs) as H2
    by (repeat (constructor; [input|]); constructor).
  assert (NoDup (path_key <$> inputs)) as H3 by decided.
  assert (is_option "-o") as H4 by (by left).
  assert (expanduser merged = Some merged) as H5 by reflexivity.
  assert (PyStr.lower (suffix merged) = ".pdf") as H6 by (vm_compute; reflexivity).
  assert (tk ≠ TkBroken) as H7 by discriminate.
  assert (backend = true) as H8 by reflexivity.
  assert (Forall2 (λ pdf ps, PdfReader pdf = Pages ps) inputs pss) as H9
    by (repeat (constructor; [vm_compute; reflexivity|]); constructor).
  assert (mkdir_ok (parent merged) = true) as H10 by reflexivity.
  assert (write_ok merged = true) as H11 by reflexivity.
  split; [exact (conj H1 (conj H2 (conj H3 (conj H4 (conj H5 (conj H6 (conj H7
            (conj H8 (conj H9 (conj H10 H11))))))))))|].
  exact (main_merges_to_output desk_fs inputs "-o" merged pss
           H1 H2 H3 H4 H5 H6 H7 H8 H9 H10 H11).
Defined.

Lemma main_save_dialog_witness :
  let inputs := [report; cover] in
  let pss := [["report 1"; "report 2"]; ["cover 1"]] in
  let answer := "C:\sel\report_merged.pdf" in
  ([cover] ≠ [] ∧
   Forall (λ t, ¬ is_option t ∧ expanduser t = Some t ∧ is_Some (desk_fs !! t)) inputs ∧
   NoDup (path_key <$> inputs) ∧
   @tk desk_cancelled = TkReady ∧ tk = TkReady ∧
   @asksaveasfilename desk_cancelled (@parent desk_cancelled report) (@stem desk_cancelled report +:+ "_merged.pdf") = "" ∧
   asksaveasfilename (parent report) (stem report +:+ "_merged.pdf") = answer ∧
   answer ≠ "" ∧ expanduser answer = Some answer ∧
   PyStr.lower (suffix answer) = ".pdf" ∧ backend = true ∧
   Forall2 (λ pdf ps, PdfReader pdf = Pages ps) inputs pss ∧
   mkdir_ok (parent answer) = true ∧ write_ok answer = true) ∧
  @main desk_cancelled desk_fs inputs =
  ([@EvLog desk_cancelled (LogArgv inputs); @EvLog desk_cancelled (LogDeduplicated inputs);
    @EvLog desk_cancelled LogFinished], Exit 0) ∧
  main desk_fs inputs =
  ([EvLog (LogArgv inputs); EvLog (LogDeduplicated inputs);
    EvMkdir (parent answer);
    EvWritePdf answer (concat pss);
    EvLog (LogMerged (length inputs) answer);
    EvShow KInfo (Merged (length inputs) (PyPath.name answer));
    EvLog LogFinished], Exit 0).
Proof.
  intros inputs pss answer.
  assert ([cover] ≠ []) as H1 by discriminate.
  assert (Forall (λ t, ¬ is_option t ∧ expanduser t = Some t ∧
                       is_Some (desk_fs !! t)) inputs) as H2
    by (repeat (constructor; [input|]); constructor).
  assert (NoDup (path_key <$> inputs)) as H3 by decided.
  assert (@tk desk_cancelled = TkReady) as H4 by reflexivity.
  assert (tk = TkReady) as H5 by reflexivity.
  assert (@asksaveasfilename desk_cancelled (@parent desk_cancelled report) (@stem desk_cancelled report +:+ "_merged.pdf") = "")
    as H6 by reflexivity.
  assert (asksaveasfilename (parent report) (stem report +:+ "_merged.pdf") = answer)
    as H7 by reflexivity.
  assert (answer ≠ "") as H8 by discriminate.
  assert (expanduser answer = Some answer) as H9 by reflexivity.
  assert (PyStr.lower (suffix answer) = ".pdf") as H10 by reflexivity.
  assert (backend = true) as H11 by reflexivity.
  assert (Forall2 (λ pdf ps, PdfReader pdf = Pages ps) inputs pss) as H12
    by (repeat (constructor; [reflexivity|]); constructor).
  assert (mkdir_ok (parent answer) = true) as H13 by reflexivity.
  assert (write_ok answer = true) as H14 by reflexivity.
  destruct (@main_save_dialog desk_cancelled desk_fs report [cover] H1 H2 H3 H4) as [Hcancel _].
  destruct (main_save_dialog desk_fs report [cover] H1 H2 H3 H5) as [_ Haccept].
  split; [exact (conj H1 (conj H2 (conj H3 (conj H4 (conj H5 (conj H6 (conj H7
            (conj H8 (conj H9 (conj H10 (conj H11 (conj H12 (conj H13 H14)))))))))))))|].
  exact (conj (Hcancel H6) (Haccept pss H8 H9 H10 H11 H12 H13 H14)).
Defined.

End EngineConcrete.

Section TogetherConcrete.
#[local] Existing Instance windows_host.
#[local] Existing Instance MergeScenario.desk.
Import Scenario MergeScenario.

Ltac evaluate := vm_compute; repeat first [reflexivity | exact I | constructor | eexists].

Lemma single_selection_is_refused_witness :
  let w := start sel_fs in
  let handler := main ["merge_pdf_handler.py"; report] true 0 true 600 in
  (float_round_trip ∧ is_Some (w_fs w !! report) ∧ plain_path report ∧
   (report ∉ session_paths) ∧
   w_fs w !! collection get_session_files = None ∧ 0 + sleep_ms ≤ 600 ∧
   is_Some (w_fs w !! pyw_exe) ∧ is_Some (w_fs w !! merge_script) ∧
   ¬ MergePdfs.is_option report ∧ MergePdfs.expanduser report = Some report ∧
   MergePdfs.tk ≠ MergePdfs.TkBroken) ∧
  popens (events_of handler w) = [[pyw_exe; merge_script; report]] ∧
  MergePdfs.main (w_fs (exec handler w)) [report] =
  ([MergePdfs.EvLog (MergePdfs.LogArgv [report]);
    MergePdfs.EvLog (MergePdfs.LogDeduplicated [report]);
    MergePdfs.EvShow MergePdfs.KWarning MergePdfs.SelectTwoOrMore;
    MergePdfs.EvLog MergePdfs.LogFinished], MergePdfs.Exit 1).
Proof.
  intros w handler.
  assert (float_round_trip) as H1 by exact decimal_round_trip.
  assert (is_Some (w_fs w !! report)) as H2 by evaluate.
  assert (plain_path report) as H3 by (split; [discriminate|vm_compute; split; reflexivity]).
  assert (report ∉ session_paths) as H4
    by (apply (bool_decide_unpack _); vm_compute; exact I).
  assert (w_fs w !! collection get_session_files = None) as H5 by (vm_compute; reflexivity).
  assert (0 + sleep_ms ≤ 600) as H6 by (unfold sleep_ms; lia).
  assert (is_Some (w_fs w !! pyw_exe)) as H7 by evaluate.
  assert (is_Some (w_fs w !! merge_script)) as H8 by evaluate.
  assert (¬ MergePdfs.is_option report) as H9 by (intros [Ho|Ho]; discriminate Ho).
  assert (MergePdfs.expanduser report = Some report) as H10 by reflexivity.
  assert (MergePdfs.tk ≠ MergePdfs.TkBroken) as H11 by discriminate.
  split; [exact (conj H1 (conj H2 (conj H3 (conj H4 (conj H5 (conj H6 (conj H7
            (conj H8 (conj H9 (conj H10 H11))))))))))|].
  exact (single_selection_is_refused "merge_pdf_handler.py" report 0 600 w
           H1 H2 H3 H4 H5 H6 H7 H8 H9 H10 H11).
Defined.

End TogetherConcrete.
